(** * Timetable generator: the constraint model of [final_timetable_generator.py]

    A shallow embedding of [TimetableGenerator] (its catalog, the decision
    variables of [generate_variables], the constraints of [add_constraints]
    and the solution extraction of [solve]) together with the properties
    of the natural-language specification that are stated about them.

    The CP-SAT solver itself is a library call in the source; here it is a
    function from the model to a status and a valuation, handed to
    [solve], and the properties are stated for every valuation that
    satisfies the constraints of the model. *)

From stdpp Require Import gmap strings list fin_maps pretty.
From Stdlib Require Import Lia.

Open Scope string_scope.
Open Scope nat_scope.
Open Scope list_scope.

(** ** Python values used as dictionary keys *)

(** The key of [self.assign]: the tuple [(section, day, period, course)]. *)
Abbreviation SlotKey := (string * string * nat * string)%type.

Inductive pykey : Type :=
| KSlot (k : SlotKey)
| KStr (s : string).

(** The exceptions the embedded code can raise. *)
Inductive exn : Type :=
| KeyError (k : pykey)
| TypeError (msg : string).

(** ** The part of [ortools.sat.python.cp_model] the program uses *)

Module cp_model.

(** A Boolean variable is its index in the model. *)
Definition BoolVar : Type := nat.

(** [sum(x for ...)], [x + y] and a lone [x]: a sum of Boolean variables. *)
Definition LinearExpr : Type := list BoolVar.

Inductive Constraint : Type :=
| SumLe (e : LinearExpr) (k : nat)      (* e <= k *)
| SumEq (e : LinearExpr) (k : nat)      (* e == k *)
| VarEq (x y : BoolVar).                (* x == y *)

Record CpModel : Type := mkCpModel {
  variables : list string;              (* the names given to NewBoolVar *)
  constraints : list Constraint
}.

Definition empty : CpModel := mkCpModel [] [].

Definition NewBoolVar (name : string) (m : CpModel) : BoolVar * CpModel :=
  (length (variables m), mkCpModel (variables m ++ [name]) (constraints m)).

Definition Add (c : Constraint) (m : CpModel) : CpModel :=
  mkCpModel (variables m) (constraints m ++ [c]).

Inductive Status : Type :=
| UNKNOWN | MODEL_INVALID | FEASIBLE | INFEASIBLE | OPTIMAL.

(** A valuation gives every Boolean variable a truth value;
    [Value] is the integer the solver reports for it. *)
Definition valuation : Type := BoolVar → bool.

Definition Value (v : valuation) (x : BoolVar) : nat :=
  if v x then 1 else 0.

Definition sum_value (v : valuation) (e : LinearExpr) : nat :=
  sum_list (Value v <$> e).

Definition holds (v : valuation) (c : Constraint) : Prop :=
  match c with
  | SumLe e k => sum_value v e ≤ k
  | SumEq e k => sum_value v e = k
  | VarEq x y => v x = v y
  end.

Definition holdsb (v : valuation) (c : Constraint) : bool :=
  match c with
  | SumLe e k => Nat.leb (sum_value v e) k
  | SumEq e k => Nat.eqb (sum_value v e) k
  | VarEq x y => Bool.eqb (v x) (v y)
  end.

Definition satisfies (v : valuation) (m : CpModel) : Prop :=
  Forall (holds v) (constraints m).

Definition satisfiesb (v : valuation) (m : CpModel) : bool :=
  forallb (holdsb v) (constraints m).

(** What [CpSolver.Solve] promises: a status [OPTIMAL] or [FEASIBLE]
    comes with a valuation that satisfies every constraint. *)
Definition found (st : Status) : bool :=
  match st with OPTIMAL | FEASIBLE => true | _ => false end.

Definition sound (m : CpModel) (st : Status) (v : valuation) : Prop :=
  found st = true → satisfies v m.

End cp_model.

Import cp_model.

(** ** The generator object *)

(** A course: [(weekly_count, is_lab, teacher)]. *)
Abbreviation CourseInfo := (nat * bool * string)%type.

(** [self.solution]: section -> day -> period -> (course, teacher). *)
Abbreviation Solution := (gmap string (gmap string (gmap nat (string * string)))).

Record TimetableGenerator : Type := mkGen {
  days : list string;
  periods : list (nat * string);
  sections : list string;
  courses : list (string * CourseInfo);     (* a dict, in insertion order *)
  fixed_slots : list SlotKey;               (* a set, in iteration order *)
  model : CpModel;
  assign : gmap SlotKey BoolVar;
  solution : option Solution;
  include_free_periods : bool
}.

Definition set_model (m : CpModel) (g : TimetableGenerator) : TimetableGenerator :=
  mkGen (days g) (periods g) (sections g) (courses g) (fixed_slots g)
        m (assign g) (solution g) (include_free_periods g).

Definition set_assign (a : gmap SlotKey BoolVar) (g : TimetableGenerator)
  : TimetableGenerator :=
  mkGen (days g) (periods g) (sections g) (courses g) (fixed_slots g)
        (model g) a (solution g) (include_free_periods g).

Definition set_solution (s : option Solution) (g : TimetableGenerator)
  : TimetableGenerator :=
  mkGen (days g) (periods g) (sections g) (courses g) (fixed_slots g)
        (model g) (assign g) s (include_free_periods g).

Arguments set_model _ _ /.
Arguments set_assign _ _ /.
Arguments set_solution _ _ /.

(** *** Dictionaries with insertion order (the course catalog) *)

Fixpoint dict_get {V} (k : string) (d : list (string * V)) : option V :=
  match d with
  | [] => None
  | (k', v) :: d' => if String.eqb k k' then Some v else dict_get k d'
  end.

(** [d[k] = v]: overwrite in place, or append a new entry. *)
Fixpoint dict_set {V} (k : string) (v : V) (d : list (string * V))
  : list (string * V) :=
  match d with
  | [] => [(k, v)]
  | (k', v') :: d' =>
      if String.eqb k k' then (k, v) :: d' else (k', v') :: dict_set k v d'
  end.

Definition dict_keys {V} (d : list (string * V)) : list string := d.*1.

Definition weekly_count (i : CourseInfo) : nat := i.1.1.
Definition is_lab (i : CourseInfo) : bool := i.1.2.
Definition teacher (i : CourseInfo) : string := i.2.

(** *** [__init__] *)

Definition base_courses : list (string * CourseInfo) :=
  [ ("PAS",      (5, false, "Ms. Sowmiya"));
    ("OS",       (6, false, "Ms. K.Sudha"));
    ("ML",       (5, false, "Mr. Dinesh Kumar"));
    ("FDSA",     (5, false, "Ms. Deepika"));
    ("CN",       (6, false, "Ms. Kirupavathy"));
    ("EVS",      (4, false, "Ms. Sophia"));
    ("FDSA_LAB", (2, true,  "Ms. Deepika"));
    ("ML_LAB",   (2, true,  "Mr. Dinesh Kumar"));
    ("PD",       (2, false, "Ms. Kirupavathy"));
    ("LIB",      (1, false, "Ms. Kirupavathy"));
    ("ACT",      (2, false, "All Staff")) ].

Definition init (include_free_periods : bool) : TimetableGenerator :=
  {| days := ["Mon"; "Tue"; "Wed"; "Thu"; "Fri"; "Sat"];
     periods := [ (1, "08:30-09:20"); (2, "09:20-10:10"); (3, "10:10-11:00");
                  (4, "11:15-12:00"); (5, "12:00-12:45"); (6, "13:35-14:25");
                  (7, "14:25-15:15") ];
     sections := ["A"; "B"];
     courses :=
       if include_free_periods
       then dict_set "FREE" (2, false, "None") base_courses
       else base_courses;
     fixed_slots :=
       [ ("A", "Tue", 2, "PD"); ("A", "Fri", 4, "PD");
         ("B", "Tue", 3, "PD"); ("B", "Fri", 5, "PD");
         ("A", "Thu", 6, "LIB"); ("B", "Thu", 7, "LIB");
         ("A", "Fri", 7, "ACT"); ("B", "Sat", 7, "ACT") ];
     model := cp_model.empty;
     assign := ∅;
     solution := None;
     include_free_periods := include_free_periods |}.

(** ** Statements: state and exceptions *)

(** A method body runs on the object and either returns or raises;
    the mutations made before an exception stay. *)
Definition M (A : Type) : Type :=
  TimetableGenerator → (exn + A) * TimetableGenerator.

#[global] Instance M_ret : MRet M := λ A x g, (inr x, g).

#[global] Instance M_bind : MBind M := λ A B f m g,
  match m g with
  | (inr x, g') => f x g'
  | (inl e, g') => (inl e, g')
  end.

Definition gets {A} (f : TimetableGenerator → A) : M A := λ g, (inr (f g), g).

Definition modify (f : TimetableGenerator → TimetableGenerator) : M unit :=
  λ g, (inr tt, f g).

(** [for x in xs: body x] *)
Fixpoint for_ {A} (xs : list A) (body : A → M unit) : M unit :=
  match xs with
  | [] => mret tt
  | x :: xs' => body x ;; for_ xs' body
  end.

(** [range(a, b)] *)
Definition range (a b : nat) : list nat := seq a (b - a).

Arguments range : simpl never.

(** ** Expressions over [self.assign] *)

(** An expression such as [sum(self.assign[(s,d,p,c)] for c in ...)] reads
    the dictionary of variables and may raise [KeyError]; it changes
    nothing. *)
Definition Expr (A : Type) : Type := gmap SlotKey BoolVar → exn + A.

#[global] Instance Expr_ret : MRet Expr := λ A x a, inr x.

#[global] Instance Expr_bind : MBind Expr := λ A B f e a,
  match e a with
  | inr x => f x a
  | inl err => inl err
  end.

(** [self.assign[k]] *)
Definition getitem (k : SlotKey) : Expr BoolVar := λ a,
  match a !! k with
  | Some x => inr x
  | None => inl (KeyError (KSlot k))
  end.

(** [sum(self.assign[k] for k in ks)] *)
Fixpoint sum_ (ks : list SlotKey) : Expr LinearExpr :=
  match ks with
  | [] => mret []
  | k :: ks' => x ← getitem k; e ← sum_ ks'; mret (x :: e)
  end.

Definition eval {A} (e : Expr A) : M A := λ g, (e (assign g), g).

(** [self.model.Add(e)] *)
Definition model_Add (e : Expr Constraint) : M unit :=
  c ← eval e; modify (λ g, set_model (Add c (model g)) g).

(** ** [generate_variables] *)

Definition var_name (s d : string) (p : nat) (c : string) : string :=
  "x_" +:+ s +:+ "_" +:+ d +:+ "_" +:+ pretty p +:+ "_" +:+ c.

Definition new_var (s d : string) (p : nat) (c : string) : M unit :=
  modify (λ g,
    let '(x, m) := NewBoolVar (var_name s d p c) (model g) in
    set_assign (<[(s, d, p, c) := x]> (assign g)) (set_model m g)).

Definition generate_variables : M unit :=
  ss ← gets sections;
  for_ ss (λ s,
    ds ← gets days;
    for_ ds (λ d,
      for_ (range 1 8) (λ p,
        cs ← gets (dict_keys ∘ courses);
        for_ cs (λ c, new_var s d p c)))).

(** ** [add_constraints] *)

(** [needle in hay] on strings. *)
Fixpoint str_contains (needle hay : string) : bool :=
  String.prefix needle hay ||
  match hay with
  | EmptyString => false
  | String _ hay' => str_contains needle hay'
  end.

(** [x in (a, b, ...)] on a tuple of strings. *)
Definition str_in (x : string) (l : list string) : bool :=
  existsb (String.eqb x) l.

(** [set(...)] of strings: its elements, each once (Python fixes no
    order for them; none of the properties below depends on it). *)
Definition py_set (l : list string) : list string := remove_dups l.

(** 1. Exactly one course per slot per section (or at most one if free
    periods are allowed). *)
Definition add_slot_coverage : M unit :=
  ss ← gets sections;
  for_ ss (λ s,
    ds ← gets days;
    for_ ds (λ d,
      for_ (range 1 8) (λ p,
        gets include_free_periods ≫= λ free : bool,
        if free
        then cs ← gets (dict_keys ∘ courses);
             model_Add (e ← sum_ ((λ c, (s, d, p, c)) <$> cs); mret (SumLe e 1))
        else cs ← gets (dict_keys ∘ courses);
             model_Add (e ← sum_ ((λ c, (s, d, p, c)) <$> cs); mret (SumEq e 1))))).

(** 2. Course counts per section: exactly the required number. *)
Definition add_course_counts : M unit :=
  ss ← gets sections;
  for_ ss (λ s,
    items ← gets courses;
    for_ items (λ '(c, info),
      ds ← gets days;
      model_Add (e ← sum_ (d ← ds; p ← range 1 8; [(s, d, p, c)]);
                 mret (SumEq e (weekly_count info))))).

(** 3. Teacher conflict across sections. *)
Definition add_teacher_conflict : M unit :=
  ds ← gets days;
  for_ ds (λ d,
    for_ (range 1 8) (λ p,
      items ← gets courses;
      for_ (py_set (List.filter (λ t, negb (String.eqb t "None"))
                                (teacher ∘ snd <$> items))) (λ t,
        ss ← gets sections;
        model_Add
          (e ← sum_ (s ← ss;
                     (λ item, (s, d, p, item.1)) <$>
                       List.filter (λ item, String.eqb (teacher item.2) t) items);
           mret (SumLe e 1))))).

(** 4. No same theory course twice in one day per section. *)
Definition add_no_same_day_repeat : M unit :=
  items ← gets courses;
  let theory_courses :=
    fst <$> List.filter
      (λ item, negb (is_lab item.2) &&
               negb (str_in item.1 ["PD"; "LIB"; "ACT"; "FREE"])) items in
  ss ← gets sections;
  for_ ss (λ s,
    ds ← gets days;
    for_ ds (λ d,
      for_ theory_courses (λ c,
        model_Add (e ← sum_ ((λ p, (s, d, p, c)) <$> range 1 8);
                   mret (SumLe e 1))))).

(** 5. Lab sessions are blocks of two periods, in periods 4-5 or 6-7. *)
Definition add_lab_blocks : M unit :=
  items ← gets courses;
  let lab_courses := fst <$> List.filter (λ item, is_lab item.2) items in
  let valid_lab_slots := [(4, 5); (6, 7)] in
  ss ← gets sections;
  for_ ss (λ s,
    ds ← gets days;
    for_ ds (λ d,
      (* only one lab per day per section *)
      model_Add (e ← sum_ (c ← lab_courses; p ← range 1 8; [(s, d, p, c)]);
                 mret (SumLe e 2));;
      for_ lab_courses (λ c,
        for_ valid_lab_slots (λ '(p1, p2),
          model_Add (x ← getitem (s, d, p1, c); y ← getitem (s, d, p2, c);
                     mret (VarEq x y)));;
        let valid_periods := slot ← valid_lab_slots; [slot.1; slot.2] in
        for_ (range 1 8) (λ p,
          if negb (bool_decide (p ∈ valid_periods))
          then model_Add (x ← getitem (s, d, p, c); mret (SumEq [x] 0))
          else mret tt)))).

(** 6. The same subject is not in consecutive periods (except for labs). *)
Definition add_no_consecutive : M unit :=
  ss ← gets sections;
  for_ ss (λ s,
    ds ← gets days;
    for_ ds (λ d,
      for_ (range 1 7) (λ p,
        cs ← gets (dict_keys ∘ courses);
        for_ cs (λ c,
          if negb (existsb (λ lab, str_contains lab c) ["LAB"])
          then model_Add (x ← getitem (s, d, p, c); y ← getitem (s, d, p + 1, c);
                          mret (SumLe [x; y] 1))
          else mret tt)))).

(** 7. Fixed slots for administrative activities. *)
Definition add_fixed_slots : M unit :=
  fs ← gets fixed_slots;
  for_ fs (λ '(s, d, p, c),
    model_Add (x ← getitem (s, d, p, c); mret (SumEq [x] 1))).

Definition add_constraints : M unit :=
  add_slot_coverage;;
  add_course_counts;;
  add_teacher_conflict;;
  add_no_same_day_repeat;;
  add_lab_blocks;;
  add_no_consecutive;;
  add_fixed_slots.

(** ** [solve] *)

#[global] Instance Status_eq_dec : EqDecision Status.
Proof. solve_decision. Defined.

#[global] Instance Constraint_eq_dec : EqDecision Constraint.
Proof. solve_decision. Defined.

(** The solver is a library: it is given the model and answers with a
    status and the values of the variables. *)
Definition CpSolver : Type := CpModel → Status * valuation.

(** [self.courses[c]] *)
Definition courses_getitem (c : string) : M CourseInfo := λ g,
  match dict_get c (courses g) with
  | Some info => (inr info, g)
  | None => (inl (KeyError (KStr c)), g)
  end.

Definition not_subscriptable : exn :=
  TypeError "'NoneType' object does not support item assignment".

(** [self.solution[s] = {}] *)
Definition solution_new_section (s : string) : M unit := λ g,
  match solution g with
  | Some sol => (inr tt, set_solution (Some (<[s := ∅]> sol)) g)
  | None => (inl not_subscriptable, g)
  end.

(** [self.solution[s][d] = {}] *)
Definition solution_new_day (s d : string) : M unit := λ g,
  match solution g with
  | Some sol =>
      match sol !! s with
      | Some ds => (inr tt, set_solution (Some (<[s := <[d := ∅]> ds]> sol)) g)
      | None => (inl (KeyError (KStr s)), g)
      end
  | None => (inl not_subscriptable, g)
  end.

(** [self.solution[s][d][p] = {"course": c, "teacher": t}] *)
Definition solution_store (s d : string) (p : nat) (entry : string * string)
  : M unit := λ g,
  match solution g with
  | Some sol =>
      match sol !! s with
      | Some ds =>
          match ds !! d with
          | Some ps =>
              (inr tt,
               set_solution (Some (<[s := <[d := <[p := entry]> ps]> ds]> sol)) g)
          | None => (inl (KeyError (KStr d)), g)
          end
      | None => (inl (KeyError (KStr s)), g)
      end
  | None => (inl not_subscriptable, g)
  end.

(** The loops of [solve], innermost first. *)
Definition extract_course (v : valuation) (s d : string) (p : nat) (c : string)
  : M unit :=
  x ← eval (getitem (s, d, p, c));
  if Value v x =? 1
  then info ← courses_getitem c;
       solution_store s d p (c, teacher info)
  else mret tt.

Definition extract_slot (v : valuation) (s d : string) (p : nat) : M unit :=
  cs ← gets (dict_keys ∘ courses);
  for_ cs (extract_course v s d p).

Definition extract_day (v : valuation) (s d : string) : M unit :=
  solution_new_day s d;;
  for_ (range 1 8) (extract_slot v s d).

Definition extract_section (v : valuation) (s : string) : M unit :=
  solution_new_section s;;
  ds ← gets days;
  for_ ds (extract_day v s).

Definition solve (solver : CpSolver) : M bool :=
  m ← gets model;
  let '(status, v) := solver m in
  if bool_decide (status = OPTIMAL) || bool_decide (status = FEASIBLE)
  then
    modify (set_solution (Some ∅));;
    ss ← gets sections;
    for_ ss (extract_section v);;
    mret true
  else mret false.

(** ** [run]: variables, constraints, solve (the printing and the HTML
    page that follow a success only read the solution) *)
Definition run (solver : CpSolver) : M bool :=
  generate_variables;;
  add_constraints;;
  success ← solve solver;
  if success : bool then mret true else mret false.

(** What the solution says at a slot. *)
Definition solution_at (g : TimetableGenerator) (s d : string) (p : nat)
  : option (string * string) :=
  sol ← solution g; ds ← sol !! s; ps ← ds !! d; ps !! p.

(** Whether the variable of a key is true under a valuation. *)
Definition is_true (g : TimetableGenerator) (v : valuation) (k : SlotKey) : bool :=
  match assign g !! k with
  | Some x => v x
  | None => false
  end.

(** * Unrolled loops *)

(** The loops of [generate_variables] and [add_constraints] only ever do
    two things to the object: create a variable and add a constraint.
    Unrolling the loops gives the list of these statements in the order
    in which they run. *)
Inductive stmt : Type :=
| SAdd (e : Expr Constraint)
| SNewVar (s d : string) (p : nat) (c : string).

Definition exec (a : stmt) : M unit :=
  match a with
  | SAdd e => model_Add e
  | SNewVar s d p c => new_var s d p c
  end.

Definition script (acts : list stmt) : M unit := for_ acts exec.

Definition is_add (a : stmt) : Prop :=
  match a with SAdd _ => True | SNewVar _ _ _ _ => False end.

(** The fields that no method assigns after [__init__]. *)
Definition same_config (g cfg : TimetableGenerator) : Prop :=
  days g = days cfg ∧ periods g = periods cfg ∧ sections g = sections cfg ∧
  courses g = courses cfg ∧ fixed_slots g = fixed_slots cfg ∧
  include_free_periods g = include_free_periods cfg.

Definition unrolls (cfg : TimetableGenerator) (m : M unit) (acts : list stmt)
  : Prop :=
  ∀ g, same_config g cfg → m g = script acts g.

(** ** The statements of each block, in order *)

Section unrolled.

Variable g : TimetableGenerator.

Definition course_ids : list string := dict_keys (courses g).

Definition variable_stmts : list stmt :=
  s ← sections g; d ← days g; p ← range 1 8; c ← course_ids;
  [SNewVar s d p c].

Definition slot_coverage_stmts : list stmt :=
  s ← sections g; d ← days g; p ← range 1 8;
  if include_free_periods g
  then [SAdd (e ← sum_ ((λ c, (s, d, p, c)) <$> course_ids); mret (SumLe e 1))]
  else [SAdd (e ← sum_ ((λ c, (s, d, p, c)) <$> course_ids); mret (SumEq e 1))].

Definition course_count_stmts : list stmt :=
  s ← sections g; item ← courses g;
  [SAdd (e ← sum_ (d ← days g; p ← range 1 8; [(s, d, p, item.1)]);
         mret (SumEq e (weekly_count item.2)))].

Definition real_teachers : list string :=
  py_set (List.filter (λ t, negb (String.eqb t "None"))
                      (teacher ∘ snd <$> courses g)).

Definition taught_by (t : string) : list (string * CourseInfo) :=
  List.filter (λ item, String.eqb (teacher item.2) t) (courses g).

Definition teacher_conflict_stmts : list stmt :=
  d ← days g; p ← range 1 8; t ← real_teachers;
  [SAdd (e ← sum_ (s ← sections g; (λ item, (s, d, p, item.1)) <$> taught_by t);
         mret (SumLe e 1))].

Definition theory_courses : list string :=
  fst <$> List.filter
    (λ item, negb (is_lab item.2) &&
             negb (str_in item.1 ["PD"; "LIB"; "ACT"; "FREE"])) (courses g).

Definition same_day_stmts : list stmt :=
  s ← sections g; d ← days g; c ← theory_courses;
  [SAdd (e ← sum_ ((λ p, (s, d, p, c)) <$> range 1 8); mret (SumLe e 1))].

Definition lab_courses : list string :=
  fst <$> List.filter (λ item, is_lab item.2) (courses g).

Definition lab_course_stmts (s d c : string) : list stmt :=
  (slot ← [(4, 5); (6, 7)];
   [SAdd (x ← getitem (s, d, slot.1, c); y ← getitem (s, d, slot.2, c);
          mret (VarEq x y))]) ++
  (p ← range 1 8;
   if negb (bool_decide (p ∈ [4; 5; 6; 7]))
   then [SAdd (x ← getitem (s, d, p, c); mret (SumEq [x] 0))]
   else []).

Definition lab_block_stmts : list stmt :=
  s ← sections g; d ← days g;
  [SAdd (e ← sum_ (c ← lab_courses; p ← range 1 8; [(s, d, p, c)]);
         mret (SumLe e 2))] ++
  (c ← lab_courses; lab_course_stmts s d c).

Definition no_consecutive_stmts : list stmt :=
  s ← sections g; d ← days g; p ← range 1 7; c ← course_ids;
  if negb (existsb (λ lab, str_contains lab c) ["LAB"])
  then [SAdd (x ← getitem (s, d, p, c); y ← getitem (s, d, p + 1, c);
              mret (SumLe [x; y] 1))]
  else [].

Definition fixed_slot_stmts : list stmt :=
  k ← fixed_slots g; [SAdd (x ← getitem k; mret (SumEq [x] 1))].

Definition constraint_stmts : list stmt :=
  slot_coverage_stmts ++ course_count_stmts ++ teacher_conflict_stmts ++
  same_day_stmts ++ lab_block_stmts ++ no_consecutive_stmts ++
  fixed_slot_stmts.

End unrolled.

(** ** What a run of statements does to the object *)

Definition add_all (cs : list Constraint) (g : TimetableGenerator)
  : TimetableGenerator :=
  set_model (mkCpModel (variables (model g)) (constraints (model g) ++ cs)) g.

(** The constraint a statement adds, when its expression evaluates. *)
Definition stmt_constraint (a : gmap SlotKey BoolVar) (st : stmt)
  : option Constraint :=
  match st with
  | SAdd e => match e a with inr c => Some c | inl _ => None end
  | SNewVar _ _ _ _ => None
  end.

(** The exception a statement raises, when its expression does. *)
Definition stmt_raises (a : gmap SlotKey BoolVar) (st : stmt) : option exn :=
  match st with
  | SAdd e => match e a with inr _ => None | inl err => Some err end
  | SNewVar _ _ _ _ => None
  end.

Definition new_stmt (k : SlotKey) : stmt :=
  let '(s, d, p, c) := k in SNewVar s d p c.

Definition is_new (a : stmt) : Prop :=
  match a with SAdd _ => False | SNewVar _ _ _ _ => True end.

(** ** The variables after [generate_variables] *)

(** The keys [generate_variables] stores. *)
Definition slot_keys (g : TimetableGenerator) : list SlotKey :=
  s ← sections g; d ← days g; p ← range 1 8; c ← course_ids g; [(s, d, p, c)].

(** Every key has a variable of its own, and every variable is one the
    model knows. *)
Definition distinct_vars (g : TimetableGenerator) : Prop :=
  (∀ k x, assign g !! k = Some x → x < length (variables (model g))) ∧
  (∀ k1 k2 x, assign g !! k1 = Some x → assign g !! k2 = Some x → k1 = k2).

(** ** The constraints after [add_constraints] *)

(** The number of keys of a list whose variable is true. *)
Definition true_count (g : TimetableGenerator) (v : valuation)
  (ks : list SlotKey) : nat :=
  length (List.filter (is_true g v) ks).

(** The keys of one slot, one for each course of the catalog. *)
Definition slot_vars (g : TimetableGenerator) (s d : string) (p : nat)
  : list SlotKey :=
  (λ c, (s, d, p, c)) <$> course_ids g.

(** The keys of one course in one section, over the week. *)
Definition week_vars (g : TimetableGenerator) (s c : string) : list SlotKey :=
  d ← days g; p ← range 1 8; [(s, d, p, c)].

(** ** The extraction of [solve], as folds *)

Section extraction.

Variables (g : TimetableGenerator) (v : valuation).

(** The entry [solve] stores for a course. *)
Definition entry_of (c : string) : option (string * string) :=
  info ← dict_get c (courses g); Some (c, teacher info).

(** The loop over the courses at one slot: every true course overwrites
    the entry of the period. *)
Definition fill_slot (s d : string) (p : nat) (cs : list string)
  (ps : gmap nat (string * string)) : gmap nat (string * string) :=
  foldl (λ ps c,
           if is_true g v (s, d, p, c)
           then match entry_of c with Some e => <[p := e]> ps | None => ps end
           else ps) ps cs.

Definition fill_day (s d : string) (pl : list nat)
  (ps : gmap nat (string * string)) : gmap nat (string * string) :=
  foldl (λ ps p, fill_slot s d p (course_ids g) ps) ps pl.

Definition fill_section (s : string) (dl : list string)
  (ds : gmap string (gmap nat (string * string)))
  : gmap string (gmap nat (string * string)) :=
  foldl (λ ds d, <[d := fill_day s d (range 1 8) ∅]> ds) ds dl.

Definition fill_all (sl : list string) (sol : Solution) : Solution :=
  foldl (λ sol s, <[s := fill_section s (days g) ∅]> sol) sol sl.

(** The courses whose variable is true at a slot, in catalog order. *)
Definition true_courses (s d : string) (p : nat) : list string :=
  List.filter (λ c, is_true g v (s, d, p, c)) (course_ids g).

(** What the loops leave at a slot: the last true course of the catalog
    with its teacher, or nothing when no course is true. *)
Definition extracted (s d : string) (p : nat) : option (string * string) :=
  c ← last (true_courses s d p); entry_of c.

End extraction.

(** ** Totals *)

(** The (day, period) pairs of the week. *)
Definition week_slots (g : TimetableGenerator) : list (string * nat) :=
  d ← days g; p ← range 1 8; [(d, p)].

(** The sum of the weekly counts of the catalog. *)
Definition total_weekly (g : TimetableGenerator) : nat :=
  sum_list (weekly_count ∘ snd <$> courses g).

(** The statements of rules 1 to 6. *)
Definition search_rule_stmts (g : TimetableGenerator) : list stmt :=
  slot_coverage_stmts g ++ course_count_stmts g ++ teacher_conflict_stmts g ++
  same_day_stmts g ++ lab_block_stmts g ++ no_consecutive_stmts g.

(** ** What a block of [add_constraints] adds *)

(** The variables a constraint mentions. *)
Definition constraint_vars (c : Constraint) : list BoolVar :=
  match c with
  | SumLe e _ | SumEq e _ => e
  | VarEq x y => [x; y]
  end.

(** The constraints a block adds to the model of [g]. *)
Definition added_by (block : M unit) (g : TimetableGenerator)
  : list Constraint :=
  drop (length (constraints (model g))) (constraints (model (block g).2)).

(** A block exempts a course when no constraint it adds mentions a
    variable of the course. *)
Definition exempts (block : M unit) (g : TimetableGenerator) (c : string)
  : Prop :=
  ∀ s d p x, assign g !! (s, d, p, c) = Some x →
             ∀ k, k ∈ added_by block g → x ∉ constraint_vars k.

(** A block permits two variables to be true together when some
    valuation satisfies all it adds and makes both true. *)
Definition permits (block : M unit) (g : TimetableGenerator)
  (k1 k2 : SlotKey) : Prop :=
  ∃ v, Forall (holds v) (added_by block g) ∧
       is_true g v k1 = true ∧ is_true g v k2 = true.

(** The identifiers rule 4 leaves out. *)
Definition administrative : list string := ["PD"; "LIB"; "ACT"; "FREE"].

(** ** Objects used as examples *)

(** [gen.include_free_periods = b], assigned after the construction. *)
Definition set_include_free_periods (b : bool) (g : TimetableGenerator)
  : TimetableGenerator :=
  mkGen (days g) (periods g) (sections g) (courses g) (fixed_slots g)
        (model g) (assign g) (solution g) b.

(** [gen.fixed_slots = fs], assigned after the construction. *)
Definition set_fixed_slots (fs : list SlotKey) (g : TimetableGenerator)
  : TimetableGenerator :=
  mkGen (days g) (periods g) (sections g) (courses g) fs
        (model g) (assign g) (solution g) (include_free_periods g).

(** The object after [generate_variables], and after [add_constraints]. *)
Definition built (g0 : TimetableGenerator) : TimetableGenerator :=
  (generate_variables g0).2.

Definition constrained (g0 : TimetableGenerator) : TimetableGenerator :=
  (add_constraints (built g0)).2.

(** A timetable as rows: section, day, and the courses of periods 1.. *)
Definition table_keys (t : list (string * string * list string))
  : list SlotKey :=
  row ← t;
  (λ pc : nat * string, (row.1.1, row.1.2, pc.1, pc.2)) <$>
    zip (seq 1 (length row.2)) row.2.

(** The valuation that makes true the variables of a list of keys, and
    no other. *)
Definition valuation_of (g : TimetableGenerator) (ks : list SlotKey)
  : valuation :=
  let bits :=
    foldr (λ x bs, <[x := true]> bs)
          (replicate (length (variables (model g))) false)
          (omap (λ k, assign g !! k) ks) in
  λ x, default false (bits !! x).

(** A week for the catalog with free periods. *)
Definition week : list (string * string * list string) :=
  [ ("A", "Mon", ["CN"; "OS"; "ML"; "FDSA_LAB"; "FDSA_LAB"; "FDSA"; "PAS"]);
    ("A", "Tue", ["CN"; "PD"; "OS"; "EVS"; "PAS"; "FDSA"; "ML"]);
    ("A", "Wed", ["CN"; "OS"; "ML"; "EVS"; "PAS"; "ML_LAB"; "ML_LAB"]);
    ("A", "Thu", ["CN"; "FDSA"; "OS"; "PAS"; "ML"; "LIB"; "FREE"]);
    ("A", "Fri", ["FDSA"; "OS"; "EVS"; "PD"; "ML"; "CN"; "ACT"]);
    ("A", "Sat", ["OS"; "PAS"; "ACT"; "CN"; "FDSA"; "FREE"; "EVS"]);
    ("B", "Mon", ["OS"; "CN"; "PAS"; "ML"; "EVS"; "ML_LAB"; "ML_LAB"]);
    ("B", "Tue", ["OS"; "FDSA"; "PD"; "CN"; "ML"; "PAS"; "EVS"]);
    ("B", "Wed", ["OS"; "CN"; "FDSA"; "FDSA_LAB"; "FDSA_LAB"; "PAS"; "FREE"]);
    ("B", "Thu", ["OS"; "ML"; "CN"; "FDSA"; "EVS"; "PAS"; "LIB"]);
    ("B", "Fri", ["ML"; "FDSA"; "OS"; "EVS"; "PD"; "PAS"; "CN"]);
    ("B", "Sat", ["CN"; "FDSA"; "FREE"; "ACT"; "OS"; "ML"; "ACT"]) ].

Definition week_valuation : valuation :=
  valuation_of (built (init true)) (table_keys week).

(** A solver that knows one valuation and answers with it when it
    satisfies the model. *)
Definition oracle (v : valuation) : CpSolver :=
  λ m, if satisfiesb v m then (FEASIBLE, v) else (UNKNOWN, v).

(** A solver that answers with a valuation without looking at the model. *)
Definition careless (v : valuation) : CpSolver := λ _, (FEASIBLE, v).

(** A solver that never finds anything. *)
Definition never_finds : CpSolver := λ _, (UNKNOWN, λ _, false).

(** The catalog with free periods, asked for exactly one course per slot. *)
Definition strict : TimetableGenerator :=
  set_include_free_periods false (init true).

(** ** Rules 1 and 2 on their own *)

(** The first two blocks of [add_constraints]. *)
Definition add_coverage_and_counts : M unit :=
  add_slot_coverage;; add_course_counts.

(** The weekly counts of some entries of the catalog, added up. *)
Definition weekly_sum (items : list (string * CourseInfo)) : nat :=
  sum_list (weekly_count ∘ snd <$> items).

Definition theory_items (g : TimetableGenerator) : list (string * CourseInfo) :=
  List.filter (λ item, negb (is_lab item.2) && negb (str_in item.1 administrative))
              (courses g).

Definition lab_items (g : TimetableGenerator) : list (string * CourseInfo) :=
  List.filter (λ item, is_lab item.2) (courses g).

Definition administrative_items (g : TimetableGenerator)
  : list (string * CourseInfo) :=
  List.filter (λ item, negb (is_lab item.2) && str_in item.1 administrative)
              (courses g).

(** The built-in object with a fixed slot that names a course the
    catalog does not have. *)
Definition with_unknown_course : TimetableGenerator :=
  set_fixed_slots (("A", "Mon", 1, "XYZ") :: fixed_slots (init false))
                  (init false).

(** A run that was rejected before any variable or constraint was made. *)
Definition rejected_up_front (r : (exn + bool) * TimetableGenerator) : Prop :=
  (∃ e, r.1 = inl e) ∧
  variables (model r.2) = [] ∧ constraints (model r.2) = [].

(** The valuation that makes every variable true. *)
Definition all_true : valuation := λ _, true.

(** ** The statistics of [print_timetable] and [generate_html] *)

(** Both methods start with the guard [if not self.solution] and then
    count, with the same loops over [self.solution], the periods of each
    course in a section and the periods of each teacher. *)

(** [not self.solution]: there is none, or it is an empty dictionary. *)
Definition not_solution (g : TimetableGenerator) : bool :=
  match solution g with
  | None => true
  | Some sol => bool_decide (sol = ∅)
  end.

(** [self.solution[s][d]] *)
Definition solution_day (sol : Solution) (s d : string)
  : exn + gmap nat (string * string) :=
  match sol !! s with
  | Some ds =>
      match ds !! d with
      | Some ps => inr ps
      | None => inl (KeyError (KStr d))
      end
  | None => inl (KeyError (KStr s))
  end.

(** A loop that updates a local variable and may raise. *)
Definition fold_ {A S} (xs : list A) (body : S → A → exn + S) (st : S)
  : exn + S :=
  foldl (λ acc x, match acc with inr st => body st x | inl err => inl err end)
        (inr st) xs.

(** [counts[k] = counts.get(k, 0) + 1] *)
Definition count_up (k : string) (counts : gmap string nat) : gmap string nat :=
  <[k := default 0 (counts !! k) + 1]> counts.

(** The body of the loops, [if p in self.solution[s][d]: ...], which
    counts the course ([field] is [fst]) or the teacher ([snd]) of the
    entry. *)
Definition count_slot (field : string * string → string) (sol : Solution)
  (s d : string) (counts : gmap string nat) (p : nat)
  : exn + gmap string nat :=
  match solution_day sol s d with
  | inr ps =>
      match ps !! p with
      | Some e => inr (count_up (field e) counts)
      | None => inr counts
      end
  | inl err => inl err
  end.

(** [subject_counts] of a section. *)
Definition subject_counts (g : TimetableGenerator) (sol : Solution) (s : string)
  : exn + gmap string nat :=
  fold_ (days g)
        (λ counts d, fold_ (range 1 8) (count_slot fst sol s d) counts) ∅.

(** [required = self.courses[subject][0]] *)
Definition required (g : TimetableGenerator) (subject : string) : exn + nat :=
  match dict_get subject (courses g) with
  | Some info => inr (weekly_count info)
  | None => inl (KeyError (KStr subject))
  end.

(** [teacher_workload], over all sections. *)
Definition teacher_workload (g : TimetableGenerator) (sol : Solution)
  : exn + gmap string nat :=
  fold_ (sections g)
        (λ counts s,
           fold_ (days g)
                 (λ counts d, fold_ (range 1 8) (count_slot snd sol s d) counts)
                 counts) ∅.

(** What one slot does to the counts. *)
Definition tally (k : option string) (counts : gmap string nat)
  : gmap string nat :=
  match k with Some k => count_up k counts | None => counts end.

(** The number of slots of a list whose key is [k]. *)
Definition occurrences {A} (h : A → option string) (k : string) (l : list A)
  : nat :=
  length (List.filter (λ x, bool_decide (h x = Some k)) l).

(** ** The cells of [generate_html] *)

(** The class of the cell of a course at a period. *)
Definition cell_class (course : string) (p : nat) : string :=
  if String.eqb course "FREE" then "free"
  else if str_in course ["PD"; "LIB"; "ACT"] then "admin"
  else if existsb (λ lab, str_contains lab course) ["LAB"] then
    if (p =? 4) || (p =? 6) then "lab lab-start"
    else if (p =? 5) || (p =? 7) then "lab lab-end"
    else "lab"
  else "theory".

(** The class of the cell of a slot: a slot without entry is shown as a
    free period. *)
Definition html_cell_class (sol : Solution) (s d : string) (p : nat)
  : exn + string :=
  match solution_day sol s d with
  | inr ps =>
      match ps !! p with
      | Some e => inr (cell_class e.1 p)
      | None => inr "free"
      end
  | inl err => inl err
  end.

(** The courses of the catalog that a teacher gives. *)
Definition courses_of (g : TimetableGenerator) (t : string)
  : list (string * CourseInfo) :=
  List.filter (λ item, bool_decide (teacher item.2 = t)) (courses g).

(** The weekly counts of the courses of a teacher, added up. *)
Definition teaching_load (g : TimetableGenerator) (t : string) : nat :=
  sum_list ((λ item, weekly_count item.2) <$> courses_of g t).

(** ** The cells of [print_timetable] *)

(** The character of the separator ['.']. *)
Definition dot : Ascii.ascii :=
  Ascii.Ascii false true true true false true false false.

(** [s.split(sep)] for a separator of one character. *)
Fixpoint split (sep : Ascii.ascii) (s : string) : list string :=
  match s with
  | EmptyString => [EmptyString]
  | String a s' =>
      if Ascii.eqb a sep then EmptyString :: split sep s'
      else match split sep s' with
           | w :: ws => String a w :: ws
           | [] => [String a EmptyString]
           end
  end.

(** [teacher.split('.')[-1] if '.' in teacher else teacher] (the list of
    [split] is never empty, so that [[-1]] does not raise). *)
Definition teacher_short (teacher : string) : string :=
  if str_contains "." teacher
  then default EmptyString (last (split dot teacher))
  else teacher.

(** * Proofs *)

(** ** Reasoning about the loops *)

Section monad_facts.

Lemma bind_run {A B} (m : M A) (f : A → M B) g :
  (m ≫= f) g =
  match m g with
  | (inr x, g') => f x g'
  | (inl e, g') => (inl e, g')
  end.
Proof. reflexivity. Qed.

Lemma bind_gets {A B} (f : TimetableGenerator → A) (k : A → M B) g :
  (gets f ≫= k) g = k (f g) g.
Proof. reflexivity. Qed.

Lemma bind_modify {B} (f : TimetableGenerator → TimetableGenerator)
  (k : M B) g :
  (modify f ;; k) g = k (f g).
Proof. reflexivity. Qed.

Lemma same_config_refl g : same_config g g.
Proof. by repeat split. Qed.

Lemma same_config_trans g1 g2 g3 :
  same_config g1 g2 → same_config g2 g3 → same_config g1 g3.
Proof.
  intros (?&?&?&?&?&?) (?&?&?&?&?&?). repeat split; congruence.
Qed.

Lemma exec_same_config a g : same_config (exec a g).2 g.
Proof.
  destruct a as [e|s d p c]; simpl.
  - unfold model_Add, eval. rewrite bind_run.
    destruct (e (assign g)); simpl; by repeat split.
  - by repeat split.
Qed.

Lemma script_same_config acts g : same_config (script acts g).2 g.
Proof.
  revert g. induction acts as [|a acts IH]; intros g.
  - apply same_config_refl.
  - unfold script. simpl. rewrite bind_run.
    pose proof (exec_same_config a g) as Ha.
    destruct (exec a g) as [[e|[]] g1]; simpl in *; [done|].
    eapply same_config_trans; [apply IH | done].
Qed.

Lemma script_app a1 a2 g :
  script (a1 ++ a2) g = (script a1 ;; script a2) g.
Proof.
  revert g. induction a1 as [|a a1 IH]; intros g.
  - reflexivity.
  - unfold script in *. simpl. rewrite !bind_run.
    destruct (exec a g) as [[e|[]] g1]; [done|].
    rewrite IH. by rewrite bind_run.
Qed.

Lemma unrolls_ret cfg : unrolls cfg (mret tt) [].
Proof. by intros g _. Qed.

Lemma unrolls_exec cfg a : unrolls cfg (exec a) [a].
Proof.
  intros g _. unfold script. simpl. rewrite bind_run.
  by destruct (exec a g) as [[e|[]] g1].
Qed.

Lemma unrolls_add cfg e : unrolls cfg (model_Add e) [SAdd e].
Proof. apply (unrolls_exec cfg (SAdd e)). Qed.

Lemma unrolls_new_var cfg s d p c :
  unrolls cfg (new_var s d p c) [SNewVar s d p c].
Proof. apply (unrolls_exec cfg (SNewVar s d p c)). Qed.

Lemma unrolls_seq cfg m1 m2 a1 a2 :
  unrolls cfg m1 a1 → unrolls cfg m2 a2 → unrolls cfg (m1 ;; m2) (a1 ++ a2).
Proof.
  intros H1 H2 g Hg. rewrite script_app, !bind_run, (H1 g Hg).
  pose proof (script_same_config a1 g) as Hc.
  destruct (script a1 g) as [[e|[]] g1]; simpl in *; [done|].
  apply H2. by eapply same_config_trans.
Qed.

Lemma unrolls_for {A} cfg (xs : list A) (body : A → M unit) (h : A → list stmt) :
  (∀ x, unrolls cfg (body x) (h x)) → unrolls cfg (for_ xs body) (xs ≫= h).
Proof.
  intros Hb. induction xs as [|x xs IH]; simpl.
  - apply unrolls_ret.
  - apply unrolls_seq; [apply Hb | apply IH].
Qed.

Lemma unrolls_gets {A} cfg (f : TimetableGenerator → A) (k : A → M unit) acts :
  (∀ g, same_config g cfg → f g = f cfg) →
  unrolls cfg (k (f cfg)) acts → unrolls cfg (gets f ≫= k) acts.
Proof.
  intros Hf Hk g Hg. rewrite bind_run. unfold gets. rewrite (Hf g Hg).
  by apply Hk.
Qed.

Lemma unrolls_if cfg (b : bool) m1 m2 a1 a2 :
  unrolls cfg m1 a1 → unrolls cfg m2 a2 →
  unrolls cfg (if b then m1 else m2) (if b then a1 else a2).
Proof. by destruct b. Qed.

End monad_facts.

(** Reading a field that is never assigned. *)
Ltac config_field :=
  let g := fresh in
  intros g (?&?&?&?&?&?); unfold compose; simpl; congruence.

(** One step of unrolling, chosen by the shape of the program. *)
Ltac unroll_step :=
  lazymatch goal with
  | |- unrolls _ (gets _ ≫= _) _ => apply unrolls_gets; [config_field|]
  | |- unrolls _ (for_ _ _) _ => apply unrolls_for; intros
  | |- unrolls _ (model_Add _) _ => apply unrolls_add
  | |- unrolls _ (new_var _ _ _ _) _ => apply unrolls_new_var
  | |- unrolls _ (mret tt) _ => apply unrolls_ret
  | |- unrolls _ (if _ then _ else _) _ => apply unrolls_if
  | |- unrolls _ (_ ≫= _) _ => apply unrolls_seq
  | |- unrolls _ (match ?x with (_, _) => _ end) _ => destruct x
  end.

Ltac unroll := repeat (unroll_step; cbv beta; unfold compose; cbn [fst snd]).

Section unrolling.

Variable cfg : TimetableGenerator.

Lemma generate_variables_unrolls :
  unrolls cfg generate_variables (variable_stmts cfg).
Proof. unfold generate_variables, variable_stmts, course_ids. unroll. Qed.

Lemma add_slot_coverage_unrolls :
  unrolls cfg add_slot_coverage (slot_coverage_stmts cfg).
Proof. unfold add_slot_coverage, slot_coverage_stmts, course_ids. unroll. Qed.

Lemma add_course_counts_unrolls :
  unrolls cfg add_course_counts (course_count_stmts cfg).
Proof. unfold add_course_counts, course_count_stmts. unroll. Qed.

Lemma add_teacher_conflict_unrolls :
  unrolls cfg add_teacher_conflict (teacher_conflict_stmts cfg).
Proof.
  unfold add_teacher_conflict, teacher_conflict_stmts, real_teachers, taught_by.
  unroll.
Qed.

Lemma add_no_same_day_repeat_unrolls :
  unrolls cfg add_no_same_day_repeat (same_day_stmts cfg).
Proof.
  unfold add_no_same_day_repeat, same_day_stmts, theory_courses. unroll.
Qed.

Lemma add_lab_blocks_unrolls :
  unrolls cfg add_lab_blocks (lab_block_stmts cfg).
Proof.
  unfold add_lab_blocks, lab_block_stmts, lab_course_stmts, lab_courses.
  unroll.
Qed.

Lemma add_no_consecutive_unrolls :
  unrolls cfg add_no_consecutive (no_consecutive_stmts cfg).
Proof.
  unfold add_no_consecutive, no_consecutive_stmts, course_ids. unroll.
Qed.

Lemma add_fixed_slots_unrolls :
  unrolls cfg add_fixed_slots (fixed_slot_stmts cfg).
Proof. unfold add_fixed_slots, fixed_slot_stmts. unroll. Qed.

Lemma add_constraints_unrolls :
  unrolls cfg add_constraints (constraint_stmts cfg).
Proof.
  unfold add_constraints, constraint_stmts.
  repeat apply unrolls_seq;
    auto using add_slot_coverage_unrolls, add_course_counts_unrolls,
      add_teacher_conflict_unrolls, add_no_same_day_repeat_unrolls,
      add_lab_blocks_unrolls, add_no_consecutive_unrolls,
      add_fixed_slots_unrolls.
Qed.

End unrolling.

Section script_facts.

Lemma add_all_nil g : add_all [] g = g.
Proof.
  destruct g as [? ? ? ? ? [? ?] ? ? ?]. unfold add_all, set_model. simpl.
  by rewrite app_nil_r.
Qed.

Lemma add_all_app cs1 cs2 g : add_all cs2 (add_all cs1 g) = add_all (cs1 ++ cs2) g.
Proof. unfold add_all, set_model. simpl. by rewrite app_assoc. Qed.

Lemma model_Add_run e g :
  model_Add e g =
  match e (assign g) with
  | inr c => (inr tt, add_all [c] g)
  | inl err => (inl err, g)
  end.
Proof.
  unfold model_Add, eval. rewrite bind_run. by destruct (e (assign g)).
Qed.

(** A run of [Add]s that returns has added one constraint per statement. *)
Lemma script_adds_ok acts g g' :
  Forall is_add acts → script acts g = (inr tt, g') →
  ∃ cs, Forall2 (λ st c, stmt_constraint (assign g) st = Some c) acts cs ∧
        g' = add_all cs g.
Proof.
  intros Hadd. revert g. induction Hadd as [|a acts Ha _ IH]; intros g Hrun.
  - injection Hrun as <-. exists []. split; [constructor|].
    by rewrite add_all_nil.
  - destruct a as [e|]; [|done]. unfold script in Hrun. simpl in Hrun.
    rewrite bind_run, model_Add_run in Hrun.
    destruct (e (assign g)) as [err|c] eqn:He; [done|].
    apply IH in Hrun as (cs & Hcs & ->). exists (c :: cs). split.
    + constructor; [simpl; by rewrite He | done].
    + by rewrite add_all_app.
Qed.

(** A run of [Add]s that raises stopped at the first statement whose
    expression raises; the constraints before it have been added. *)
Lemma script_adds_err acts g g' err :
  Forall is_add acts → script acts g = (inl err, g') →
  ∃ pre st rest cs,
    acts = pre ++ st :: rest ∧
    Forall2 (λ st c, stmt_constraint (assign g) st = Some c) pre cs ∧
    stmt_raises (assign g) st = Some err ∧
    g' = add_all cs g.
Proof.
  intros Hadd. revert g. induction Hadd as [|a acts Ha _ IH]; intros g Hrun.
  - done.
  - destruct a as [e|]; [|done]. unfold script in Hrun. simpl in Hrun.
    rewrite bind_run, model_Add_run in Hrun.
    destruct (e (assign g)) as [err'|c] eqn:He.
    + injection Hrun as -> <-. exists [], (SAdd e), acts, [].
      repeat split; [constructor | simpl; by rewrite He |].
      by rewrite add_all_nil.
    + apply IH in Hrun as (pre & st & rest & cs & -> & Hcs & Hst & ->).
      exists (SAdd e :: pre), st, rest, (c :: cs). repeat split.
      * constructor; [simpl; by rewrite He | done].
      * done.
      * by rewrite add_all_app.
Qed.

(** A run of [Add]s raises as soon as one expression raises. *)
Lemma script_adds_raise acts g :
  Forall is_add acts →
  (∃ st err, st ∈ acts ∧ stmt_raises (assign g) st = Some err) →
  ∃ err g', script acts g = (inl err, g').
Proof.
  intros Hadd (st & err & Hin & Hst).
  destruct (script acts g) as [[err'|[]] g'] eqn:Hrun; [by eauto|].
  apply script_adds_ok in Hrun as (cs & Hcs & _); [|done].
  apply list_elem_of_lookup in Hin as [i Hi].
  destruct (Forall2_lookup_l _ _ _ _ _ Hcs Hi) as (c & _ & Hc).
  destruct st as [e|]; simpl in *; [|done].
  by destruct (e (assign g)).
Qed.

(** A run of [Add]s returns when every expression evaluates. *)
Lemma script_adds_return acts g :
  Forall is_add acts →
  Forall (λ st, is_Some (stmt_constraint (assign g) st)) acts →
  ∃ g', script acts g = (inr tt, g').
Proof.
  intros Hadd Hall.
  destruct (script acts g) as [[err|[]] g'] eqn:Hrun; [|by eauto].
  apply script_adds_err in Hrun
    as (pre & st & rest & cs & -> & _ & Hst & _); [|done].
  apply Forall_app in Hall as [_ Hall]. apply Forall_cons in Hall as [[c Hc] _].
  destruct st as [e|]; simpl in *; [|done].
  by destruct (e (assign g)).
Qed.

(** A run of [NewBoolVar]s always returns; it touches the model's
    variables and [self.assign] only, and the keys of [self.assign]
    are the old ones and the ones it has stored. *)
Lemma script_news acts g :
  Forall is_new acts →
  ∃ g', script acts g = (inr tt, g') ∧ same_config g' g ∧
        solution g' = solution g ∧
        constraints (model g') = constraints (model g) ∧
        ∀ k, is_Some (assign g' !! k) ↔
             is_Some (assign g !! k) ∨ new_stmt k ∈ acts.
Proof.
  intros Hnew. revert g. induction Hnew as [|a acts Ha _ IH]; intros g.
  - exists g. repeat split; try done.
    + by left.
    + intros [?|Hin]; [done|]. by apply elem_of_nil in Hin.
  - destruct a as [|s d p c]; [done|].
    unfold script. simpl. rewrite bind_run. unfold new_var at 1, modify.
    simpl.
    match goal with |- context [for_ acts exec ?g1] =>
      destruct (IH g1) as (g' & Hrun & Hcfg & Hsol & Hcs & Hkeys) end.
    unfold script in Hrun. rewrite Hrun. exists g'.
    repeat split; try done; try apply Hcfg.
    + intros Hk. apply Hkeys in Hk as [Hk|Hk].
      * simpl in Hk. destruct (decide ((s, d, p, c) = k)) as [<-|Hne].
        -- right. by left.
        -- rewrite lookup_insert_ne in Hk by done. by left.
      * right. by right.
    + intros [Hk|Hk]; apply Hkeys.
      * left. simpl. destruct (decide ((s, d, p, c) = k)) as [<-|Hne].
        -- rewrite lookup_insert_eq. by eexists.
        -- by rewrite lookup_insert_ne.
      * apply elem_of_cons in Hk as [Hk|Hk]; [|by right].
        left. simpl. destruct k as [[[s' d'] p'] c']. simpl in Hk.
        injection Hk as -> -> -> ->. rewrite lookup_insert_eq. by eexists.
Qed.

End script_facts.

(** A property of every statement of a nest of comprehensions. *)
Ltac forall_stmts :=
  repeat first
    [ apply Forall_app; split
    | apply Forall_bind, Forall_forall; intros ? _; unfold compose
    | match goal with |- Forall _ (if ?b then _ else _) => destruct b end
    | apply Forall_nil_2
    | apply Forall_cons_2; [exact I|] ].

Section variables_facts.

Lemma elem_of_range a b p : p ∈ range a b ↔ a ≤ p < b.
Proof. unfold range. rewrite elem_of_seq. lia. Qed.

Lemma elem_of_slot_keys g s d p c :
  (s, d, p, c) ∈ slot_keys g ↔
  s ∈ sections g ∧ d ∈ days g ∧ 1 ≤ p ≤ 7 ∧ c ∈ course_ids g.
Proof.
  unfold slot_keys. split.
  - intros H.
    apply list_elem_of_bind in H as (s' & H & Hs).
    apply list_elem_of_bind in H as (d' & H & Hd).
    apply list_elem_of_bind in H as (p' & H & Hp).
    apply list_elem_of_bind in H as (c' & H & Hc).
    apply list_elem_of_singleton in H. injection H as -> -> -> ->.
    apply elem_of_range in Hp. repeat split; try done; lia.
  - intros (Hs & Hd & Hp & Hc).
    apply list_elem_of_bind. exists s. split; [|done].
    apply list_elem_of_bind. exists d. split; [|done].
    apply list_elem_of_bind. exists p. split; [|apply elem_of_range; lia].
    apply list_elem_of_bind. exists c. split; [|done].
    by apply list_elem_of_singleton.
Qed.

Lemma variable_stmts_new g : Forall is_new (variable_stmts g).
Proof.
  unfold variable_stmts. forall_stmts.
Qed.

Lemma new_stmt_variable_stmts g k :
  new_stmt k ∈ variable_stmts g ↔ k ∈ slot_keys g.
Proof.
  destruct k as [[[s d] p] c]. unfold variable_stmts, slot_keys.
  change (new_stmt (s, d, p, c)) with (SNewVar s d p c).
  split; intros H.
  - apply list_elem_of_bind in H as (s' & H & Hs).
    apply list_elem_of_bind in H as (d' & H & Hd).
    apply list_elem_of_bind in H as (p' & H & Hp).
    apply list_elem_of_bind in H as (c' & H & Hc).
    apply list_elem_of_singleton in H. injection H as <- <- <- <-.
    apply list_elem_of_bind. exists s. split; [|done].
    apply list_elem_of_bind. exists d. split; [|done].
    apply list_elem_of_bind. exists p. split; [|done].
    apply list_elem_of_bind. exists c. split; [|done].
    by apply list_elem_of_singleton.
  - apply list_elem_of_bind in H as (s' & H & Hs).
    apply list_elem_of_bind in H as (d' & H & Hd).
    apply list_elem_of_bind in H as (p' & H & Hp).
    apply list_elem_of_bind in H as (c' & H & Hc).
    apply list_elem_of_singleton in H. injection H as <- <- <- <-.
    apply list_elem_of_bind. exists s. split; [|done].
    apply list_elem_of_bind. exists d. split; [|done].
    apply list_elem_of_bind. exists p. split; [|done].
    apply list_elem_of_bind. exists c. split; [|done].
    by apply list_elem_of_singleton.
Qed.

Lemma new_var_distinct s d p c g :
  distinct_vars g → distinct_vars (new_var s d p c g).2.
Proof.
  intros [Hlt Hinj]. unfold new_var, modify. simpl. split.
  - intros k x. simpl. rewrite length_app. simpl.
    destruct (decide ((s, d, p, c) = k)) as [<-|Hne].
    + rewrite lookup_insert_eq. intros [= <-]. lia.
    + rewrite lookup_insert_ne by done. intros Hk. apply Hlt in Hk. lia.
  - intros k1 k2 x. simpl.
    destruct (decide ((s, d, p, c) = k1)) as [<-|Hne1];
      destruct (decide ((s, d, p, c) = k2)) as [<-|Hne2]; try done.
    + rewrite lookup_insert_eq, lookup_insert_ne by done.
      intros [= <-] Hk. apply Hlt in Hk. lia.
    + rewrite lookup_insert_eq, lookup_insert_ne by done.
      intros Hk [= <-]. apply Hlt in Hk. lia.
    + rewrite !lookup_insert_ne by done. apply Hinj.
Qed.

Lemma script_news_distinct acts g :
  Forall is_new acts → distinct_vars g → distinct_vars (script acts g).2.
Proof.
  intros Hnew. revert g. induction Hnew as [|a acts Ha _ IH]; intros g Hg.
  - done.
  - destruct a as [|s d p c]; [done|].
    unfold script. simpl. rewrite bind_run.
    pose proof (new_var_distinct s d p c g Hg) as H1.
    destruct (new_var s d p c g) as [[err|[]] g1] eqn:Hrun.
    + unfold new_var, modify in Hrun. done.
    + apply IH. exact H1.
Qed.

(** [generate_variables] always returns; afterwards [self.assign] has
    a variable for every (section, day, period, course). *)
Lemma generate_variables_spec g :
  ∃ g', generate_variables g = (inr tt, g') ∧ same_config g' g ∧
        solution g' = solution g ∧
        constraints (model g') = constraints (model g) ∧
        (∀ k, is_Some (assign g' !! k) ↔
              is_Some (assign g !! k) ∨ k ∈ slot_keys g) ∧
        (distinct_vars g → distinct_vars g').
Proof.
  rewrite (generate_variables_unrolls g g (same_config_refl g)).
  destruct (script_news (variable_stmts g) g (variable_stmts_new g))
    as (g' & Hrun & Hcfg & Hsol & Hcs & Hkeys).
  exists g'. split_and!; try done.
  - intros k. by rewrite Hkeys, new_stmt_variable_stmts.
  - intros Hg.
    pose proof (script_news_distinct _ g (variable_stmts_new g) Hg) as H.
    by rewrite Hrun in H.
Qed.

Lemma distinct_vars_empty g : assign g = ∅ → distinct_vars g.
Proof. intros Hg. split; intros *; rewrite Hg, lookup_empty; done. Qed.

End variables_facts.

(** Membership in a nest of comprehensions, one generator at a time. *)
Ltac in_bind x :=
  apply list_elem_of_bind; exists x; split;
  [| first [ assumption | apply elem_of_range; lia ] ].

Ltac in_here := first [ apply list_elem_of_singleton; reflexivity | by left ].

Section constraint_facts.

Lemma constraint_stmts_adds g : Forall is_add (constraint_stmts g).
Proof.
unfold constraint_stmts, slot_coverage_stmts, course_count_stmts,
  teacher_conflict_stmts, same_day_stmts, lab_block_stmts,
  lab_course_stmts, no_consecutive_stmts, fixed_slot_stmts.
forall_stmts.
Qed.

Lemma add_constraints_script g : add_constraints g = script (constraint_stmts g) g.
Proof. apply add_constraints_unrolls, same_config_refl. Qed.

Lemma sum_ok ks a xs :
  sum_ ks a = inr xs → Forall2 (λ k x, a !! k = Some x) ks xs.
Proof.
revert xs. induction ks as [|k ks IH]; intros xs; simpl.
- intros [= <-]. constructor.
- unfold mbind, Expr_bind, getitem.
  destruct (a !! k) as [x|] eqn:Hk; [|done].
  destruct (sum_ ks a) as [|e]; [done|].
  intros [= <-]. constructor; auto.
Qed.

Lemma sum_value_true_count g v ks xs :
  Forall2 (λ k x, assign g !! k = Some x) ks xs →
  sum_value v xs = true_count g v ks.
Proof.
unfold true_count, sum_value.
induction 1 as [|k x ks xs Hk _ IH]; [done|].
csimpl. unfold is_true at 1, Value at 1. rewrite Hk.
destruct (v x); simpl; lia.
Qed.

Lemma is_true_frame g g' v k :
  assign g' = assign g → is_true g' v k = is_true g v k.
Proof. unfold is_true. by intros ->. Qed.

Lemma true_count_frame g g' v ks :
  assign g' = assign g → true_count g' v ks = true_count g v ks.
Proof.
intros Ha. unfold true_count. f_equal. apply filter_ext.
intros k. by apply is_true_frame.
Qed.

End constraint_facts.

(** ** A block that returns, and a valuation that satisfies its model *)

Section block_facts.

Variables (block : M unit) (stmts : list stmt).
Variables (g g' : TimetableGenerator) (v : valuation).
Hypothesis Hun : unrolls g block stmts.
Hypothesis Hadd : Forall is_add stmts.
Hypothesis Hrun : block g = (inr tt, g').
Hypothesis Hsat : satisfies v (model g').

Lemma block_ok :
  ∃ cs, Forall2 (λ st c, stmt_constraint (assign g) st = Some c) stmts cs ∧
        g' = add_all cs g.
Proof.
rewrite (Hun g (same_config_refl g)) in Hrun. by apply script_adds_ok.
Qed.

(** The block changes nothing but the model's constraints. *)
Lemma block_assign : assign g' = assign g.
Proof. by destruct block_ok as (cs & _ & ->). Qed.

Lemma block_config : same_config g' g.
Proof. destruct block_ok as (cs & _ & ->). by repeat split. Qed.

Lemma block_solution : solution g' = solution g.
Proof. by destruct block_ok as (cs & _ & ->). Qed.

Lemma block_course_ids : course_ids g' = course_ids g.
Proof.
unfold course_ids. by destruct block_config as (_ & _ & _ & -> & _).
Qed.

(** Every statement of the block has put a constraint in the model, and
    the valuation satisfies it. *)
Lemma sat_stmt e :
  SAdd e ∈ stmts → ∃ c, e (assign g) = inr c ∧ holds v c.
Proof.
intros Hin. destruct block_ok as (cs & Hcs & ->).
apply list_elem_of_lookup in Hin as [i Hi].
destruct (Forall2_lookup_l _ _ _ _ _ Hcs Hi) as (c & Hc & Hec).
exists c. split.
- simpl in Hec. by destruct (e (assign g)) as [|c']; simplify_eq.
- unfold satisfies in Hsat. simpl in Hsat.
  apply Forall_app in Hsat as [_ Hsat].
  rewrite Forall_forall in Hsat. apply Hsat.
  apply list_elem_of_lookup. by exists i.
Qed.

(** What the valuation makes of each shape of constraint. *)
Lemma sat_sum_le ks n :
  SAdd (e ← sum_ ks; mret (SumLe e n)) ∈ stmts → true_count g' v ks ≤ n.
Proof.
intros Hin. destruct (sat_stmt _ Hin) as (c & Hc & Hv).
unfold mbind, Expr_bind in Hc.
destruct (sum_ ks (assign g)) as [|xs] eqn:Hxs; [done|].
injection Hc as <-. simpl in Hv. apply sum_ok in Hxs.
by rewrite (true_count_frame g g' v ks block_assign),
  <-(sum_value_true_count g v ks xs).
Qed.

Lemma sat_sum_eq ks n :
  SAdd (e ← sum_ ks; mret (SumEq e n)) ∈ stmts → true_count g' v ks = n.
Proof.
intros Hin. destruct (sat_stmt _ Hin) as (c & Hc & Hv).
unfold mbind, Expr_bind in Hc.
destruct (sum_ ks (assign g)) as [|xs] eqn:Hxs; [done|].
injection Hc as <-. simpl in Hv. apply sum_ok in Hxs.
by rewrite (true_count_frame g g' v ks block_assign),
  <-(sum_value_true_count g v ks xs).
Qed.

Lemma sat_var_eq k1 k2 :
  SAdd (x ← getitem k1; y ← getitem k2; mret (VarEq x y)) ∈ stmts →
  is_true g' v k1 = is_true g' v k2.
Proof.
intros Hin. destruct (sat_stmt _ Hin) as (c & Hc & Hv).
unfold mbind, Expr_bind, getitem in Hc. unfold is_true. rewrite block_assign.
destruct (assign g !! k1) as [x|]; [|done].
destruct (assign g !! k2) as [y|]; [|done].
by injection Hc as <-.
Qed.

Lemma sat_pair_le k1 k2 :
  SAdd (x ← getitem k1; y ← getitem k2; mret (SumLe [x; y] 1)) ∈ stmts →
  ¬ (is_true g' v k1 = true ∧ is_true g' v k2 = true).
Proof.
intros Hin. destruct (sat_stmt _ Hin) as (c & Hc & Hv).
unfold mbind, Expr_bind, getitem in Hc. unfold is_true. rewrite block_assign.
destruct (assign g !! k1) as [x|]; [|done].
destruct (assign g !! k2) as [y|]; [|done].
injection Hc as <-. simpl in Hv. unfold sum_value, Value in Hv. simpl in Hv.
intros [H1 H2]. rewrite H1, H2 in Hv. lia.
Qed.

Lemma sat_var_is k n :
  SAdd (x ← getitem k; mret (SumEq [x] n)) ∈ stmts →
  ∃ x, assign g' !! k = Some x ∧ Value v x = n.
Proof.
intros Hin. destruct (sat_stmt _ Hin) as (c & Hc & Hv).
unfold mbind, Expr_bind, getitem in Hc. rewrite block_assign.
destruct (assign g !! k) as [x|]; [|done].
injection Hc as <-. simpl in Hv. unfold sum_value in Hv. simpl in Hv.
exists x. split; [done | lia].
Qed.

Lemma is_false_of_value k x :
  assign g' !! k = Some x → Value v x = 0 → is_true g' v k = false.
Proof. unfold is_true, Value. intros ->. by destruct (v x). Qed.

Lemma is_true_of_value k x :
  assign g' !! k = Some x → Value v x = 1 → is_true g' v k = true.
Proof. unfold is_true, Value. intros ->. by destruct (v x). Qed.

(** *** Rule 1 *)

Lemma slot_coverage_le s d p :
  slot_coverage_stmts g ⊆ stmts → include_free_periods g = true →
  s ∈ sections g → d ∈ days g → 1 ≤ p ≤ 7 →
  true_count g' v (slot_vars g s d p) ≤ 1.
Proof.
intros Hsub Hfree Hs Hd Hp. apply sat_sum_le, Hsub.
unfold slot_coverage_stmts. in_bind s. in_bind d. in_bind p.
rewrite Hfree. in_here.
Qed.

Lemma slot_coverage_eq s d p :
  slot_coverage_stmts g ⊆ stmts → include_free_periods g = false →
  s ∈ sections g → d ∈ days g → 1 ≤ p ≤ 7 →
  true_count g' v (slot_vars g s d p) = 1.
Proof.
intros Hsub Hfree Hs Hd Hp. apply sat_sum_eq, Hsub.
unfold slot_coverage_stmts. in_bind s. in_bind d. in_bind p.
rewrite Hfree. in_here.
Qed.

(** *** Rule 2 *)

Lemma course_count_eq s c info :
  course_count_stmts g ⊆ stmts →
  s ∈ sections g → (c, info) ∈ courses g →
  true_count g' v (week_vars g s c) = weekly_count info.
Proof.
intros Hsub Hs Hc. apply sat_sum_eq, Hsub.
unfold course_count_stmts. in_bind s. in_bind (c, info). in_here.
Qed.

(** *** Rule 3 *)

Lemma teacher_conflict_le d p t :
  teacher_conflict_stmts g ⊆ stmts →
  d ∈ days g → 1 ≤ p ≤ 7 → t ∈ real_teachers g →
  true_count g' v
    (s ← sections g; (λ item, (s, d, p, item.1)) <$> taught_by g t) ≤ 1.
Proof.
intros Hsub Hd Hp Ht. apply sat_sum_le, Hsub.
unfold teacher_conflict_stmts. in_bind d. in_bind p. in_bind t. in_here.
Qed.

(** *** Rule 4 *)

Lemma same_day_le s d c :
  same_day_stmts g ⊆ stmts →
  s ∈ sections g → d ∈ days g → c ∈ theory_courses g →
  true_count g' v ((λ p, (s, d, p, c)) <$> range 1 8) ≤ 1.
Proof.
intros Hsub Hs Hd Hc. apply sat_sum_le, Hsub.
unfold same_day_stmts. in_bind s. in_bind d. in_bind c. in_here.
Qed.

(** *** Rule 5 *)

Lemma lab_outside s d c p :
  lab_block_stmts g ⊆ stmts →
  s ∈ sections g → d ∈ days g → c ∈ lab_courses g →
  1 ≤ p ≤ 7 → p ∉ [4; 5; 6; 7] →
  is_true g' v (s, d, p, c) = false.
Proof.
intros Hsub Hs Hd Hc Hp Hout.
destruct (sat_var_is (s, d, p, c) 0) as (x & Hx & Hv).
- apply Hsub. unfold lab_block_stmts. in_bind s. in_bind d.
  apply elem_of_app. right. in_bind c.
  unfold lab_course_stmts. apply elem_of_app. right. in_bind p.
  rewrite bool_decide_eq_false_2 by done. in_here.
- by eapply is_false_of_value.
Qed.

Lemma lab_pair s d c p1 p2 :
  lab_block_stmts g ⊆ stmts →
  s ∈ sections g → d ∈ days g → c ∈ lab_courses g →
  (p1, p2) ∈ [(4, 5); (6, 7)] →
  is_true g' v (s, d, p1, c) = is_true g' v (s, d, p2, c).
Proof.
intros Hsub Hs Hd Hc Hp. apply sat_var_eq, Hsub.
unfold lab_block_stmts. in_bind s. in_bind d.
apply elem_of_app. right. in_bind c.
unfold lab_course_stmts. apply elem_of_app. left. in_bind (p1, p2). in_here.
Qed.

Lemma lab_per_day s d :
  lab_block_stmts g ⊆ stmts →
  s ∈ sections g → d ∈ days g →
  true_count g' v (c ← lab_courses g; p ← range 1 8; [(s, d, p, c)]) ≤ 2.
Proof.
intros Hsub Hs Hd. apply sat_sum_le, Hsub.
unfold lab_block_stmts. in_bind s. in_bind d.
apply elem_of_app. left. in_here.
Qed.

(** *** Rule 6 *)

Lemma no_consecutive s d p c :
  no_consecutive_stmts g ⊆ stmts →
  s ∈ sections g → d ∈ days g → 1 ≤ p ≤ 6 → c ∈ course_ids g →
  str_contains "LAB" c = false →
  ¬ (is_true g' v (s, d, p, c) = true ∧ is_true g' v (s, d, p + 1, c) = true).
Proof.
intros Hsub Hs Hd Hp Hc Hlab. apply sat_pair_le, Hsub.
unfold no_consecutive_stmts. in_bind s. in_bind d. in_bind p. in_bind c.
simpl. rewrite Hlab. simpl. in_here.
Qed.

(** *** Rule 7 *)

Lemma fixed_slot_true k :
  fixed_slot_stmts g ⊆ stmts →
  k ∈ fixed_slots g → is_true g' v k = true.
Proof.
intros Hsub Hk.
destruct (sat_var_is k 1) as (x & Hx & Hv).
- apply Hsub. unfold fixed_slot_stmts. in_bind k. in_here.
- by eapply is_true_of_value.
Qed.

End block_facts.

(** The statements of each rule are statements of [add_constraints]. *)
Section rules_of_add_constraints.

Variable g : TimetableGenerator.

Lemma slot_coverage_sub : slot_coverage_stmts g ⊆ constraint_stmts g.
Proof. intros st H. unfold constraint_stmts. rewrite !elem_of_app. tauto. Qed.

Lemma course_count_sub : course_count_stmts g ⊆ constraint_stmts g.
Proof. intros st H. unfold constraint_stmts. rewrite !elem_of_app. tauto. Qed.

Lemma teacher_conflict_sub : teacher_conflict_stmts g ⊆ constraint_stmts g.
Proof. intros st H. unfold constraint_stmts. rewrite !elem_of_app. tauto. Qed.

Lemma same_day_sub : same_day_stmts g ⊆ constraint_stmts g.
Proof. intros st H. unfold constraint_stmts. rewrite !elem_of_app. tauto. Qed.

Lemma lab_block_sub : lab_block_stmts g ⊆ constraint_stmts g.
Proof. intros st H. unfold constraint_stmts. rewrite !elem_of_app. tauto. Qed.

Lemma no_consecutive_sub : no_consecutive_stmts g ⊆ constraint_stmts g.
Proof. intros st H. unfold constraint_stmts. rewrite !elem_of_app. tauto. Qed.

Lemma fixed_slot_sub : fixed_slot_stmts g ⊆ constraint_stmts g.
Proof. intros st H. unfold constraint_stmts. rewrite !elem_of_app. tauto. Qed.

End rules_of_add_constraints.

(** ** The extraction of [solve] *)

Section dict_facts.

Context {V : Type}.

Lemma dict_get_keys (d : list (string * V)) c :
  c ∈ dict_keys d → is_Some (dict_get c d).
Proof.
unfold dict_keys. induction d as [|[k x] d IH]; simpl.
- intros H. by apply elem_of_nil in H.
- intros H. destruct (String.eqb_spec c k) as [->|Hne]; [by eexists|].
  apply elem_of_cons in H as [H|H]; [done | by apply IH].
Qed.

Lemma dict_get_elem (d : list (string * V)) c x :
  dict_get c d = Some x → (c, x) ∈ d.
Proof.
induction d as [|[k y] d IH]; simpl; [done|].
destruct (String.eqb_spec c k) as [->|Hne].
- intros [= ->]. by left.
- intros H. right. by apply IH.
Qed.

Lemma dict_get_nodup (d : list (string * V)) c x :
  NoDup (dict_keys d) → (c, x) ∈ d → dict_get c d = Some x.
Proof.
unfold dict_keys. induction d as [|[k y] d IH]; simpl.
- intros _ H. by apply elem_of_nil in H.
- intros Hnd H. apply NoDup_cons in Hnd as [Hk Hnd].
  apply elem_of_cons in H as [H|H].
  + injection H as -> ->. by rewrite String.eqb_refl.
  + destruct (String.eqb_spec c k) as [->|Hne]; [|by apply IH].
    destruct Hk. apply list_elem_of_fmap. by exists (k, x).
Qed.

End dict_facts.

Section solve_facts.

Variables (g : TimetableGenerator) (v : valuation).

(** The object [g] once [self.solution] is the dictionary [sol]. *)
Let at_sol (sol : Solution) : TimetableGenerator := set_solution (Some sol) g.

Lemma extract_course_run sol ds ps s d p c :
  sol !! s = Some ds → ds !! d = Some ps →
  is_Some (assign g !! (s, d, p, c)) → c ∈ course_ids g →
  extract_course v s d p c (at_sol sol) =
  (inr tt, at_sol (<[s := <[d := fill_slot g v s d p [c] ps]> ds]> sol)).
Proof.
intros Hs Hd [x Hx] Hc. apply dict_get_keys in Hc as [info Hinfo].
unfold extract_course, eval, getitem, at_sol. rewrite bind_run. simpl.
unfold fill_slot, is_true, entry_of. simpl. rewrite Hx, Hinfo. simpl.
unfold Value. destruct (v x); simpl.
- rewrite bind_run. unfold courses_getitem. simpl. rewrite Hinfo.
  unfold solution_store. simpl. by rewrite Hs, Hd.
- unfold mret, M_ret. by rewrite (insert_id ds d ps Hd), (insert_id sol s ds Hs).
Qed.

Lemma extract_courses_run sol ds ps s d p cs :
  sol !! s = Some ds → ds !! d = Some ps →
  (∀ c, c ∈ cs → is_Some (assign g !! (s, d, p, c)) ∧ c ∈ course_ids g) →
  for_ cs (extract_course v s d p) (at_sol sol) =
  (inr tt, at_sol (<[s := <[d := fill_slot g v s d p cs ps]> ds]> sol)).
Proof.
revert sol ds ps. induction cs as [|c cs IH]; intros sol ds ps Hs Hd Hcs.
- simpl. unfold mret, M_ret.
  by rewrite (insert_id ds d ps Hd), (insert_id sol s ds Hs).
- simpl. rewrite bind_run.
  destruct (Hcs c) as [Hx Hc]; [by left|].
  rewrite (extract_course_run _ _ _ _ _ _ _ Hs Hd Hx Hc).
  set (ps1 := fill_slot g v s d p [c] ps).
  rewrite (IH (<[s := <[d := ps1]> ds]> sol) (<[d := ps1]> ds) ps1).
  + rewrite (insert_insert_eq sol), (insert_insert_eq ds). done.
  + by rewrite lookup_insert_eq.
  + by rewrite lookup_insert_eq.
  + intros c' Hc'. apply Hcs. by right.
Qed.

Lemma extract_slots_run sol ds ps s d pl :
  sol !! s = Some ds → ds !! d = Some ps →
  (∀ p c, p ∈ pl → c ∈ course_ids g → is_Some (assign g !! (s, d, p, c))) →
  for_ pl (extract_slot v s d) (at_sol sol) =
  (inr tt, at_sol (<[s := <[d := fill_day g v s d pl ps]> ds]> sol)).
Proof.
revert sol ds ps. induction pl as [|p pl IH]; intros sol ds ps Hs Hd Hpl.
- simpl. unfold mret, M_ret.
  by rewrite (insert_id ds d ps Hd), (insert_id sol s ds Hs).
- simpl. rewrite bind_run. unfold extract_slot at 1. rewrite bind_run.
  unfold gets at 1. unfold compose. simpl.
  change (dict_keys (courses g)) with (course_ids g).
  rewrite (extract_courses_run _ _ _ _ _ _ _ Hs Hd).
  + set (ps1 := fill_slot g v s d p (course_ids g) ps).
    rewrite (IH (<[s := <[d := ps1]> ds]> sol) (<[d := ps1]> ds) ps1).
    * rewrite (insert_insert_eq sol), (insert_insert_eq ds). done.
    * by rewrite lookup_insert_eq.
    * by rewrite lookup_insert_eq.
    * intros p' c Hp' Hc. apply Hpl; [by right | done].
  + intros c Hc. split; [|done]. apply Hpl; [by left | done].
Qed.

Lemma solution_new_day_run sol ds s d :
  sol !! s = Some ds →
  solution_new_day s d (at_sol sol) =
  (inr tt, at_sol (<[s := <[d := ∅]> ds]> sol)).
Proof. intros Hs. unfold solution_new_day, at_sol. simpl. by rewrite Hs. Qed.

Lemma solution_new_section_run sol s :
  solution_new_section s (at_sol sol) = (inr tt, at_sol (<[s := ∅]> sol)).
Proof. done. Qed.

Lemma for_cons {A} (x : A) xs (body : A → M unit) :
  for_ (x :: xs) body = (body x ;; for_ xs body).
Proof. done. Qed.

Lemma extract_days_run sol ds s dl :
  sol !! s = Some ds →
  (∀ d p c, d ∈ dl → p ∈ range 1 8 → c ∈ course_ids g →
            is_Some (assign g !! (s, d, p, c))) →
  for_ dl (extract_day v s) (at_sol sol) =
  (inr tt, at_sol (<[s := fill_section g v s dl ds]> sol)).
Proof.
revert sol ds. induction dl as [|d dl IH]; intros sol ds Hs Hdl.
- unfold fill_section. simpl. unfold mret, M_ret.
  by rewrite (insert_id sol s ds Hs).
- rewrite for_cons, bind_run. unfold extract_day at 1.
  rewrite bind_run, (solution_new_day_run sol ds s d Hs).
  rewrite (extract_slots_run (<[s := <[d := ∅]> ds]> sol) (<[d := ∅]> ds) ∅).
  + set (ps1 := fill_day g v s d (range 1 8) ∅).
    rewrite (insert_insert_eq sol), (insert_insert_eq ds).
    rewrite (IH (<[s := <[d := ps1]> ds]> sol) (<[d := ps1]> ds)).
    * rewrite (insert_insert_eq sol). done.
    * by rewrite lookup_insert_eq.
    * intros d' p c Hd' Hp Hc. apply Hdl; [by right | done | done].
  + by rewrite lookup_insert_eq.
  + by rewrite lookup_insert_eq.
  + intros p c Hp Hc. apply Hdl; [by left | done | done].
Qed.

Lemma extract_sections_run sol sl :
  (∀ s d p c, s ∈ sl → d ∈ days g → p ∈ range 1 8 → c ∈ course_ids g →
              is_Some (assign g !! (s, d, p, c))) →
  for_ sl (extract_section v) (at_sol sol) =
  (inr tt, at_sol (fill_all g v sl sol)).
Proof.
revert sol. induction sl as [|s sl IH]; intros sol Hsl.
- done.
- rewrite for_cons, bind_run. unfold extract_section at 1.
  rewrite bind_run, solution_new_section_run, bind_run.
  unfold gets at 1.
  change (days (at_sol (<[s := ∅]> sol))) with (days g).
  rewrite (extract_days_run (<[s := ∅]> sol) ∅).
  + rewrite (insert_insert_eq sol).
    rewrite (IH (<[s := fill_section g v s (days g) ∅]> sol)).
    * done.
    * intros s' d p c Hs' Hd Hp Hc. apply Hsl; [by right | done | done | done].
  + by rewrite lookup_insert_eq.
  + intros d p c Hd Hp Hc. apply Hsl; [by left | done | done | done].
Qed.

End solve_facts.

Section fold_facts.

Context `{Countable K} {V : Type}.

Lemma foldl_insert_other (f : K → V) (l : list K) (m : gmap K V) k :
  k ∉ l → foldl (λ m k, <[k := f k]> m) m l !! k = m !! k.
Proof.
revert m. induction l as [|k' l IH]; intros m Hk; [done|].
apply not_elem_of_cons in Hk as [Hne Hk]. simpl.
rewrite IH by done. by rewrite lookup_insert_ne.
Qed.

Lemma foldl_insert_lookup (f : K → V) (l : list K) (m : gmap K V) k :
  k ∈ l → foldl (λ m k, <[k := f k]> m) m l !! k = Some (f k).
Proof.
revert m. induction l as [|k' l IH]; intros m Hk.
- by apply elem_of_nil in Hk.
- simpl. destruct (decide (k ∈ l)) as [Hin|Hout]; [by apply IH|].
  apply elem_of_cons in Hk as [->|Hk]; [|done].
  rewrite foldl_insert_other by done. by rewrite lookup_insert_eq.
Qed.

End fold_facts.

Section extraction_facts.

Variables (g : TimetableGenerator) (v : valuation).

Lemma fill_slot_other s d p cs ps p' :
  p' ≠ p → fill_slot g v s d p cs ps !! p' = ps !! p'.
Proof.
intros Hne. revert ps. induction cs as [|c cs IH]; intros ps; [done|].
unfold fill_slot in *. simpl. rewrite IH.
destruct (is_true g v (s, d, p, c)); [|done].
destruct (entry_of g c); [|done]. by rewrite lookup_insert_ne.
Qed.

Lemma fill_slot_same s d p cs ps :
  (∀ c, c ∈ cs → is_Some (entry_of g c)) →
  fill_slot g v s d p cs ps !! p =
  match last (List.filter (λ c, is_true g v (s, d, p, c)) cs) with
  | Some c => entry_of g c
  | None => ps !! p
  end.
Proof.
revert ps. induction cs as [|c cs IH]; intros ps Hcs; [done|].
unfold fill_slot in *. simpl. rewrite IH by (intros; apply Hcs; by right).
destruct (Hcs c) as [e He]; [by left|]. rewrite He.
destruct (is_true g v (s, d, p, c)) eqn:Hc.
- destruct (List.filter _ cs) as [|c' l] eqn:Hl; simpl.
  + by rewrite lookup_insert_eq.
  + destruct (last (c' :: l)) eqn:Hlast; [done|]. by apply last_None in Hlast.
- done.
Qed.

Lemma fill_day_other s d pl ps p :
  p ∉ pl → fill_day g v s d pl ps !! p = ps !! p.
Proof.
revert ps. induction pl as [|p' pl IH]; intros ps Hp; [done|].
apply not_elem_of_cons in Hp as [Hne Hp].
unfold fill_day in *. simpl. rewrite IH by done. by apply fill_slot_other.
Qed.

Lemma entry_of_course c : c ∈ course_ids g → is_Some (entry_of g c).
Proof.
intros Hc. apply dict_get_keys in Hc as [info Hinfo].
unfold entry_of. rewrite Hinfo. by eexists.
Qed.

Lemma fill_day_lookup s d pl ps p :
  NoDup pl → p ∈ pl → ps !! p = None →
  fill_day g v s d pl ps !! p = extracted g v s d p.
Proof.
revert ps. induction pl as [|p' pl IH]; intros ps Hnd Hp Hps.
- by apply elem_of_nil in Hp.
- apply NoDup_cons in Hnd as [Hp' Hnd].
  change (fill_day g v s d (p' :: pl) ps)
    with (fill_day g v s d pl (fill_slot g v s d p' (course_ids g) ps)).
  destruct (decide (p = p')) as [->|Hne].
  + rewrite fill_day_other by done.
    rewrite fill_slot_same by apply entry_of_course.
    unfold extracted, true_courses.
    destruct (last _); [done|]. by rewrite Hps.
  + apply elem_of_cons in Hp as [->|Hp]; [done|].
    apply IH; try done. by rewrite fill_slot_other.
Qed.

Lemma range_NoDup a b : NoDup (range a b).
Proof. apply NoDup_seq. Qed.

(** What [self.solution] holds at a slot after the loops of [solve]. *)
Lemma solution_at_fill s d p :
  s ∈ sections g → d ∈ days g → 1 ≤ p ≤ 7 →
  solution_at (set_solution (Some (fill_all g v (sections g) ∅)) g) s d p
  = extracted g v s d p.
Proof.
intros Hs Hd Hp. unfold solution_at.
cbn [solution set_solution mbind option_bind].
unfold fill_all. rewrite (foldl_insert_lookup _ _ _ _ Hs).
cbn [mbind option_bind].
unfold fill_section. rewrite (foldl_insert_lookup _ _ _ _ Hd).
cbn [mbind option_bind].
apply fill_day_lookup.
- apply range_NoDup.
- apply elem_of_range. lia.
- apply lookup_empty.
Qed.

Lemma solve_found solver st :
  solver (model g) = (st, v) → found st = true →
  (∀ k, k ∈ slot_keys g → is_Some (assign g !! k)) →
  solve solver g =
  (inr true, set_solution (Some (fill_all g v (sections g) ∅)) g).
Proof.
intros Hsolver Hst Hkeys. unfold solve. rewrite bind_run. unfold gets at 1.
rewrite Hsolver.
replace (bool_decide (st = OPTIMAL) || bool_decide (st = FEASIBLE)) with true
  by (by destruct st).
rewrite bind_modify, bind_gets.
change (sections (set_solution (Some ∅) g)) with (sections g).
rewrite bind_run, (extract_sections_run g v ∅ (sections g)).
- done.
- intros s d p c Hs Hd Hp Hc. apply Hkeys, elem_of_slot_keys.
  apply elem_of_range in Hp. repeat split; try done; lia.
Qed.

Lemma solve_not_found solver st v' :
  solver (model g) = (st, v') → found st = false →
  solve solver g = (inr false, g).
Proof.
intros Hsolver Hst. unfold solve. rewrite bind_run. unfold gets at 1.
rewrite Hsolver.
replace (bool_decide (st = OPTIMAL) || bool_decide (st = FEASIBLE)) with false
  by (by destruct st).
done.
Qed.

End extraction_facts.

(** ** Counting the true variables of a section in two ways *)

Section counting.

Lemma sum_list_fmap_plus {A} (a b : A → nat) (l : list A) :
  sum_list ((λ x, a x + b x) <$> l) = sum_list (a <$> l) + sum_list (b <$> l).
Proof. induction l as [|x l IH]; csimpl; [done | lia]. Qed.

Lemma length_filter_sum {A} (P : A → bool) (l : list A) :
  length (List.filter P l) = sum_list ((λ x, if P x then 1 else 0) <$> l).
Proof.
induction l as [|x l IH]; csimpl; [done|].
destruct (P x); simpl; lia.
Qed.

Lemma sum_list_fmap_const {A} (f : A → nat) (n : nat) (l : list A) :
  (∀ x, x ∈ l → f x = n) → sum_list (f <$> l) = length l * n.
Proof.
induction l as [|x l IH]; intros Hf; csimpl; [done|].
rewrite (Hf x) by by left. rewrite IH; [lia|].
intros y Hy. apply Hf. by right.
Qed.

Lemma sum_list_fmap_ext {A} (f h : A → nat) (l : list A) :
  (∀ x, x ∈ l → f x = h x) → sum_list (f <$> l) = sum_list (h <$> l).
Proof.
induction l as [|x l IH]; intros Hf; csimpl; [done|].
rewrite (Hf x) by by left. rewrite IH; [done|].
intros y Hy. apply Hf. by right.
Qed.

(** Counting the true cells of a table by rows or by columns. *)
Lemma count_exchange {A B} (T : A → B → bool) (xs : list A) (ys : list B) :
  sum_list ((λ x, length (List.filter (T x) ys)) <$> xs) =
  sum_list ((λ y, length (List.filter (λ x, T x y) xs)) <$> ys).
Proof.
induction xs as [|x xs IH]; csimpl.
- symmetry. rewrite (sum_list_fmap_const _ 0) by done. lia.
- rewrite IH, length_filter_sum, <-sum_list_fmap_plus.
  apply sum_list_fmap_ext. intros y _. by destruct (T x y).
Qed.

Lemma length_filter_fmap {A B} (f : A → B) (P : B → bool) (l : list A) :
  length (List.filter P (f <$> l)) = length (List.filter (P ∘ f) l).
Proof.
induction l as [|x l IH]; csimpl; [done|].
unfold compose at 1. destruct (P (f x)); simpl; by rewrite IH.
Qed.

Lemma fmap_bind_singleton {A B C} (f : B → C) (h : A → B) (l : list A) :
  f <$> (l ≫= λ x, [h x]) = l ≫= λ x, [f (h x)].
Proof.
induction l as [|x l IH]; [done|].
by rewrite !bind_cons, fmap_app, IH.
Qed.

Lemma week_vars_slots g s c :
  week_vars g s c = (λ dp, (s, dp.1, dp.2, c)) <$> week_slots g.
Proof.
unfold week_vars, week_slots.
induction (days g) as [|d ds IH]; [done|].
rewrite !bind_cons, fmap_app, IH, fmap_bind_singleton. done.
Qed.

Lemma bind_singleton_length {A B} (h : A → B) (l : list A) :
  length (l ≫= λ x, [h x]) = length l.
Proof.
induction l as [|x l IH]; [done|].
rewrite bind_cons, length_app, IH. done.
Qed.

Lemma week_slots_length g : length (week_slots g) = length (days g) * 7.
Proof.
unfold week_slots. induction (days g) as [|d ds IH]; [done|].
rewrite bind_cons, length_app, IH, bind_singleton_length.
unfold range. rewrite length_seq. simpl. done.
Qed.

Lemma elem_of_week_slots g d p :
  (d, p) ∈ week_slots g ↔ d ∈ days g ∧ 1 ≤ p ≤ 7.
Proof.
unfold week_slots. split.
- intros H. apply list_elem_of_bind in H as (d' & H & Hd).
  apply list_elem_of_bind in H as (p' & H & Hp).
  apply list_elem_of_singleton in H. injection H as -> ->.
  apply elem_of_range in Hp. split; [done | lia].
- intros [Hd Hp]. in_bind d. in_bind p. in_here.
Qed.

(** When exactly one course is true at every slot and every course is
    true at exactly its weekly count of slots, the slots of the week are
    as many as the weekly counts add up to. *)
Lemma coverage_meets_quota block stmts g g' v s :
  unrolls g block stmts → Forall is_add stmts →
  block g = (inr tt, g') → satisfies v (model g') →
  slot_coverage_stmts g ⊆ stmts → course_count_stmts g ⊆ stmts →
  include_free_periods g = false → s ∈ sections g →
  length (days g) * 7 = total_weekly g.
Proof.
intros Hun Hadd Hrun Hsat Hsub1 Hsub2 Hfree Hs.
pose (T := λ (dp : string * nat) (c : string),
            is_true g' v (s, dp.1, dp.2, c)).
assert (sum_list ((λ dp, length (List.filter (T dp) (course_ids g)))
                    <$> week_slots g) = length (days g) * 7) as Hrows.
{ rewrite <-week_slots_length, <-(Nat.mul_1_r (length (week_slots g))).
  apply sum_list_fmap_const. intros [d p] Hdp.
  apply elem_of_week_slots in Hdp as [Hd Hp].
  pose proof (slot_coverage_eq block stmts g g' v Hun Hadd Hrun Hsat
                s d p Hsub1 Hfree Hs Hd Hp) as H1.
  unfold true_count, slot_vars in H1. by rewrite length_filter_fmap in H1. }
assert (sum_list ((λ c, length (List.filter (λ dp, T dp c) (week_slots g)))
                    <$> course_ids g) = total_weekly g) as Hcols.
{ unfold total_weekly, course_ids, dict_keys.
  rewrite <-list_fmap_compose. apply sum_list_fmap_ext.
  intros [c info] Hc. unfold compose. simpl.
  pose proof (course_count_eq block stmts g g' v Hun Hadd Hrun Hsat
                s c info Hsub2 Hs Hc) as H1.
  unfold true_count in H1.
  by rewrite week_vars_slots, length_filter_fmap in H1. }
by rewrite <-Hrows, <-Hcols, count_exchange.
Qed.

End counting.

(** ** When [add_constraints] returns and when it raises *)

Section returns.

Lemma elem_of_List_filter {A} (P : A → bool) (l : list A) x :
  x ∈ List.filter P l ↔ x ∈ l ∧ P x = true.
Proof. rewrite !list_elem_of_In. apply filter_In. Qed.

Lemma sum_returns ks a :
  (∀ k, k ∈ ks → is_Some (a !! k)) → ∃ xs, sum_ ks a = inr xs.
Proof.
induction ks as [|k ks IH]; intros Hks.
- by exists [].
- destruct (Hks k) as [x Hx]; [by left|].
  destruct IH as [xs Hxs]; [intros; apply Hks; by right|].
  exists (x :: xs). simpl. unfold mbind, Expr_bind, getitem.
  by rewrite Hx, Hxs.
Qed.

Lemma evaluates_sum (mk : LinearExpr → Constraint) ks a :
  (∀ k, k ∈ ks → is_Some (a !! k)) →
  is_Some (stmt_constraint a (SAdd (e ← sum_ ks; mret (mk e)))).
Proof.
intros Hks. destruct (sum_returns ks a Hks) as [xs Hxs].
simpl. unfold mbind, Expr_bind. rewrite Hxs. by eexists.
Qed.

Lemma evaluates_pair (mk : BoolVar → BoolVar → Constraint) k1 k2 a :
  is_Some (a !! k1) → is_Some (a !! k2) →
  is_Some (stmt_constraint a
             (SAdd (x ← getitem k1; y ← getitem k2; mret (mk x y)))).
Proof.
intros [x Hx] [y Hy]. simpl. unfold mbind, Expr_bind, getitem.
rewrite Hx, Hy. by eexists.
Qed.

Lemma evaluates_one (mk : BoolVar → Constraint) k a :
  is_Some (a !! k) →
  is_Some (stmt_constraint a (SAdd (x ← getitem k; mret (mk x)))).
Proof.
intros [x Hx]. simpl. unfold mbind, Expr_bind, getitem.
rewrite Hx. by eexists.
Qed.

Lemma raises_one (mk : BoolVar → Constraint) k a err :
  stmt_raises a (SAdd (x ← getitem k; mret (mk x))) = Some err →
  a !! k = None ∧ err = KeyError (KSlot k).
Proof.
simpl. unfold mbind, Expr_bind, getitem.
destruct (a !! k); [done|]. by intros [= <-].
Qed.

Variable g : TimetableGenerator.
Hypothesis Hkeys : ∀ k, k ∈ slot_keys g → is_Some (assign g !! k).

Lemma key_present s d p c :
  s ∈ sections g → d ∈ days g → 1 ≤ p ≤ 7 → c ∈ course_ids g →
  is_Some (assign g !! (s, d, p, c)).
Proof. intros. by apply Hkeys, elem_of_slot_keys. Qed.

Lemma course_id_of_item c info : (c, info) ∈ courses g → c ∈ course_ids g.
Proof. intros H. apply list_elem_of_fmap. by exists (c, info). Qed.

Lemma lab_courses_ids c : c ∈ lab_courses g → c ∈ course_ids g.
Proof.
intros H. apply list_elem_of_fmap in H as ([c' info] & -> & H).
apply elem_of_List_filter in H as [H _]. by eapply course_id_of_item.
Qed.

Lemma theory_courses_ids c : c ∈ theory_courses g → c ∈ course_ids g.
Proof.
intros H. apply list_elem_of_fmap in H as ([c' info] & -> & H).
apply elem_of_List_filter in H as [H _]. by eapply course_id_of_item.
Qed.

Lemma slot_coverage_evaluates :
  Forall (λ st, is_Some (stmt_constraint (assign g) st)) (slot_coverage_stmts g).
Proof.
unfold slot_coverage_stmts.
apply Forall_bind, Forall_forall. intros s Hs.
apply Forall_bind, Forall_forall. intros d Hd.
apply Forall_bind, Forall_forall. intros p Hp. apply elem_of_range in Hp.
assert (∀ k, k ∈ (λ c, (s, d, p, c)) <$> course_ids g →
             is_Some (assign g !! k)) as Hks.
{ intros k Hk. apply list_elem_of_fmap in Hk as (c & -> & Hc).
  apply key_present; try done; lia. }
destruct (include_free_periods g);
  (apply Forall_cons_2; [|apply Forall_nil_2]); by apply evaluates_sum.
Qed.

Lemma course_count_evaluates :
  Forall (λ st, is_Some (stmt_constraint (assign g) st)) (course_count_stmts g).
Proof.
unfold course_count_stmts.
apply Forall_bind, Forall_forall. intros s Hs.
apply Forall_bind, Forall_forall. intros [c info] Hc.
apply Forall_cons_2; [|apply Forall_nil_2].
apply (evaluates_sum (λ e, SumEq e (weekly_count info))).
intros k Hk.
apply list_elem_of_bind in Hk as (d & Hk & Hd).
apply list_elem_of_bind in Hk as (p & Hk & Hp). apply elem_of_range in Hp.
apply list_elem_of_singleton in Hk as ->.
apply key_present; try done; [lia | by eapply course_id_of_item].
Qed.

Lemma teacher_conflict_evaluates :
  Forall (λ st, is_Some (stmt_constraint (assign g) st))
         (teacher_conflict_stmts g).
Proof.
unfold teacher_conflict_stmts.
apply Forall_bind, Forall_forall. intros d Hd.
apply Forall_bind, Forall_forall. intros p Hp. apply elem_of_range in Hp.
apply Forall_bind, Forall_forall. intros t Ht.
apply Forall_cons_2; [|apply Forall_nil_2].
apply (evaluates_sum (λ e, SumLe e 1)).
intros k Hk.
apply list_elem_of_bind in Hk as (s & Hk & Hs).
apply list_elem_of_fmap in Hk as ([c info] & -> & Hc).
apply elem_of_List_filter in Hc as [Hc _].
apply key_present; try done; [lia | by eapply course_id_of_item].
Qed.

Lemma same_day_evaluates :
  Forall (λ st, is_Some (stmt_constraint (assign g) st)) (same_day_stmts g).
Proof.
unfold same_day_stmts.
apply Forall_bind, Forall_forall. intros s Hs.
apply Forall_bind, Forall_forall. intros d Hd.
apply Forall_bind, Forall_forall. intros c Hc.
apply Forall_cons_2; [|apply Forall_nil_2].
apply (evaluates_sum (λ e, SumLe e 1)).
intros k Hk. apply list_elem_of_fmap in Hk as (p & -> & Hp).
apply elem_of_range in Hp.
apply key_present; try done; [lia | by apply theory_courses_ids].
Qed.

Lemma lab_block_evaluates :
  Forall (λ st, is_Some (stmt_constraint (assign g) st)) (lab_block_stmts g).
Proof.
unfold lab_block_stmts.
apply Forall_bind, Forall_forall. intros s Hs.
apply Forall_bind, Forall_forall. intros d Hd.
apply Forall_app. split.
- apply Forall_cons_2; [|apply Forall_nil_2].
  apply (evaluates_sum (λ e, SumLe e 2)).
  intros k Hk.
  apply list_elem_of_bind in Hk as (c & Hk & Hc).
  apply list_elem_of_bind in Hk as (p & Hk & Hp). apply elem_of_range in Hp.
  apply list_elem_of_singleton in Hk as ->.
  apply key_present; try done; [lia | by apply lab_courses_ids].
- apply Forall_bind, Forall_forall. intros c Hc. apply lab_courses_ids in Hc.
  unfold lab_course_stmts. apply Forall_app. split.
  + apply Forall_bind, Forall_forall. intros [p1 p2] Hp.
    apply Forall_cons_2; [|apply Forall_nil_2].
    apply (evaluates_pair VarEq);
      apply key_present; try done;
      repeat (apply elem_of_cons in Hp as [[= -> ->]|Hp]; [simpl; lia|]);
      by apply elem_of_nil in Hp.
  + apply Forall_bind, Forall_forall. intros p Hp. apply elem_of_range in Hp.
    unfold compose.
    match goal with |- Forall _ (if ?b then _ else _) => destruct b end;
      [|apply Forall_nil_2].
    apply Forall_cons_2; [|apply Forall_nil_2].
    apply (evaluates_one (λ x, SumEq [x] 0)).
    apply key_present; try done; lia.
Qed.

Lemma no_consecutive_evaluates :
  Forall (λ st, is_Some (stmt_constraint (assign g) st))
         (no_consecutive_stmts g).
Proof.
unfold no_consecutive_stmts.
apply Forall_bind, Forall_forall. intros s Hs.
apply Forall_bind, Forall_forall. intros d Hd.
apply Forall_bind, Forall_forall. intros p Hp. apply elem_of_range in Hp.
apply Forall_bind, Forall_forall. intros c Hc.
unfold compose.
    match goal with |- Forall _ (if ?b then _ else _) => destruct b end;
      [|apply Forall_nil_2].
apply Forall_cons_2; [|apply Forall_nil_2].
apply (evaluates_pair (λ x y, SumLe [x; y] 1));
  apply key_present; try done; lia.
Qed.

Lemma search_rules_evaluate :
  Forall (λ st, is_Some (stmt_constraint (assign g) st)) (search_rule_stmts g).
Proof.
unfold search_rule_stmts. repeat (apply Forall_app; split);
  auto using slot_coverage_evaluates, course_count_evaluates,
    teacher_conflict_evaluates, same_day_evaluates, lab_block_evaluates,
    no_consecutive_evaluates.
Qed.

Lemma constraint_stmts_split :
  constraint_stmts g = search_rule_stmts g ++ fixed_slot_stmts g.
Proof.
unfold constraint_stmts, search_rule_stmts. by rewrite <-!app_assoc.
Qed.

(** With every fixed slot among the variables, [add_constraints] returns. *)
Lemma add_constraints_returns :
  (∀ k, k ∈ fixed_slots g → is_Some (assign g !! k)) →
  ∃ g', add_constraints g = (inr tt, g').
Proof.
intros Hfixed. rewrite add_constraints_script.
apply script_adds_return; [apply constraint_stmts_adds|].
rewrite constraint_stmts_split. apply Forall_app. split.
- apply search_rules_evaluate.
- unfold fixed_slot_stmts. apply Forall_bind, Forall_forall. intros k Hk.
  apply Forall_cons_2; [|apply Forall_nil_2].
  apply (evaluates_one (λ x, SumEq [x] 1)). by apply Hfixed.
Qed.

(** With a fixed slot that has no variable, [add_constraints] raises
    [KeyError] with such a key, and only while it adds rule 7: the
    constraints of rules 1 to 6 are in the model by then. *)
Lemma add_constraints_raises k0 :
  k0 ∈ fixed_slots g → assign g !! k0 = None →
  ∃ k g' cs cs',
    add_constraints g = (inl (KeyError (KSlot k)), g') ∧
    k ∈ fixed_slots g ∧ assign g !! k = None ∧
    Forall2 (λ st c, stmt_constraint (assign g) st = Some c)
            (search_rule_stmts g) cs ∧
    g' = add_all (cs ++ cs') g.
Proof.
intros Hk0 Hnone.
destruct (script_adds_raise (constraint_stmts g) g (constraint_stmts_adds g))
  as (err & g' & Hrun).
{ exists (SAdd (x ← getitem k0; mret (SumEq [x] 1))), (KeyError (KSlot k0)).
  split.
  - rewrite constraint_stmts_split. apply elem_of_app. right.
    unfold fixed_slot_stmts. in_bind k0. in_here.
  - simpl. unfold mbind, Expr_bind, getitem. by rewrite Hnone. }
pose proof Hrun as Hrun'.
apply script_adds_err in Hrun'
  as (pre & st & rest & cs & Hsplit & Hcs & Hst & ->);
  [|apply constraint_stmts_adds].
rewrite constraint_stmts_split in Hsplit.
assert (length (search_rule_stmts g) ≤ length pre) as Hlen.
{ destruct (decide (length (search_rule_stmts g) ≤ length pre)); [done|].
  exfalso.
  assert ((search_rule_stmts g ++ fixed_slot_stmts g) !! length pre = Some st)
    as Hi by (rewrite Hsplit; apply list_lookup_middle; done).
  rewrite lookup_app_l in Hi by lia.
  pose proof search_rules_evaluate as Hall.
  rewrite Forall_lookup in Hall. destruct (Hall _ _ Hi) as [c Hc].
  destruct st as [e|]; simpl in *; [|done].
  by destruct (e (assign g)). }
assert (pre = search_rule_stmts g ++
              take (length pre - length (search_rule_stmts g))
                   (fixed_slot_stmts g)) as Hpre.
{ transitivity (take (length pre)
                  (search_rule_stmts g ++ fixed_slot_stmts g)).
  - rewrite Hsplit. by rewrite take_app_length.
  - rewrite take_app_ge by done. done. }
assert (st ∈ fixed_slot_stmts g) as Hin.
{ assert ((search_rule_stmts g ++ fixed_slot_stmts g) !! length pre = Some st)
    as Hi by (rewrite Hsplit; apply list_lookup_middle; done).
  rewrite lookup_app_r in Hi by done.
  by eapply list_elem_of_lookup_2. }
unfold fixed_slot_stmts in Hin.
apply list_elem_of_bind in Hin as (k & Hin & Hk).
apply list_elem_of_singleton in Hin as ->.
apply raises_one in Hst as [Hknone ->].
rewrite Hpre in Hcs. apply Forall2_app_inv_l in Hcs as (cs1 & cs2 & H1 & H2 & ->).
exists k, (add_all (cs1 ++ cs2) g), cs1, cs2.
rewrite add_constraints_script. by repeat split.
Qed.

End returns.

(** ** The courses a block exempts *)

Section exemptions.

Variable g : TimetableGenerator.

(** The constraints a block adds come from its statements. *)
Lemma added_by_stmts block stmts k :
  unrolls g block stmts → Forall is_add stmts →
  k ∈ added_by block g →
  ∃ st, st ∈ stmts ∧ stmt_constraint (assign g) st = Some k.
Proof.
intros Hun Hadd Hk. unfold added_by in Hk.
rewrite (Hun g (same_config_refl g)) in Hk.
destruct (script stmts g) as [[err|[]] g'] eqn:Hrun.
- apply script_adds_err in Hrun as (pre & st & rest & cs & -> & Hcs & _ & ->);
    [|done].
  simpl in Hk. rewrite drop_app_length in Hk.
  apply list_elem_of_lookup in Hk as [i Hi].
  destruct (Forall2_lookup_r _ _ _ _ _ Hcs Hi) as (st' & Hst' & Hev).
  exists st'. split; [|done].
  apply elem_of_app. left. by eapply list_elem_of_lookup_2.
- apply script_adds_ok in Hrun as (cs & Hcs & ->); [|done].
  simpl in Hk. rewrite drop_app_length in Hk.
  apply list_elem_of_lookup in Hk as [i Hi].
  destruct (Forall2_lookup_r _ _ _ _ _ Hcs Hi) as (st' & Hst' & Hev).
  exists st'. split; [by eapply list_elem_of_lookup_2 | done].
Qed.

(** When the block returns, every statement has added its constraint. *)
Lemma added_by_ok block stmts st :
  unrolls g block stmts → Forall is_add stmts →
  (block g).1 = inr tt → st ∈ stmts →
  ∃ k, k ∈ added_by block g ∧ stmt_constraint (assign g) st = Some k.
Proof.
intros Hun Hadd Hret Hst. unfold added_by.
rewrite (Hun g (same_config_refl g)) in *.
destruct (script stmts g) as [[err|[]] g'] eqn:Hrun; [done|].
apply script_adds_ok in Hrun as (cs & Hcs & ->); [|done].
simpl. rewrite drop_app_length.
apply list_elem_of_lookup in Hst as [i Hi].
destruct (Forall2_lookup_l _ _ _ _ _ Hcs Hi) as (k & Hk & Hev).
exists k. split; [by eapply list_elem_of_lookup_2 | done].
Qed.

Lemma sum_constraint_vars (mk : LinearExpr → Constraint) ks k x :
  (∀ e, constraint_vars (mk e) = e) →
  stmt_constraint (assign g) (SAdd (e ← sum_ ks; mret (mk e))) = Some k →
  x ∈ constraint_vars k →
  ∃ key, key ∈ ks ∧ assign g !! key = Some x.
Proof.
intros Hmk Hev Hx. simpl in Hev. unfold mbind, Expr_bind in Hev.
destruct (sum_ ks (assign g)) as [|xs] eqn:Hxs; [done|].
injection Hev as <-. rewrite Hmk in Hx. apply sum_ok in Hxs.
apply list_elem_of_lookup in Hx as [i Hi].
destruct (Forall2_lookup_r _ _ _ _ _ Hxs Hi) as (key & Hkey & Hlook).
exists key. split; [by eapply list_elem_of_lookup_2 | done].
Qed.

Lemma elem_of_real_teachers t :
  t ∈ real_teachers g ↔
  t ≠ "None" ∧ ∃ c info, (c, info) ∈ courses g ∧ teacher info = t.
Proof.
unfold real_teachers, py_set.
rewrite elem_of_remove_dups, elem_of_List_filter, list_elem_of_fmap.
split.
- intros [([c info] & -> & Hc) Hne]. split.
  + intros Heq. unfold compose in Heq, Hne. simpl in *. by rewrite Heq in Hne.
  + by exists c, info.
- intros [Hne (c & info & Hc & <-)]. split.
  + by exists (c, info).
  + destruct (String.eqb_spec (teacher info) "None"); [done|done].
Qed.

Hypothesis Hdistinct : distinct_vars g.

(** Rule 3 mentions no variable of a course whose teacher is ['None']. *)
Lemma teacher_conflict_exempts_none c info :
  NoDup (course_ids g) →
  dict_get c (courses g) = Some info → teacher info = "None" →
  exempts add_teacher_conflict g c.
Proof.
intros Hnd Hc Hnone s d p x Hx k Hk Hin.
destruct (added_by_stmts _ _ k (add_teacher_conflict_unrolls g)) as (st & Hst & Hev);
  [unfold teacher_conflict_stmts; forall_stmts | done |].
unfold teacher_conflict_stmts in Hst.
apply list_elem_of_bind in Hst as (d' & Hst & Hd').
apply list_elem_of_bind in Hst as (p' & Hst & Hp').
apply list_elem_of_bind in Hst as (t & Hst & Ht).
apply list_elem_of_singleton in Hst as ->.
destruct (sum_constraint_vars (λ e, SumLe e 1) _ k x (λ _, eq_refl) Hev Hin)
  as (key & Hkey & Hlook).
apply list_elem_of_bind in Hkey as (s' & Hkey & Hs').
apply list_elem_of_fmap in Hkey as ([c' info'] & -> & Hitem).
apply elem_of_List_filter in Hitem as [Hitem Ht'].
apply String.eqb_eq in Ht'. simpl in *.
destruct Hdistinct as [_ Hinj].
pose proof (Hinj _ _ _ Hx Hlook) as Heq. injection Heq as -> -> -> ->.
apply (dict_get_nodup _ _ _ Hnd) in Hitem.
rewrite Hc in Hitem. injection Hitem as ->.
apply elem_of_real_teachers in Ht as [Hne _]. congruence.
Qed.

(** Rule 4 mentions no variable of PD, LIB, ACT or FREE. *)
Lemma same_day_exempts c :
  c ∈ administrative → exempts add_no_same_day_repeat g c.
Proof.
intros Hc s d p x Hx k Hk Hin.
destruct (added_by_stmts _ _ k (add_no_same_day_repeat_unrolls g))
  as (st & Hst & Hev); [unfold same_day_stmts; forall_stmts | done |].
unfold same_day_stmts in Hst.
apply list_elem_of_bind in Hst as (s' & Hst & Hs').
apply list_elem_of_bind in Hst as (d' & Hst & Hd').
apply list_elem_of_bind in Hst as (c' & Hst & Hc').
apply list_elem_of_singleton in Hst as ->.
destruct (sum_constraint_vars (λ e, SumLe e 1) _ k x (λ _, eq_refl) Hev Hin)
  as (key & Hkey & Hlook).
apply list_elem_of_fmap in Hkey as (p' & -> & Hp').
destruct Hdistinct as [_ Hinj].
pose proof (Hinj _ _ _ Hx Hlook) as Heq. injection Heq as -> -> -> ->.
unfold theory_courses in Hc'.
apply list_elem_of_fmap in Hc' as ([c1 info1] & -> & Hitem).
apply elem_of_List_filter in Hitem as [_ Hitem]. simpl in *.
apply andb_true_iff in Hitem as [_ Hitem].
unfold administrative in Hc.
repeat (apply elem_of_cons in Hc as [->|Hc]; [done|]).
by apply elem_of_nil in Hc.
Qed.

(** Rule 6 mentions no variable of a course with LAB in its identifier. *)
Lemma no_consecutive_exempts_lab c :
  str_contains "LAB" c = true → exempts add_no_consecutive g c.
Proof.
intros Hc s d p x Hx k Hk Hin.
destruct (added_by_stmts _ _ k (add_no_consecutive_unrolls g))
  as (st & Hst & Hev); [unfold no_consecutive_stmts; forall_stmts | done |].
unfold no_consecutive_stmts in Hst.
apply list_elem_of_bind in Hst as (s' & Hst & Hs').
apply list_elem_of_bind in Hst as (d' & Hst & Hd').
apply list_elem_of_bind in Hst as (p' & Hst & Hp').
apply list_elem_of_bind in Hst as (c' & Hst & Hc').
destruct (negb (existsb (λ lab, str_contains lab c') ["LAB"])) eqn:Hlab;
  [|by apply elem_of_nil in Hst].
apply list_elem_of_singleton in Hst as ->.
simpl in Hev. unfold mbind, Expr_bind, getitem in Hev.
destruct (assign g !! (s', d', p', c')) as [x1|] eqn:H1; [|done].
destruct (assign g !! (s', d', p' + 1, c')) as [x2|] eqn:H2; [|done].
injection Hev as <-. simpl in Hin.
destruct Hdistinct as [_ Hinj].
simpl in Hlab. rewrite orb_false_r in Hlab. apply negb_true_iff in Hlab.
apply elem_of_cons in Hin as [->|Hin].
- pose proof (Hinj _ _ _ Hx H1) as Heq. injection Heq as -> -> -> ->.
  congruence.
- apply list_elem_of_singleton in Hin as ->.
  pose proof (Hinj _ _ _ Hx H2) as Heq. injection Heq as -> -> -> ->.
  congruence.
Qed.

Lemma sum_value_zero v xs :
  (∀ x, x ∈ xs → v x = false) → sum_value v xs = 0.
Proof.
unfold sum_value. induction xs as [|x xs IH]; intros Hxs; csimpl; [done|].
unfold Value at 1. rewrite (Hxs x) by by left.
rewrite IH; [done|]. intros y Hy. apply Hxs. by right.
Qed.

(** Rule 4 lets an administrative course be true at two periods of a day. *)
Lemma same_day_permits s d p1 p2 c :
  c ∈ administrative →
  is_Some (assign g !! (s, d, p1, c)) → is_Some (assign g !! (s, d, p2, c)) →
  permits add_no_same_day_repeat g (s, d, p1, c) (s, d, p2, c).
Proof.
intros Hc [x1 H1] [x2 H2].
set (v0 := λ x : BoolVar, bool_decide (x = x1 ∨ x = x2)).
exists v0. split; [|split].
- apply Forall_forall. intros k Hk.
  pose proof (same_day_exempts c Hc) as Hex.
  destruct (added_by_stmts _ _ k (add_no_same_day_repeat_unrolls g))
    as (st & Hst & Hev); [unfold same_day_stmts; forall_stmts | done |].
  unfold same_day_stmts in Hst.
  apply list_elem_of_bind in Hst as (s' & Hst & Hs').
  apply list_elem_of_bind in Hst as (d' & Hst & Hd').
  apply list_elem_of_bind in Hst as (c' & Hst & Hc').
  apply list_elem_of_singleton in Hst as ->.
  pose proof Hev as Hev'.
  unfold stmt_constraint, mbind, Expr_bind in Hev'.
  destruct (sum_ ((λ p, (s', d', p, c')) <$> range 1 8) (assign g))
    as [|xs] eqn:Hxs; [done|].
  injection Hev' as <-. change (sum_value v0 xs ≤ 1).
  rewrite sum_value_zero; [lia|].
  intros x Hx. apply bool_decide_eq_false_2. intros [->| ->].
  + by apply (Hex _ _ _ _ H1 _ Hk).
  + by apply (Hex _ _ _ _ H2 _ Hk).
- unfold is_true. rewrite H1. apply bool_decide_eq_true_2. by left.
- unfold is_true. rewrite H2. apply bool_decide_eq_true_2. by right.
Qed.

End exemptions.

Section forbids.

Variable g : TimetableGenerator.

(** Rule 6 forbids a course without LAB in its identifier at two
    consecutive periods. *)
Lemma no_consecutive_forbids s d p c :
  (add_no_consecutive g).1 = inr tt →
  s ∈ sections g → d ∈ days g → 1 ≤ p ≤ 6 → c ∈ course_ids g →
  str_contains "LAB" c = false →
  ¬ permits add_no_consecutive g (s, d, p, c) (s, d, p + 1, c).
Proof.
intros Hret Hs Hd Hp Hc Hlab (v & Hsat & Ht1 & Ht2).
destruct (added_by_ok g add_no_consecutive (no_consecutive_stmts g)
            (SAdd (x ← getitem (s, d, p, c); y ← getitem (s, d, p + 1, c);
                   mret (SumLe [x; y] 1))))
  as (k & Hk & Hev).
- apply add_no_consecutive_unrolls.
- unfold no_consecutive_stmts; forall_stmts.
- done.
- unfold no_consecutive_stmts. in_bind s. in_bind d. in_bind p. in_bind c.
  simpl. rewrite Hlab. simpl. in_here.
- rewrite Forall_forall in Hsat. specialize (Hsat k Hk).
  simpl in Hev. unfold mbind, Expr_bind, getitem in Hev.
  unfold is_true in Ht1, Ht2.
  destruct (assign g !! (s, d, p, c)) as [x1|]; [|done].
  destruct (assign g !! (s, d, p + 1, c)) as [x2|]; [|done].
  injection Hev as <-. simpl in Hsat. unfold sum_value, Value in Hsat.
  simpl in Hsat. rewrite Ht1, Ht2 in Hsat. lia.
Qed.

Lemma administrative_not_lab c :
  c ∈ administrative → str_contains "LAB" c = false.
Proof.
unfold administrative. intros Hc.
repeat (apply elem_of_cons in Hc as [->|Hc]; [done|]).
by apply elem_of_nil in Hc.
Qed.

End forbids.

(** ** From a fresh object to the constrained model *)

Section pipeline.

Variable g0 : TimetableGenerator.

Lemma built_run : generate_variables g0 = (inr tt, built g0).
Proof.
unfold built. destruct (generate_variables_spec g0) as (g1 & -> & _). done.
Qed.

Lemma built_config : same_config (built g0) g0.
Proof.
unfold built. by destruct (generate_variables_spec g0) as (g1 & -> & ? & _).
Qed.

Lemma built_solution : solution (built g0) = solution g0.
Proof.
unfold built.
by destruct (generate_variables_spec g0) as (g1 & -> & _ & ? & _).
Qed.

Lemma built_constraints : constraints (model (built g0)) = constraints (model g0).
Proof.
unfold built.
by destruct (generate_variables_spec g0) as (g1 & -> & _ & _ & ? & _).
Qed.

Lemma built_keys k :
  is_Some (assign (built g0) !! k) ↔
  is_Some (assign g0 !! k) ∨ k ∈ slot_keys g0.
Proof.
unfold built.
by destruct (generate_variables_spec g0) as (g1 & -> & _ & _ & _ & ? & _).
Qed.

Lemma built_distinct : assign g0 = ∅ → distinct_vars (built g0).
Proof.
intros H0. unfold built.
destruct (generate_variables_spec g0) as (g1 & -> & _ & _ & _ & _ & Hd).
by apply Hd, distinct_vars_empty.
Qed.

Lemma slot_keys_config g : same_config g g0 → slot_keys g = slot_keys g0.
Proof.
intros (Hd & _ & Hs & Hc & _). unfold slot_keys, course_ids.
by rewrite Hd, Hs, Hc.
Qed.

Lemma built_present k :
  k ∈ slot_keys (built g0) → is_Some (assign (built g0) !! k).
Proof.
rewrite (slot_keys_config _ built_config). intros Hk.
apply built_keys. by right.
Qed.

(** From a fresh object, the variables are those of the slot keys. *)
Lemma built_only k :
  assign g0 = ∅ → is_Some (assign (built g0) !! k) → k ∈ slot_keys g0.
Proof.
intros H0 Hk. apply built_keys in Hk as [Hk|Hk]; [|done].
rewrite H0, lookup_empty in Hk. by destruct Hk.
Qed.

Lemma constrained_run :
  (∀ k, k ∈ fixed_slots g0 → k ∈ slot_keys g0) →
  add_constraints (built g0) = (inr tt, constrained g0).
Proof.
intros Hfixed. unfold constrained.
destruct (add_constraints_returns (built g0) built_present) as [g2 ->]; [|done].
intros k Hk. apply built_keys. right. apply Hfixed.
by destruct built_config as (_ & _ & _ & _ & <- & _).
Qed.

End pipeline.

Section satisfiable.

Lemma satisfiesb_sound v m : satisfiesb v m = true → satisfies v m.
Proof.
unfold satisfiesb, satisfies. rewrite forallb_forall, Forall_forall.
intros Hall c Hc. apply list_elem_of_In in Hc. specialize (Hall c Hc).
destruct c as [e k|e k|x y]; simpl in *.
- by apply Nat.leb_le.
- by apply Nat.eqb_eq.
- by apply Bool.eqb_prop.
Qed.

(** The week satisfies the model of the catalog with free periods. *)
Lemma week_satisfiesb :
  satisfiesb week_valuation (model (constrained (init true))) = true.
Proof. vm_compute. reflexivity. Qed.

Lemma week_satisfies :
  satisfies week_valuation (model (constrained (init true))).
Proof. apply satisfiesb_sound, week_satisfiesb. Qed.

(** It fills every slot, so it also satisfies the model that asks for
    exactly one course per slot. *)
Lemma week_satisfies_strict :
  satisfies week_valuation
    (model (constrained (set_include_free_periods false (init true)))).
Proof. apply satisfiesb_sound. vm_compute. reflexivity. Qed.

Lemma init_fixed_known b k :
  k ∈ fixed_slots (init b) → k ∈ slot_keys (init b).
Proof.
assert (Forall (λ k : SlotKey,
                  k.1.1.1 ∈ sections (init b) ∧ k.1.1.2 ∈ days (init b) ∧
                  1 ≤ k.1.2 ≤ 7 ∧ k.2 ∈ course_ids (init b))
               (fixed_slots (init b))) as Hall
  by (apply (bool_decide_unpack _); destruct b; vm_compute; exact I).
rewrite Forall_forall in Hall. intros Hk. specialize (Hall k Hk).
destruct k as [[[s d] p] c]. by apply elem_of_slot_keys.
Qed.

End satisfiable.

Section built_fields.

Variable g0 : TimetableGenerator.

Lemma built_sections : sections (built g0) = sections g0.
Proof. by destruct (built_config g0) as (_ & _ & ? & _). Qed.

Lemma built_days : days (built g0) = days g0.
Proof. by destruct (built_config g0) as (? & _). Qed.

Lemma built_courses : courses (built g0) = courses g0.
Proof. by destruct (built_config g0) as (_ & _ & _ & ? & _). Qed.

Lemma built_fixed_slots : fixed_slots (built g0) = fixed_slots g0.
Proof. by destruct (built_config g0) as (_ & _ & _ & _ & ? & _). Qed.

Lemma built_free : include_free_periods (built g0) = include_free_periods g0.
Proof. by destruct (built_config g0) as (_ & _ & _ & _ & _ & ?). Qed.

Lemma built_course_ids : course_ids (built g0) = course_ids g0.
Proof. unfold course_ids. by rewrite built_courses. Qed.

End built_fields.

(** The facts about a block, for the whole of [add_constraints]. *)
Abbreviation whole_model lem :=
  (lem add_constraints (constraint_stmts _) _ _ _
       (add_constraints_unrolls _ ) (constraint_stmts_adds _)
       ltac:(eassumption) ltac:(eassumption)) (only parsing).

Lemma model_assign g g' v :
  add_constraints g = (inr tt, g') → satisfies v (model g') →
  assign g' = assign g.
Proof.
intros Hrun Hsat.
exact (block_assign _ _ _ _ _ (add_constraints_unrolls g)
         (constraint_stmts_adds g) Hrun Hsat).
Qed.

(** A decidable fact about the catalog, by evaluation. *)
Ltac by_evaluation := apply (bool_decide_unpack _); vm_compute; exact I.

(** A field of the object after [generate_variables] is the field of the
    fresh object. *)
Ltac fresh_fields :=
  rewrite ?built_sections, ?built_days, ?built_courses, ?built_fixed_slots,
    ?built_free, ?built_course_ids.

(** ** The built-in objects, evaluated *)

(** 2 sections x 6 days x 7 periods x 11 courses, named as in the source. *)
Example variables_without_free :
  length (variables (model (built (init false)))) = 924 ∧
  head (variables (model (built (init false)))) = Some "x_A_Mon_1_PAS" ∧
  assign (built (init false)) !! ("B", "Sat", 7, "ACT") = Some (923 : BoolVar).
Proof. vm_compute. done. Qed.

(** 84 + 24 + 294 + 72 + 132 + 720 + 8 constraints with free periods. *)
Example constraints_with_free :
  (add_constraints (built (init true))).1 = inr tt ∧
  length (constraints (model (constrained (init true)))) = 1334.
Proof. vm_compute. done. Qed.

Example lab_identifiers :
  str_contains "LAB" "FDSA_LAB" = true ∧ str_contains "LAB" "LIB" = false ∧
  lab_courses (init false) = ["FDSA_LAB"; "ML_LAB"] ∧
  theory_courses (init true) = ["PAS"; "OS"; "ML"; "FDSA"; "CN"; "EVS"].
Proof. vm_compute. done. Qed.

(** ** Blocks that return *)

Section block_returns.

Variables (block : M unit) (stmts : list stmt) (g : TimetableGenerator).

(** A block whose expressions all evaluate returns. *)
Lemma block_returns :
  unrolls g block stmts → Forall is_add stmts →
  Forall (λ st, is_Some (stmt_constraint (assign g) st)) stmts →
  (block g).1 = inr tt.
Proof.
intros Hun Hadd Hall. rewrite (Hun g (same_config_refl g)).
by destruct (script_adds_return stmts g Hadd Hall) as [g' ->].
Qed.

End block_returns.

Lemma add_no_consecutive_returns g :
  (∀ k, k ∈ slot_keys g → is_Some (assign g !! k)) →
  (add_no_consecutive g).1 = inr tt.
Proof.
intros Hkeys. apply (block_returns _ _ _ (add_no_consecutive_unrolls g)).
- unfold no_consecutive_stmts. forall_stmts.
- by apply no_consecutive_evaluates.
Qed.

(** The quota of rule 2, for the whole model. *)
Lemma quota_of_model g g' v s c info :
  add_constraints g = (inr tt, g') → satisfies v (model g') →
  s ∈ sections g → (c, info) ∈ courses g →
  true_count g v (week_vars g s c) = weekly_count info.
Proof.
intros Hrun Hsat Hs Hc.
rewrite <-(true_count_frame g g' v _ (model_assign g g' v Hrun Hsat)).
apply (whole_model course_count_eq); auto using course_count_sub.
Qed.

(** ** Rules 1 and 2 together *)

Section coverage_and_counts.

Variable g : TimetableGenerator.

Lemma coverage_and_counts_unrolls :
  unrolls g add_coverage_and_counts
          (slot_coverage_stmts g ++ course_count_stmts g).
Proof.
apply unrolls_seq;
  [apply add_slot_coverage_unrolls | apply add_course_counts_unrolls].
Qed.

Lemma coverage_and_counts_adds :
  Forall is_add (slot_coverage_stmts g ++ course_count_stmts g).
Proof. unfold slot_coverage_stmts, course_count_stmts. forall_stmts. Qed.

Lemma coverage_and_counts_returns :
  (∀ k, k ∈ slot_keys g → is_Some (assign g !! k)) →
  ∃ g', add_coverage_and_counts g = (inr tt, g').
Proof.
intros Hkeys.
rewrite (coverage_and_counts_unrolls g (same_config_refl g)).
apply script_adds_return; [apply coverage_and_counts_adds|].
apply Forall_app. split.
- by apply slot_coverage_evaluates.
- by apply course_count_evaluates.
Qed.

(** With exactly one course per slot, rules 1 and 2 can only be
    satisfied together when the week has as many slots as the weekly
    counts add up to. *)
Lemma coverage_and_counts_total g' v s :
  add_coverage_and_counts g = (inr tt, g') → satisfies v (model g') →
  include_free_periods g = false → s ∈ sections g →
  length (days g) * 7 = total_weekly g.
Proof.
intros Hrun Hsat Hfree Hs.
apply (coverage_meets_quota add_coverage_and_counts
         (slot_coverage_stmts g ++ course_count_stmts g) g g' v s);
  try done.
- apply coverage_and_counts_unrolls.
- apply coverage_and_counts_adds.
- intros st Hst. apply elem_of_app. by left.
- intros st Hst. apply elem_of_app. by right.
Qed.

End coverage_and_counts.

(** ** Constraints over a pair of variables *)

(** Two variables under a constraint [x1 + x2 <= 1] are not both true. *)
Lemma pair_conflict g v k1 k2 (x1 x2 : BoolVar) cs :
  assign g !! k1 = Some x1 → assign g !! k2 = Some x2 →
  SumLe [x1; x2] 1 ∈ cs → Forall (holds v) cs →
  ¬ (is_true g v k1 = true ∧ is_true g v k2 = true).
Proof.
intros H1 H2 Hk Hsat [Ht1 Ht2]. rewrite Forall_forall in Hsat.
specialize (Hsat _ Hk). unfold is_true in Ht1, Ht2.
rewrite H1 in Ht1. rewrite H2 in Ht2.
unfold holds, sum_value, Value in Hsat. simpl in Hsat.
rewrite Ht1, Ht2 in Hsat. lia.
Qed.

(** ** The course at a fixed slot *)

Section pinned.

Variables (g g' : TimetableGenerator) (v : valuation).
Hypothesis Hrun : add_constraints g = (inr tt, g').
Hypothesis Hsat : satisfies v (model g').

Lemma model_config : same_config g' g.
Proof.
exact (block_config _ _ _ _ _ (add_constraints_unrolls g)
         (constraint_stmts_adds g) Hrun Hsat).
Qed.

Lemma model_solution : solution g' = solution g.
Proof.
exact (block_solution _ _ _ _ _ (add_constraints_unrolls g)
         (constraint_stmts_adds g) Hrun Hsat).
Qed.

Lemma model_course_ids : course_ids g' = course_ids g.
Proof.
unfold course_ids. by destruct model_config as (_ & _ & _ & -> & _).
Qed.

Lemma true_count_slot_vars s d p :
  true_count g' v (slot_vars g s d p) = length (true_courses g' v s d p).
Proof.
unfold true_count, slot_vars, true_courses.
by rewrite length_filter_fmap, model_course_ids.
Qed.

(** At most one course is true at a slot, with or without free periods. *)
Lemma at_most_one_true s d p :
  s ∈ sections g → d ∈ days g → 1 ≤ p ≤ 7 →
  length (true_courses g' v s d p) ≤ 1.
Proof.
intros Hs Hd Hp. rewrite <-true_count_slot_vars.
destruct (include_free_periods g) eqn:Hfree.
- apply (whole_model slot_coverage_le); auto using slot_coverage_sub.
- rewrite (whole_model slot_coverage_eq); auto using slot_coverage_sub.
Qed.

Lemma pinned_true k : k ∈ fixed_slots g → is_true g' v k = true.
Proof.
intros Hk. apply (whole_model fixed_slot_true); auto using fixed_slot_sub.
Qed.

(** A pinned course is the one the extraction finds at its slot. *)
Lemma pinned_extracted s d p c :
  (s, d, p, c) ∈ fixed_slots g →
  s ∈ sections g → d ∈ days g → 1 ≤ p ≤ 7 → c ∈ course_ids g →
  extracted g' v s d p = entry_of g' c.
Proof.
intros Hk Hs Hd Hp Hc.
pose proof (pinned_true _ Hk) as Htrue.
pose proof (at_most_one_true s d p Hs Hd Hp) as Hone.
assert (c ∈ true_courses g' v s d p) as Hin.
{ unfold true_courses. apply elem_of_List_filter.
  by rewrite model_course_ids. }
unfold extracted.
destruct (true_courses g' v s d p) as [|c1 [|c2 l]] eqn:Hl.
- by apply elem_of_nil in Hin.
- apply list_elem_of_singleton in Hin as ->. done.
- simpl in Hone. lia.
Qed.

End pinned.

(** ** What [add_constraints] leaves alone *)

(** [add_constraints] changes nothing but the model's constraints,
    whether it returns or raises. *)
Lemma add_constraints_frame g g' r :
  add_constraints g = (r, g') →
  assign g' = assign g ∧ same_config g' g ∧ solution g' = solution g ∧
  variables (model g') = variables (model g).
Proof.
rewrite add_constraints_script. intros Hrun.
assert (∃ cs, g' = add_all cs g) as [cs ->].
{ destruct r as [err|[]].
  - apply script_adds_err in Hrun as (?&?&?&cs&_&_&_&->);
      [by eexists | apply constraint_stmts_adds].
  - apply script_adds_ok in Hrun as (cs&_&->);
      [by eexists | apply constraint_stmts_adds]. }
by repeat split.
Qed.

Lemma constrained_present g0 k :
  k ∈ slot_keys (constrained g0) → is_Some (assign (constrained g0) !! k).
Proof.
unfold constrained.
destruct (add_constraints (built g0)) as [r g2] eqn:Hrun.
destruct (add_constraints_frame _ _ _ Hrun) as (Ha & Hcfg & _).
simpl. rewrite Ha, (slot_keys_config _ _ Hcfg). apply built_present.
Qed.

(** * The properties of the specification *)

(** ** Slot coverage *)

(** C1. For every valuation that satisfies the constraints built by
    [add_constraints], and for every section, day and period 1..7 of the
    object: when [include_free_periods] is false exactly one course
    variable is true at the slot, and when it is true at most one is. *)
Theorem slot_coverage (g g' : TimetableGenerator) (v : valuation)
  (s d : string) (p : nat) :
  add_constraints g = (inr tt, g') → satisfies v (model g') →
  s ∈ sections g → d ∈ days g → 1 ≤ p ≤ 7 →
  if include_free_periods g
  then true_count g v (slot_vars g s d p) ≤ 1
  else true_count g v (slot_vars g s d p) = 1.
Proof.
intros Hrun Hsat Hs Hd Hp.
rewrite <-(true_count_frame g g' v _ (model_assign g g' v Hrun Hsat)).
destruct (include_free_periods g) eqn:Hfree.
- apply (whole_model slot_coverage_le); auto using slot_coverage_sub.
- apply (whole_model slot_coverage_eq); auto using slot_coverage_sub.
Qed.

Lemma slot_coverage_witness :
  true_count (built (init true)) week_valuation
             (slot_vars (built (init true)) "A" "Mon" 1) ≤ 1 ∧
  true_count (built strict) week_valuation
             (slot_vars (built strict) "A" "Mon" 1) = 1.
Proof.
split.
- pose proof (slot_coverage (built (init true)) (constrained (init true))
                week_valuation "A" "Mon" 1) as H.
  rewrite built_free in H. apply H.
  + apply constrained_run, init_fixed_known.
  + apply week_satisfies.
  + fresh_fields. by_evaluation.
  + fresh_fields. by_evaluation.
  + lia.
- pose proof (slot_coverage (built strict) (constrained strict)
                week_valuation "A" "Mon" 1) as H.
  rewrite built_free in H. apply H.
  + apply constrained_run, (init_fixed_known true).
  + apply week_satisfies_strict.
  + fresh_fields. by_evaluation.
  + fresh_fields. by_evaluation.
  + lia.
Defined.

(** ** Course quota *)

(** C2. For every valuation that satisfies the constraints, and for
    every section and every course of the catalog, the number of
    (day, period) slots at which the course's variable is true is the
    course's [weekly_count], exactly. *)
Theorem course_quota (g g' : TimetableGenerator) (v : valuation)
  (s c : string) (info : CourseInfo) :
  add_constraints g = (inr tt, g') → satisfies v (model g') →
  s ∈ sections g → (c, info) ∈ courses g →
  true_count g v (week_vars g s c) = weekly_count info.
Proof.
intros Hrun Hsat Hs Hc.
rewrite <-(true_count_frame g g' v _ (model_assign g g' v Hrun Hsat)).
apply (whole_model course_count_eq); auto using course_count_sub.
Qed.

Lemma course_quota_witness :
  true_count (built (init true)) week_valuation
             (week_vars (built (init true)) "A" "OS") = 6.
Proof.
apply (course_quota (built (init true)) (constrained (init true))
         week_valuation "A" "OS" (6, false, "Ms. K.Sudha")).
- apply constrained_run, init_fixed_known.
- apply week_satisfies.
- fresh_fields. by_evaluation.
- fresh_fields. by_evaluation.
Defined.

(** ** No timetable without free periods *)

(** C3. Without free periods the constraints cannot be satisfied: rule 1
    asks for one true variable at each of the 6 x 7 = 42 slots of a
    section, rule 2 for as many true variables as the weekly counts add
    up to, which is 40 for the built-in catalog (31 theory, 4 lab and 5
    administrative periods).  No valuation satisfies rules 1 and 2
    together, none satisfies the whole model, and [solve] returns
    [False]. *)
Theorem no_free_periods_infeasible (solver : CpSolver) :
  (∀ m, sound m (solver m).1 (solver m).2) →
  length (days (init false)) * 7 = 42 ∧
  total_weekly (init false) = 40 ∧
  weekly_sum (theory_items (init false)) = 31 ∧
  weekly_sum (lab_items (init false)) = 4 ∧
  weekly_sum (administrative_items (init false)) = 5 ∧
  (∃ g2, add_coverage_and_counts (built (init false)) = (inr tt, g2) ∧
         constraints (model g2) =
           added_by add_coverage_and_counts (built (init false)) ∧
         ¬ ∃ v, satisfies v (model g2)) ∧
  (¬ ∃ v, satisfies v (model (constrained (init false)))) ∧
  run solver (init false) = (inr false, constrained (init false)).
Proof.
intros Hsound.
assert (¬ ∃ v, satisfies v (model (constrained (init false)))) as Hunsat.
{ intros [v Hsat].
  pose proof (constrained_run (init false) (init_fixed_known false)) as Hrun.
  pose proof (coverage_meets_quota add_constraints
                (constraint_stmts (built (init false)))
                (built (init false)) (constrained (init false)) v "A"
                (add_constraints_unrolls _) (constraint_stmts_adds _)
                Hrun Hsat (slot_coverage_sub _) (course_count_sub _)) as H.
  revert H. fresh_fields. intros H.
  assert (length (days (init false)) * 7 = total_weekly (init false)) as Habs
    by (apply H; [reflexivity | by_evaluation]).
  vm_compute in Habs. lia. }
do 5 (split; [reflexivity|]).
split; [|split; [exact Hunsat|]].
- destruct (coverage_and_counts_returns (built (init false))
              (built_present (init false))) as [g2 Hrun].
  exists g2. split_and!; [done | |].
  + unfold added_by. rewrite Hrun, built_constraints. done.
  + intros [v Hsat].
    pose proof (coverage_and_counts_total (built (init false)) g2 v "A"
                  Hrun Hsat) as H.
    revert H. fresh_fields. intros H.
    assert (length (days (init false)) * 7 = total_weekly (init false)) as Habs
      by (apply H; [reflexivity | by_evaluation]).
    vm_compute in Habs. lia.
- unfold run. rewrite bind_run, built_run.
  rewrite bind_run, (constrained_run (init false) (init_fixed_known false)).
  rewrite bind_run.
  destruct (solver (model (constrained (init false)))) as [st v] eqn:Hsolver.
  pose proof (Hsound (model (constrained (init false)))) as Hs.
  rewrite Hsolver in Hs. cbn [fst snd] in Hs.
  destruct (found st) eqn:Hfound.
  + destruct Hunsat. exists v. by apply Hs.
  + rewrite (solve_not_found _ solver st v Hsolver Hfound). reflexivity.
Qed.

Lemma no_free_periods_infeasible_witness :
  run never_finds (init false) = (inr false, constrained (init false)).
Proof.
apply (no_free_periods_infeasible never_finds).
intros m Hfound. discriminate Hfound.
Defined.


(** ** Labs and their weekly count *)

(** C4. The catalog says of a lab that its count is a number of
    sessions of two periods (a count of 2 is 4 periods).  The model
    does otherwise.  With free periods the built-in model has a
    satisfying valuation, the week above; there the lab FDSA_LAB, whose
    count is 2, is true at 2 period-slots of section A, not at 2 x 2;
    and every valuation that satisfies the model makes every lab true
    at exactly its count of period-slots. *)
Theorem lab_count_is_periods :
  dict_get "FDSA_LAB" (courses (init true)) = Some (2, true, "Ms. Deepika") ∧
  add_constraints (built (init true)) = (inr tt, constrained (init true)) ∧
  satisfies week_valuation (model (constrained (init true))) ∧
  true_count (built (init true)) week_valuation
             (week_vars (built (init true)) "A" "FDSA_LAB") = 2 ∧
  2 ≠ 2 * 2 ∧
  ∀ v s c info,
    satisfies v (model (constrained (init true))) →
    s ∈ sections (init true) → (c, info) ∈ courses (init true) →
    is_lab info = true →
    true_count (built (init true)) v (week_vars (built (init true)) s c) =
    weekly_count info.
Proof.
pose proof (constrained_run (init true) (init_fixed_known true)) as Hrun.
split_and!.
- reflexivity.
- exact Hrun.
- exact week_satisfies.
- apply (quota_of_model _ _ _ "A" "FDSA_LAB" (2, true, "Ms. Deepika")
           Hrun week_satisfies); fresh_fields; by_evaluation.
- lia.
- intros v s c info Hsat Hs Hc _.
  apply (quota_of_model _ _ _ s c info Hrun Hsat); by fresh_fields.
Qed.

(** ** Lab blocks *)

(** C5. For every lab course, section and day, in every valuation that
    satisfies the constraints: the lab's variable is false at every
    period outside 4, 5, 6, 7; the two variables of the pair (4, 5) have
    the same value, and so have those of the pair (6, 7); and at most 2
    lab variables, over all lab courses and periods, are true for the
    section and day. *)
Theorem lab_blocks (g g' : TimetableGenerator) (v : valuation)
  (s d c : string) (info : CourseInfo) :
  add_constraints g = (inr tt, g') → satisfies v (model g') →
  s ∈ sections g → d ∈ days g →
  (c, info) ∈ courses g → is_lab info = true →
  (∀ p, 1 ≤ p ≤ 7 → p ∉ [4; 5; 6; 7] → is_true g v (s, d, p, c) = false) ∧
  is_true g v (s, d, 4, c) = is_true g v (s, d, 5, c) ∧
  is_true g v (s, d, 6, c) = is_true g v (s, d, 7, c) ∧
  true_count g v (c' ← lab_courses g; p ← range 1 8; [(s, d, p, c')]) ≤ 2.
Proof.
intros Hrun Hsat Hs Hd Hc Hlab.
pose proof (model_assign g g' v Hrun Hsat) as Ha.
assert (c ∈ lab_courses g) as Hc'.
{ unfold lab_courses. apply list_elem_of_fmap. exists (c, info).
  split; [done|]. by apply elem_of_List_filter. }
rewrite <-(true_count_frame g g' v _ Ha), <-!(is_true_frame g g' v _ Ha).
split_and!.
- intros p Hp Hout. rewrite <-(is_true_frame g g' v _ Ha).
  apply (whole_model lab_outside); auto using lab_block_sub.
- apply (whole_model lab_pair); auto using lab_block_sub. by left.
- apply (whole_model lab_pair); auto using lab_block_sub. right. by left.
- apply (whole_model lab_per_day); auto using lab_block_sub.
Qed.

Lemma lab_blocks_witness :
  (∀ p, 1 ≤ p ≤ 7 → p ∉ [4; 5; 6; 7] →
        is_true (built (init true)) week_valuation
                ("A", "Mon", p, "FDSA_LAB") = false) ∧
  is_true (built (init true)) week_valuation ("A", "Mon", 4, "FDSA_LAB") =
  is_true (built (init true)) week_valuation ("A", "Mon", 5, "FDSA_LAB") ∧
  is_true (built (init true)) week_valuation ("A", "Mon", 6, "FDSA_LAB") =
  is_true (built (init true)) week_valuation ("A", "Mon", 7, "FDSA_LAB") ∧
  true_count (built (init true)) week_valuation
    (c' ← lab_courses (built (init true)); p ← range 1 8;
     [("A", "Mon", p, c')]) ≤ 2.
Proof.
apply (lab_blocks (built (init true)) (constrained (init true))
         week_valuation "A" "Mon" "FDSA_LAB" (2, true, "Ms. Deepika")).
- apply constrained_run, init_fixed_known.
- apply week_satisfies.
- fresh_fields. by_evaluation.
- fresh_fields. by_evaluation.
- fresh_fields. by_evaluation.
- reflexivity.
Defined.

(** ** Teacher conflicts *)

(** C6, as the specification has it, fails for the teacher ['All Staff']:
    the course ACT is not exempt.  Rule 3 adds a constraint over the two
    ACT variables of a slot (variables 10 and 472 for Monday, period 1),
    so no valuation that satisfies rule 3 has ACT in both sections at
    once. *)
Lemma all_staff_not_exempt :
  dict_get "ACT" (courses (init false)) = Some (2, false, "All Staff") ∧
  ¬ exempts add_teacher_conflict (built (init false)) "ACT" ∧
  ¬ permits add_teacher_conflict (built (init false))
      ("A", "Mon", 1, "ACT") ("B", "Mon", 1, "ACT").
Proof.
assert (assign (built (init false)) !! ("A", "Mon", 1, "ACT")
        = Some (10 : BoolVar))
  as HA by (vm_compute; reflexivity).
assert (assign (built (init false)) !! ("B", "Mon", 1, "ACT")
        = Some (472 : BoolVar))
  as HB by (vm_compute; reflexivity).
assert (SumLe [10; 472] 1 ∈ added_by add_teacher_conflict (built (init false)))
  as Hk by by_evaluation.
split; [reflexivity|]. split.
- intros Hex. apply (Hex "A" "Mon" 1 10 HA _ Hk). by left.
- intros (v & Hsat & H1 & H2).
  exact (pair_conflict _ v _ _ _ _ _ HA HB Hk Hsat (conj H1 H2)).
Qed.

(** C6, amended.  Only the teacher ['None'] is exempt: rule 3 mentions
    no variable of a course whose teacher is ['None'].  For every day,
    period and every other teacher of the catalog, ['All Staff']
    included, at most one course of the teacher is true over all
    sections, in every valuation that satisfies the constraints. *)
Theorem teacher_conflict (g g' : TimetableGenerator) (v : valuation) :
  add_constraints g = (inr tt, g') → satisfies v (model g') →
  distinct_vars g → NoDup (course_ids g) →
  (∀ d p t, d ∈ days g → 1 ≤ p ≤ 7 → t ≠ "None" →
     (∃ c info, (c, info) ∈ courses g ∧ teacher info = t) →
     true_count g v
       (s ← sections g; (λ item, (s, d, p, item.1)) <$> taught_by g t) ≤ 1) ∧
  (∀ c info, dict_get c (courses g) = Some info → teacher info = "None" →
     exempts add_teacher_conflict g c).
Proof.
intros Hrun Hsat Hdistinct Hnd. split.
- intros d p t Hd Hp Hne Ht.
  rewrite <-(true_count_frame g g' v _ (model_assign g g' v Hrun Hsat)).
  apply (whole_model teacher_conflict_le); auto using teacher_conflict_sub.
  by apply elem_of_real_teachers.
- intros c info Hc Hnone.
  by apply (teacher_conflict_exempts_none g Hdistinct c info).
Qed.

Lemma teacher_conflict_witness :
  true_count (built (init true)) week_valuation
    (s ← sections (built (init true));
     (λ item, (s, "Fri", 7, item.1)) <$>
       taught_by (built (init true)) "All Staff") ≤ 1 ∧
  exempts add_teacher_conflict (built (init true)) "FREE".
Proof.
destruct (teacher_conflict (built (init true)) (constrained (init true))
            week_valuation) as [Hle Hex].
- apply constrained_run, init_fixed_known.
- apply week_satisfies.
- by apply built_distinct.
- fresh_fields. by_evaluation.
- split.
  + apply Hle.
    * fresh_fields. by_evaluation.
    * lia.
    * discriminate.
    * exists "ACT", (2, false, "All Staff"). split; [|reflexivity].
      fresh_fields. by_evaluation.
  + apply (Hex "FREE" (2, false, "None")); [|reflexivity].
    fresh_fields. reflexivity.
Defined.

(** ** Repeats of administrative courses *)

(** C7, as the specification has it, fails for rule 6: the rule looks
    for LAB in the identifier and for nothing else, so it forbids PD at
    Monday's periods 1 and 2 of section A. *)
Lemma consecutive_pd_forbidden :
  "PD" ∈ administrative ∧
  ¬ permits add_no_consecutive (built (init false))
      ("A", "Mon", 1, "PD") ("A", "Mon", 2, "PD").
Proof.
split; [by_evaluation|].
apply (no_consecutive_forbids (built (init false)) "A" "Mon" 1 "PD").
- apply add_no_consecutive_returns, built_present.
- fresh_fields. by_evaluation.
- fresh_fields. by_evaluation.
- lia.
- fresh_fields. by_evaluation.
- reflexivity.
Qed.

(** C7, amended.  Rule 4 exempts PD, LIB, ACT and FREE: for each of
    them and every section and day, it permits the course at any two
    periods of the day.  Rule 6 does not: it exempts the courses with
    LAB in their identifier and no other, so for PD, LIB, ACT and FREE
    it forbids two consecutive periods p and p + 1. *)
Theorem administrative_repeats (g : TimetableGenerator) (s d c : string) :
  distinct_vars g → (∀ k, k ∈ slot_keys g → is_Some (assign g !! k)) →
  s ∈ sections g → d ∈ days g → c ∈ course_ids g → c ∈ administrative →
  (∀ p1 p2, 1 ≤ p1 ≤ 7 → 1 ≤ p2 ≤ 7 →
     permits add_no_same_day_repeat g (s, d, p1, c) (s, d, p2, c)) ∧
  (∀ p, 1 ≤ p ≤ 6 →
     ¬ permits add_no_consecutive g (s, d, p, c) (s, d, p + 1, c)) ∧
  (∀ lab, str_contains "LAB" lab = true → exempts add_no_consecutive g lab).
Proof.
intros Hdistinct Hkeys Hs Hd Hc Hadm. split_and!.
- intros p1 p2 Hp1 Hp2.
  apply same_day_permits; try done; by apply Hkeys, elem_of_slot_keys.
- intros p Hp. apply no_consecutive_forbids; try done.
  + by apply add_no_consecutive_returns.
  + by apply administrative_not_lab.
- intros lab Hlab. by apply no_consecutive_exempts_lab.
Qed.

Lemma administrative_repeats_witness :
  permits add_no_same_day_repeat (built (init true))
    ("A", "Fri", 5, "ACT") ("A", "Fri", 7, "ACT") ∧
  ¬ permits add_no_consecutive (built (init true))
      ("A", "Fri", 6, "ACT") ("A", "Fri", 6 + 1, "ACT").
Proof.
destruct (administrative_repeats (built (init true)) "A" "Fri" "ACT")
  as (Hsame & Hnext & _).
- by apply built_distinct.
- apply built_present.
- fresh_fields. by_evaluation.
- fresh_fields. by_evaluation.
- fresh_fields. by_evaluation.
- by_evaluation.
- split; [apply Hsame | apply Hnext]; lia.
Defined.

(** ** Fixed slots *)

(** C8. For every tuple (section, day, period, course) of the fixed
    slots, every valuation that satisfies the constraints has the
    course's variable true at the slot, and the solution [solve]
    extracts from it maps the slot to that course with the teacher the
    catalog gives it. *)
Theorem fixed_slots_pinned (g0 g2 : TimetableGenerator) (v : valuation)
  (s d : string) (p : nat) (c : string) :
  assign g0 = ∅ →
  add_constraints (built g0) = (inr tt, g2) → satisfies v (model g2) →
  (s, d, p, c) ∈ fixed_slots g0 →
  is_true g2 v (s, d, p, c) = true ∧
  ∀ solver st,
    solver (model g2) = (st, v) → found st = true →
    ∃ g3 info,
      solve solver g2 = (inr true, g3) ∧
      dict_get c (courses g0) = Some info ∧
      solution_at g3 s d p = Some (c, teacher info).
Proof.
intros H0 Hrun Hsat Hk.
pose proof (model_assign _ _ _ Hrun Hsat) as Ha.
pose proof (model_config _ _ _ Hrun Hsat) as Hcfg.
pose proof (same_config_trans _ _ _ Hcfg (built_config g0)) as Hcfg0.
assert (is_true g2 v (s, d, p, c) = true) as Htrue.
{ apply (pinned_true _ _ _ Hrun Hsat). by rewrite built_fixed_slots. }
split; [done|].
assert ((s, d, p, c) ∈ slot_keys g0) as Hkey.
{ apply built_only; [done|]. unfold is_true in Htrue. rewrite Ha in Htrue.
  destruct (assign (built g0) !! (s, d, p, c)); [by eexists | done]. }
apply elem_of_slot_keys in Hkey as (Hs & Hd & Hp & Hc).
destruct (dict_get_keys _ _ Hc) as [info Hinfo].
intros solver st Hsolver Hfound.
exists (set_solution (Some (fill_all g2 v (sections g2) ∅)) g2), info.
split_and!.
- apply (solve_found g2 v solver st Hsolver Hfound).
  intros k Hk2. rewrite Ha. apply built_keys. right.
  by rewrite <-(slot_keys_config g0 g2 Hcfg0).
- done.
- destruct Hcfg0 as (Hdays & _ & Hsections & Hcourses & _).
  rewrite solution_at_fill by (by rewrite ?Hsections, ?Hdays).
  rewrite (pinned_extracted _ _ _ Hrun Hsat s d p c);
    fresh_fields; try done.
  unfold entry_of. by rewrite Hcourses, Hinfo.
Qed.

Lemma fixed_slots_pinned_witness :
  is_true (constrained (init true)) week_valuation ("A", "Tue", 2, "PD")
  = true ∧
  ∃ g3 info,
    solve (oracle week_valuation) (constrained (init true)) = (inr true, g3) ∧
    dict_get "PD" (courses (init true)) = Some info ∧
    solution_at g3 "A" "Tue" 2 = Some ("PD", teacher info).
Proof.
destruct (fixed_slots_pinned (init true) (constrained (init true))
            week_valuation "A" "Tue" 2 "PD") as [Htrue Hsolve].
- reflexivity.
- apply constrained_run, init_fixed_known.
- apply week_satisfies.
- by_evaluation.
- split; [exact Htrue|].
  apply (Hsolve (oracle week_valuation) FEASIBLE); [|reflexivity].
  unfold oracle. by rewrite week_satisfiesb.
Defined.

(** ** Extraction *)

(** C9, as the specification has it, fails: with every variable true,
    twelve courses are true at Monday's first period of section A, and
    [solve] returns [True] with the last course of the catalog at that
    slot. *)
Lemma extraction_does_not_abort :
  length (true_courses (constrained (init true)) all_true "A" "Mon" 1) = 12 ∧
  ∃ g', solve (careless all_true) (constrained (init true)) = (inr true, g') ∧
        solution_at g' "A" "Mon" 1 = Some ("FREE", "None").
Proof.
split; [vm_compute; reflexivity|].
eexists. split.
- apply (solve_found _ all_true (careless all_true) FEASIBLE);
    [reflexivity | reflexivity | apply constrained_present].
- assert (sections (constrained (init true)) = sections (init true) ∧
          days (constrained (init true)) = days (init true)) as [Hs Hd].
  { unfold constrained.
    destruct (add_constraints (built (init true))) as [r g2] eqn:Hrun.
    destruct (add_constraints_frame _ _ _ Hrun) as (_ & Hcfg & _).
    destruct (same_config_trans _ _ _ Hcfg (built_config (init true)))
      as (? & _ & ? & _).
    by split. }
  rewrite solution_at_fill.
  + vm_compute. reflexivity.
  + rewrite Hs. by_evaluation.
  + rewrite Hd. by_evaluation.
  + lia.
Qed.

(** C9, amended.  The extraction never fails for the number of true
    courses.  Given a status OPTIMAL or FEASIBLE, [solve] returns [True]
    and leaves at every slot the last course of the catalog whose
    variable is true, with its teacher: a later true course overwrites
    an earlier one, and a slot with no true course has no entry. *)
Theorem extraction_overwrites (g : TimetableGenerator) (solver : CpSolver)
  (st : Status) (v : valuation) :
  solver (model g) = (st, v) → found st = true →
  (∀ k, k ∈ slot_keys g → is_Some (assign g !! k)) →
  ∃ g', solve solver g = (inr true, g') ∧
        ∀ s d p, s ∈ sections g → d ∈ days g → 1 ≤ p ≤ 7 →
          solution_at g' s d p =
          (c ← last (true_courses g v s d p);
           info ← dict_get c (courses g);
           Some (c, teacher info)).
Proof.
intros Hsolver Hfound Hkeys.
exists (set_solution (Some (fill_all g v (sections g) ∅)) g). split.
- by apply (solve_found g v solver st).
- intros s d p Hs Hd Hp. by rewrite solution_at_fill.
Qed.

Lemma extraction_overwrites_witness :
  ∃ g', solve (careless all_true) (built (init true)) = (inr true, g') ∧
        solution_at g' "A" "Mon" 1 =
        (c ← last (true_courses (built (init true)) all_true "A" "Mon" 1);
         info ← dict_get c (courses (built (init true)));
         Some (c, teacher info)).
Proof.
destruct (extraction_overwrites (built (init true)) (careless all_true)
            FEASIBLE all_true) as (g' & Hsolve & Hat).
- reflexivity.
- reflexivity.
- apply built_present.
- exists g'. split; [exact Hsolve|].
  apply Hat; [fresh_fields; by_evaluation | fresh_fields; by_evaluation | lia].
Defined.

(** ** A fixed slot with an unknown course *)

(** C10, as the specification has it, fails: nothing checks the fixed
    slots before the variables and constraints are made.  With the
    tuple (A, Mon, 1, XYZ) among them, [run] raises KeyError with that
    tuple, and by then the model has 924 variables and 1252
    constraints. *)
Lemma unknown_course_rejected_late :
  ¬ rejected_up_front (run never_finds with_unknown_course) ∧
  (run never_finds with_unknown_course).1
  = inl (KeyError (KSlot ("A", "Mon", 1, "XYZ"))) ∧
  length (variables (model (run never_finds with_unknown_course).2)) = 924 ∧
  length (constraints (model (run never_finds with_unknown_course).2)) = 1252.
Proof.
assert (length (variables (model (run never_finds with_unknown_course).2)) = 924)
  as Hvars by (vm_compute; reflexivity).
split_and!.
- intros (_ & Hnone & _). rewrite Hnone in Hvars. discriminate Hvars.
- vm_compute. reflexivity.
- exact Hvars.
- vm_compute. reflexivity.
Qed.

(** C10, amended.  A fixed slot that names a course outside the catalog
    is not ignored, and not rejected up front either: from a fresh
    object, [generate_variables] makes every variable, the constraints
    of rules 1 to 6 are added, and rule 7 then raises KeyError with a
    fixed-slot tuple that has no variable (the first in iteration
    order); [solve] is never reached and no solution is stored. *)
Theorem unknown_fixed_course (g0 : TimetableGenerator) (solver : CpSolver)
  (k0 : SlotKey) :
  assign g0 = ∅ → k0 ∈ fixed_slots g0 → k0.2 ∉ course_ids g0 →
  ∃ k g2 cs cs',
    run solver g0 = (inl (KeyError (KSlot k)), g2) ∧
    k ∈ fixed_slots g0 ∧ (k ∉ slot_keys g0) ∧
    (∀ key, key ∈ slot_keys g0 → is_Some (assign g2 !! key)) ∧
    Forall2 (λ st c, stmt_constraint (assign (built g0)) st = Some c)
            (search_rule_stmts (built g0)) cs ∧
    constraints (model g2) = (constraints (model g0) ++ cs ++ cs') ∧
    solution g2 = solution g0.
Proof.
intros H0 Hk0 Hc0.
assert (assign (built g0) !! k0 = None) as Hnone.
{ destruct (assign (built g0) !! k0) as [x|] eqn:Hx; [|done].
  assert (k0 ∈ slot_keys g0) as Hin by (apply built_only; [done | by eexists]).
  destruct k0 as [[[s d] p] c]. apply elem_of_slot_keys in Hin. simpl in Hc0.
  tauto. }
destruct (add_constraints_raises (built g0) (built_present g0) k0)
  as (k & g2 & cs & cs' & Hrun & Hk & Hknone & Hcs & ->).
{ by rewrite built_fixed_slots. }
{ done. }
exists k, (add_all (cs ++ cs') (built g0)), cs, cs'. split_and!.
- unfold run. rewrite bind_run, built_run, bind_run, Hrun. done.
- by rewrite <-built_fixed_slots.
- intros Hin. assert (is_Some (assign (built g0) !! k)) as [x Hx]
    by (apply built_keys; by right).
  congruence.
- intros key Hkey. simpl. apply built_keys. by right.
- done.
- simpl. by rewrite built_constraints.
- simpl. apply built_solution.
Qed.

Lemma unknown_fixed_course_witness :
  ∃ k g2 cs cs',
    run never_finds with_unknown_course = (inl (KeyError (KSlot k)), g2) ∧
    k ∈ fixed_slots with_unknown_course ∧
    (k ∉ slot_keys with_unknown_course) ∧
    (∀ key, key ∈ slot_keys with_unknown_course →
            is_Some (assign g2 !! key)) ∧
    Forall2 (λ st c,
               stmt_constraint (assign (built with_unknown_course)) st = Some c)
            (search_rule_stmts (built with_unknown_course)) cs ∧
    constraints (model g2) =
      (constraints (model with_unknown_course) ++ cs ++ cs') ∧
    solution g2 = solution with_unknown_course.
Proof.
apply (unknown_fixed_course with_unknown_course never_finds
         ("A", "Mon", 1, "XYZ")).
- reflexivity.
- by left.
- by_evaluation.
Defined.

(** * Further properties of the code *)

(** ** [generate_variables] *)

Section variable_count.

Lemma script_news_variables acts g :
  Forall is_new acts →
  length (variables (model (script acts g).2)) =
  length (variables (model g)) + length acts.
Proof.
intros Hnew. revert g. induction Hnew as [|a acts Ha _ IH]; intros g.
- simpl. lia.
- destruct a as [|s d p c]; [done|].
  unfold script in *. rewrite for_cons, bind_run.
  change (exec (SNewVar s d p c) g) with (new_var s d p c g).
  unfold new_var at 1, modify. cbn [NewBoolVar]. rewrite IH.
  cbn [model set_assign set_model variables]. rewrite length_app.
  simpl. lia.
Qed.

Lemma length_bind_const {A B} (f : A → list B) (n : nat) (l : list A) :
  (∀ x, length (f x) = n) → length (l ≫= f) = length l * n.
Proof.
intros Hf. induction l as [|x l IH]; [done|].
rewrite bind_cons, length_app, IH, Hf. simpl. lia.
Qed.

Lemma variable_stmts_length g :
  length (variable_stmts g) =
  length (sections g) * (length (days g) * (7 * length (courses g))).
Proof.
unfold variable_stmts.
apply length_bind_const. intros s.
apply length_bind_const. intros d.
apply (length_bind_const _ (length (courses g)) (range 1 8)). intros p.
unfold course_ids, dict_keys.
rewrite (length_bind_const _ 1) by done. rewrite length_fmap. lia.
Qed.

End variable_count.

(** X1. From a fresh object, [generate_variables] returns without
    raising, and afterwards a key has a variable exactly when it is a
    (section, day, period, course) of the catalogs with the period in
    1..7. *)
Theorem variables_cover_grid (g0 : TimetableGenerator)
  (s d : string) (p : nat) (c : string) :
  assign g0 = ∅ →
  (generate_variables g0).1 = inr tt ∧
  (is_Some (assign (generate_variables g0).2 !! (s, d, p, c)) ↔
   s ∈ sections g0 ∧ d ∈ days g0 ∧ 1 ≤ p ≤ 7 ∧ c ∈ dict_keys (courses g0)).
Proof.
intros H0. split.
- by rewrite built_run.
- change (generate_variables g0).2 with (built g0).
  rewrite <-(elem_of_slot_keys g0). split.
  + by apply built_only.
  + intros Hk. apply built_keys. by right.
Qed.

Lemma variables_cover_grid_witness :
  is_Some (assign (generate_variables (init false)).2
             !! ("B", "Sat", 7, "ACT")) ∧
  ¬ is_Some (assign (generate_variables (init false)).2
               !! ("B", "Sat", 8, "ACT")).
Proof.
split.
- apply (variables_cover_grid (init false) "B" "Sat" 7 "ACT"); [reflexivity|].
  split_and!; try lia; by_evaluation.
- intros H.
  apply (variables_cover_grid (init false) "B" "Sat" 8 "ACT") in H;
    [lia | reflexivity].
Defined.

(** X2. From a fresh object, [generate_variables] gives different keys
    different variables, every variable is one of the model, and the
    model gains |sections| x |days| x 7 x |courses| variables. *)
Theorem variables_distinct (g0 : TimetableGenerator) :
  assign g0 = ∅ →
  distinct_vars (generate_variables g0).2 ∧
  length (variables (model (generate_variables g0).2)) =
  length (variables (model g0)) +
  length (sections g0) * (length (days g0) * (7 * length (courses g0))).
Proof.
intros H0. split.
- by apply built_distinct.
- rewrite (generate_variables_unrolls g0 g0 (same_config_refl g0)).
  rewrite script_news_variables by apply variable_stmts_new.
  by rewrite variable_stmts_length.
Qed.

Lemma variables_distinct_witness :
  distinct_vars (generate_variables (init true)).2 ∧
  length (variables (model (generate_variables (init true)).2)) =
  length (variables (model (init true))) +
  length (sections (init true)) *
    (length (days (init true)) * (7 * length (courses (init true)))).
Proof. apply (variables_distinct (init true)). reflexivity. Defined.

(** ** [add_constraints] *)


(** X4. After [generate_variables] on a fresh object, [add_constraints]
    returns exactly when every fixed slot is a key of the grid;
    otherwise it raises KeyError with a fixed slot that is not. *)
Theorem add_constraints_returns_iff (g0 : TimetableGenerator) :
  assign g0 = ∅ →
  ((add_constraints (built g0)).1 = inr tt ↔
   ∀ k, k ∈ fixed_slots g0 → k ∈ slot_keys g0) ∧
  ((add_constraints (built g0)).1 ≠ inr tt →
   ∃ k, (add_constraints (built g0)).1 = inl (KeyError (KSlot k)) ∧
        k ∈ fixed_slots g0 ∧ k ∉ slot_keys g0).
Proof.
intros H0.
assert (∀ k0, k0 ∈ fixed_slots g0 → k0 ∉ slot_keys g0 →
        ∃ k, (add_constraints (built g0)).1 = inl (KeyError (KSlot k)) ∧
             k ∈ fixed_slots g0 ∧ k ∉ slot_keys g0) as Hraise.
{ intros k0 Hk0 Hout.
  destruct (add_constraints_raises (built g0) (built_present g0) k0)
    as (k & g2 & cs & cs' & Hrun & Hk & Hknone & _).
  - by rewrite built_fixed_slots.
  - destruct (assign (built g0) !! k0) as [x|] eqn:Hx; [|done].
    destruct Hout. apply built_only; [done | by eexists].
  - exists k. rewrite Hrun. split_and!; [done | by rewrite <-built_fixed_slots |].
    intros Hin. assert (is_Some (assign (built g0) !! k)) as [x Hx]
      by (apply built_keys; by right).
    congruence. }
assert (Decision (∀ k, k ∈ fixed_slots g0 → k ∈ slot_keys g0)) as Hdec.
{ destruct (decide (Forall (λ k, k ∈ slot_keys g0) (fixed_slots g0)))
    as [Hall|Hnot]; [left|right]; by rewrite <-Forall_forall. }
split; [split|].
- intros Hret. destruct Hdec as [Hall|Hnot]; [done|].
  rewrite <-Forall_forall in Hnot. apply not_Forall_Exists in Hnot; [|apply _].
  apply Exists_exists in Hnot as (k0 & Hk0 & Hout).
  destruct (Hraise k0 Hk0 Hout) as (k & Hk & _). congruence.
- intros Hall. by rewrite (constrained_run g0 Hall).
- intros Hne. destruct Hdec as [Hall|Hnot].
  + destruct Hne. by rewrite (constrained_run g0 Hall).
  + rewrite <-Forall_forall in Hnot. apply not_Forall_Exists in Hnot; [|apply _].
    apply Exists_exists in Hnot as (k0 & Hk0 & Hout). by apply (Hraise k0).
Qed.

Lemma add_constraints_returns_iff_witness :
  (add_constraints (built (init true))).1 = inr tt.
Proof.
apply (add_constraints_returns_iff (init true)); [reflexivity|].
apply init_fixed_known.
Defined.

Section more_counting.

Lemma str_in_spec x l : str_in x l = true ↔ x ∈ l.
Proof.
unfold str_in. rewrite existsb_exists. split.
- intros (y & Hy & Heq). apply String.eqb_eq in Heq as ->.
  by apply list_elem_of_In.
- intros Hx. exists x. split; [by apply list_elem_of_In|].
  apply String.eqb_refl.
Qed.

Lemma elem_of_theory_courses g c info :
  (c, info) ∈ courses g → is_lab info = false → c ∉ administrative →
  c ∈ theory_courses g.
Proof.
intros Hc Hlab Hadm. unfold theory_courses.
apply list_elem_of_fmap. exists (c, info). split; [done|].
apply elem_of_List_filter. split; [done|]. simpl. rewrite Hlab. simpl.
apply negb_true_iff.
destruct (str_in c ["PD"; "LIB"; "ACT"; "FREE"]) eqn:Hin; [|done].
by apply str_in_spec in Hin.
Qed.

Lemma elem_of_lab_courses g c info :
  (c, info) ∈ courses g → is_lab info = true → c ∈ lab_courses g.
Proof.
intros Hc Hlab. unfold lab_courses. apply list_elem_of_fmap.
exists (c, info). split; [done|]. by apply elem_of_List_filter.
Qed.

Lemma true_count_nil g v : true_count g v [] = 0.
Proof. done. Qed.

Lemma true_count_cons g v k l :
  true_count g v (k :: l) =
  (if is_true g v k then 1 else 0) + true_count g v l.
Proof. unfold true_count. simpl. by destruct (is_true g v k). Qed.

Lemma true_count_app g v l1 l2 :
  true_count g v (l1 ++ l2) = true_count g v l1 + true_count g v l2.
Proof. unfold true_count. by rewrite List.filter_app, length_app. Qed.

Lemma true_count_bind_elem {A} g v (f : A → list SlotKey) (l : list A) x :
  x ∈ l → true_count g v (f x) ≤ true_count g v (l ≫= f).
Proof.
intros Hx. apply list_elem_of_split in Hx as (l1 & l2 & ->).
rewrite bind_app, bind_cons, !true_count_app. lia.
Qed.

Lemma sum_list_fmap_le {A} (f : A → nat) (n : nat) (l : list A) :
  (∀ x, x ∈ l → f x ≤ n) → sum_list (f <$> l) ≤ length l * n.
Proof.
induction l as [|x l IH]; intros Hf; csimpl; [done|].
pose proof (Hf x ltac:(by left)) as Hx.
assert (sum_list (f <$> l) ≤ length l * n) as Hl
  by (apply IH; intros y Hy; apply Hf; by right).
lia.
Qed.

(** With at most one course per slot, the weekly counts cannot add up
    to more than the slots of the week. *)
Lemma coverage_within_quota block stmts g g' v s :
  unrolls g block stmts → Forall is_add stmts →
  block g = (inr tt, g') → satisfies v (model g') →
  slot_coverage_stmts g ⊆ stmts → course_count_stmts g ⊆ stmts →
  include_free_periods g = true → s ∈ sections g →
  total_weekly g ≤ length (days g) * 7.
Proof.
intros Hun Hadd Hrun Hsat Hsub1 Hsub2 Hfree Hs.
pose (T := λ (dp : string * nat) (c : string),
            is_true g' v (s, dp.1, dp.2, c)).
assert (sum_list ((λ dp, length (List.filter (T dp) (course_ids g)))
                    <$> week_slots g) ≤ length (days g) * 7) as Hrows.
{ rewrite <-week_slots_length, <-(Nat.mul_1_r (length (week_slots g))).
  apply sum_list_fmap_le. intros [d p] Hdp.
  apply elem_of_week_slots in Hdp as [Hd Hp].
  pose proof (slot_coverage_le block stmts g g' v Hun Hadd Hrun Hsat
                s d p Hsub1 Hfree Hs Hd Hp) as H1.
  unfold true_count, slot_vars in H1. by rewrite length_filter_fmap in H1. }
assert (sum_list ((λ c, length (List.filter (λ dp, T dp c) (week_slots g)))
                    <$> course_ids g) = total_weekly g) as Hcols.
{ unfold total_weekly, course_ids, dict_keys.
  rewrite <-list_fmap_compose. apply sum_list_fmap_ext.
  intros [c info] Hc. unfold compose. simpl.
  pose proof (course_count_eq block stmts g g' v Hun Hadd Hrun Hsat
                s c info Hsub2 Hs Hc) as H1.
  unfold true_count in H1.
  by rewrite week_vars_slots, length_filter_fmap in H1. }
by rewrite <-Hcols, <-count_exchange.
Qed.

End more_counting.

(** X5. In every valuation that satisfies the constraints, a course
    that is not a lab and is none of PD, LIB, ACT, FREE is true at no
    more than one period of a day, for every section (rule 4). *)
Theorem theory_once_a_day (g g' : TimetableGenerator) (v : valuation)
  (s d c : string) (info : CourseInfo) :
  add_constraints g = (inr tt, g') → satisfies v (model g') →
  s ∈ sections g → d ∈ days g →
  (c, info) ∈ courses g → is_lab info = false → c ∉ administrative →
  true_count g v ((λ p, (s, d, p, c)) <$> range 1 8) ≤ 1.
Proof.
intros Hrun Hsat Hs Hd Hc Hlab Hadm.
rewrite <-(true_count_frame g g' v _ (model_assign g g' v Hrun Hsat)).
apply (whole_model same_day_le); auto using same_day_sub.
by eapply elem_of_theory_courses.
Qed.

Lemma theory_once_a_day_witness :
  true_count (built (init true)) week_valuation
             ((λ p, ("A", "Mon", p, "OS")) <$> range 1 8) ≤ 1.
Proof.
apply (theory_once_a_day (built (init true)) (constrained (init true))
         week_valuation "A" "Mon" "OS" (6, false, "Ms. K.Sudha")).
- apply constrained_run, init_fixed_known.
- apply week_satisfies.
- fresh_fields. by_evaluation.
- fresh_fields. by_evaluation.
- fresh_fields. by_evaluation.
- reflexivity.
- by_evaluation.
Defined.

(** X6. In every valuation that satisfies the constraints, a course
    whose identifier does not contain LAB is never true at two
    consecutive periods p and p + 1 of a day, p in 1..6 (rule 6); this
    includes the theory courses. *)
Theorem never_back_to_back (g g' : TimetableGenerator) (v : valuation)
  (s d c : string) (p : nat) :
  add_constraints g = (inr tt, g') → satisfies v (model g') →
  s ∈ sections g → d ∈ days g → c ∈ dict_keys (courses g) →
  str_contains "LAB" c = false → 1 ≤ p ≤ 6 →
  ¬ (is_true g v (s, d, p, c) = true ∧ is_true g v (s, d, p + 1, c) = true).
Proof.
intros Hrun Hsat Hs Hd Hc Hlab Hp.
pose proof (model_assign g g' v Hrun Hsat) as Ha.
rewrite <-!(is_true_frame g g' v _ Ha).
apply (whole_model no_consecutive); auto using no_consecutive_sub.
Qed.

Lemma never_back_to_back_witness :
  ¬ (is_true (built (init true)) week_valuation ("A", "Mon", 1, "CN") = true ∧
     is_true (built (init true)) week_valuation ("A", "Mon", 1 + 1, "CN")
     = true).
Proof.
apply (never_back_to_back (built (init true)) (constrained (init true))
         week_valuation "A" "Mon" "CN" 1).
- apply constrained_run, init_fixed_known.
- apply week_satisfies.
- fresh_fields. by_evaluation.
- fresh_fields. by_evaluation.
- fresh_fields. by_evaluation.
- reflexivity.
- lia.
Defined.

(** X7. In every valuation that satisfies the constraints, on each day
    of each section a lab course is either absent, or true at periods 4
    and 5 and at no other, or true at periods 6 and 7 and at no other:
    it never has both double periods of a day. *)
Theorem lab_one_session_a_day (g g' : TimetableGenerator) (v : valuation)
  (s d c : string) (info : CourseInfo) :
  add_constraints g = (inr tt, g') → satisfies v (model g') →
  s ∈ sections g → d ∈ days g →
  (c, info) ∈ courses g → is_lab info = true →
  (∀ p, 1 ≤ p ≤ 7 → is_true g v (s, d, p, c) = false) ∨
  (∀ p, 1 ≤ p ≤ 7 → is_true g v (s, d, p, c) = true ↔ p = 4 ∨ p = 5) ∨
  (∀ p, 1 ≤ p ≤ 7 → is_true g v (s, d, p, c) = true ↔ p = 6 ∨ p = 7).
Proof.
intros Hrun Hsat Hs Hd Hc Hlab.
pose proof (model_assign g g' v Hrun Hsat) as Ha.
pose proof (elem_of_lab_courses g c info Hc Hlab) as Hc'.
assert (∀ p, 1 ≤ p ≤ 7 → p ∉ [4; 5; 6; 7] →
             is_true g v (s, d, p, c) = false) as Hout.
{ intros p Hp Hnot. rewrite <-(is_true_frame g g' v _ Ha).
  apply (whole_model lab_outside); auto using lab_block_sub. }
assert (is_true g v (s, d, 4, c) = is_true g v (s, d, 5, c)) as H45.
{ rewrite <-!(is_true_frame g g' v _ Ha).
  apply (whole_model lab_pair); auto using lab_block_sub. by left. }
assert (is_true g v (s, d, 6, c) = is_true g v (s, d, 7, c)) as H67.
{ rewrite <-!(is_true_frame g g' v _ Ha).
  apply (whole_model lab_pair); auto using lab_block_sub. right. by left. }
assert (true_count g v (range 1 8 ≫= λ p, [(s, d, p, c)]) ≤ 2) as Hday.
{ etransitivity;
    [apply (true_count_bind_elem g v
              (λ c', range 1 8 ≫= λ p, [(s, d, p, c')]) _ c Hc')|].
  rewrite <-(true_count_frame g g' v _ Ha).
  apply (whole_model lab_per_day); auto using lab_block_sub. }
change (range 1 8) with [1; 2; 3; 4; 5; 6; 7] in Hday.
cbn [mbind list_bind app] in Hday.
rewrite !true_count_cons, true_count_nil in Hday.
assert (is_true g v (s, d, 1, c) = false) as H1
  by (apply Hout; [lia | by_evaluation]).
assert (is_true g v (s, d, 2, c) = false) as H2
  by (apply Hout; [lia | by_evaluation]).
assert (is_true g v (s, d, 3, c) = false) as H3
  by (apply Hout; [lia | by_evaluation]).
rewrite H1, H2, H3, <-H45, <-H67 in Hday.
destruct (is_true g v (s, d, 4, c)) eqn:H4;
  destruct (is_true g v (s, d, 6, c)) eqn:H6; simpl in Hday; try lia.
- right. left. intros p Hp.
  assert (p = 1 ∨ p = 2 ∨ p = 3 ∨ p = 4 ∨ p = 5 ∨ p = 6 ∨ p = 7)
    as [->|[->|[->|[->|[->|[->| ->]]]]]] by lia;
    rewrite ?H1, ?H2, ?H3, ?H4, <-?H45, ?H6, <-?H67;
    split; intros; try done; try lia; by (left + right).
- right. right. intros p Hp.
  assert (p = 1 ∨ p = 2 ∨ p = 3 ∨ p = 4 ∨ p = 5 ∨ p = 6 ∨ p = 7)
    as [->|[->|[->|[->|[->|[->| ->]]]]]] by lia;
    rewrite ?H1, ?H2, ?H3, ?H4, <-?H45, ?H6, <-?H67;
    split; intros; try done; try lia; by (left + right).
- left. intros p Hp.
  assert (p = 1 ∨ p = 2 ∨ p = 3 ∨ p = 4 ∨ p = 5 ∨ p = 6 ∨ p = 7)
    as [->|[->|[->|[->|[->|[->| ->]]]]]] by lia;
    by rewrite ?H1, ?H2, ?H3, ?H4, <-?H45, ?H6, <-?H67.
Qed.

Lemma lab_one_session_a_day_witness :
  (∀ p, 1 ≤ p ≤ 7 →
        is_true (built (init true)) week_valuation
                ("A", "Mon", p, "FDSA_LAB") = false) ∨
  (∀ p, 1 ≤ p ≤ 7 →
        is_true (built (init true)) week_valuation
                ("A", "Mon", p, "FDSA_LAB") = true ↔ p = 4 ∨ p = 5) ∨
  (∀ p, 1 ≤ p ≤ 7 →
        is_true (built (init true)) week_valuation
                ("A", "Mon", p, "FDSA_LAB") = true ↔ p = 6 ∨ p = 7).
Proof.
apply (lab_one_session_a_day (built (init true)) (constrained (init true))
         week_valuation "A" "Mon" "FDSA_LAB" (2, true, "Ms. Deepika")).
- apply constrained_run, init_fixed_known.
- apply week_satisfies.
- fresh_fields. by_evaluation.
- fresh_fields. by_evaluation.
- fresh_fields. by_evaluation.
- reflexivity.
Defined.

(** X8. A model can only be satisfied when the weekly counts fit the
    week: for an object with at least one section, they add up to
    exactly |days| x 7 without free periods, and to at most that with
    free periods. *)
Theorem weekly_counts_fit (g g' : TimetableGenerator) (v : valuation)
  (s : string) :
  add_constraints g = (inr tt, g') → satisfies v (model g') →
  s ∈ sections g →
  if include_free_periods g
  then total_weekly g ≤ length (days g) * 7
  else total_weekly g = length (days g) * 7.
Proof.
intros Hrun Hsat Hs. destruct (include_free_periods g) eqn:Hfree.
- apply (coverage_within_quota add_constraints (constraint_stmts g)
           g g' v s); auto using add_constraints_unrolls,
           constraint_stmts_adds, slot_coverage_sub, course_count_sub.
- symmetry.
  apply (coverage_meets_quota add_constraints (constraint_stmts g)
           g g' v s); auto using add_constraints_unrolls,
           constraint_stmts_adds, slot_coverage_sub, course_count_sub.
Qed.

Lemma weekly_counts_fit_witness :
  total_weekly (built (init true)) ≤ length (days (built (init true))) * 7 ∧
  total_weekly (built strict) = length (days (built strict)) * 7.
Proof.
split.
- pose proof (weekly_counts_fit (built (init true)) (constrained (init true))
                week_valuation "A") as H.
  rewrite built_free in H. apply H.
  + apply constrained_run, init_fixed_known.
  + apply week_satisfies.
  + fresh_fields. by_evaluation.
- pose proof (weekly_counts_fit (built strict) (constrained strict)
                week_valuation "A") as H.
  rewrite built_free in H. apply H.
  + apply constrained_run, (init_fixed_known true).
  + apply week_satisfies_strict.
  + fresh_fields. by_evaluation.
Defined.

(** ** [solve] *)

Section solve_more.

Variable g : TimetableGenerator.

(** The answer of [solve] and the object it leaves. *)
Lemma solve_status solver :
  (∀ k, k ∈ slot_keys g → is_Some (assign g !! k)) →
  solve solver g =
  (inr (found (solver (model g)).1),
   if found (solver (model g)).1
   then set_solution
          (Some (fill_all g (solver (model g)).2 (sections g) ∅)) g
   else g).
Proof.
intros Hkeys. destruct (solver (model g)) as [st v] eqn:Hsolver.
cbn [fst snd]. destruct (found st) eqn:Hfound.
- by apply (solve_found g v solver st).
- by apply (solve_not_found g solver st v).
Qed.

Lemma fill_all_outside v s d p :
  ¬ (s ∈ sections g ∧ d ∈ days g ∧ 1 ≤ p ≤ 7) →
  solution_at (set_solution (Some (fill_all g v (sections g) ∅)) g) s d p
  = None.
Proof.
intros Hout. unfold solution_at.
cbn [solution set_solution mbind option_bind]. unfold fill_all.
destruct (decide (s ∈ sections g)) as [Hs|Hs].
- rewrite (foldl_insert_lookup _ _ _ _ Hs). cbn [mbind option_bind].
  unfold fill_section.
  destruct (decide (d ∈ days g)) as [Hd|Hd].
  + rewrite (foldl_insert_lookup _ _ _ _ Hd). cbn [mbind option_bind].
    rewrite fill_day_other; [apply lookup_empty|].
    rewrite elem_of_range. intros Hp. apply Hout. split_and!; [done..|lia|lia].
  + rewrite (foldl_insert_other _ _ _ _ Hd), lookup_empty. done.
- rewrite (foldl_insert_other _ _ _ _ Hs), lookup_empty. done.
Qed.

End solve_more.

(** X9. On an object that has a variable for every key of the grid,
    [solve] never raises and returns [True] exactly when the solver's
    status is OPTIMAL or FEASIBLE; otherwise it leaves the object as it
    was, [self.solution] included; in both cases the model and
    [self.assign] are as before. *)
Theorem solve_answers_status (g : TimetableGenerator) (solver : CpSolver) :
  (∀ k, k ∈ slot_keys g → is_Some (assign g !! k)) →
  (solve solver g).1 = inr (found (solver (model g)).1) ∧
  (found (solver (model g)).1 = false → (solve solver g).2 = g) ∧
  model (solve solver g).2 = model g ∧
  assign (solve solver g).2 = assign g.
Proof.
intros Hkeys. rewrite (solve_status g solver Hkeys). cbn [fst snd].
split_and!; [done | by intros -> | |];
  by destruct (found (solver (model g)).1).
Qed.

Lemma solve_answers_status_witness :
  (solve never_finds (built (init true))).1 = inr false ∧
  (solve (careless all_true) (built (init true))).1 = inr true.
Proof.
split.
- apply (solve_answers_status (built (init true)) never_finds).
  apply built_present.
- apply (solve_answers_status (built (init true)) (careless all_true)).
  apply built_present.
Defined.

(** X10. No entry outside the grid: after [solve] has found a
    solution, [self.solution] has nothing at a section, day or period
    that is not of the catalogs and 1..7. *)
Theorem solution_inside_grid (g : TimetableGenerator) (solver : CpSolver)
  (s d : string) (p : nat) :
  (∀ k, k ∈ slot_keys g → is_Some (assign g !! k)) →
  found (solver (model g)).1 = true →
  ¬ (s ∈ sections g ∧ d ∈ days g ∧ 1 ≤ p ≤ 7) →
  solution_at (solve solver g).2 s d p = None.
Proof.
intros Hkeys Hfound Hout. rewrite (solve_status g solver Hkeys), Hfound.
cbn [snd]. by apply fill_all_outside.
Qed.

Lemma solution_inside_grid_witness :
  solution_at (solve (careless all_true) (built (init true))).2 "A" "Mon" 8
  = None.
Proof.
apply (solution_inside_grid (built (init true)) (careless all_true)).
- apply built_present.
- reflexivity.
- intros (_ & _ & Hp). lia.
Defined.

(** ** Calling the methods out of order *)

(** X11. [add_constraints] on an object whose first key has no variable
    (for instance before [generate_variables]) raises KeyError with that
    key while it builds the first sum of rule 1, and adds nothing to the
    model. *)
Theorem add_constraints_without_variables (g : TimetableGenerator)
  (s d c : string) (ss ds cs : list string) :
  sections g = s :: ss → days g = d :: ds → course_ids g = c :: cs →
  assign g !! (s, d, 1, c) = None →
  add_constraints g = (inl (KeyError (KSlot (s, d, 1, c))), g).
Proof.
intros Hs Hd Hc Hnone. rewrite add_constraints_script.
unfold constraint_stmts, slot_coverage_stmts. rewrite Hs, Hd.
change (range 1 8) with (1 :: range 2 8). rewrite !bind_cons, Hc.
unfold script.
destruct (include_free_periods g); cbn [app]; rewrite for_cons, bind_run;
  cbn [exec]; rewrite model_Add_run; cbn [sum_ fmap list_fmap];
  unfold mbind at 1, Expr_bind at 1, mbind at 1, Expr_bind at 1, getitem at 1;
  by rewrite Hnone.
Qed.

Lemma add_constraints_without_variables_witness :
  add_constraints (init true) =
  (inl (KeyError (KSlot ("A", "Mon", 1, "PAS"))), init true).
Proof.
apply (add_constraints_without_variables (init true) "A" "Mon" "PAS"
         ["B"] ["Tue"; "Wed"; "Thu"; "Fri"; "Sat"]
         (tail (course_ids (init true))));
  [reflexivity | reflexivity | by_evaluation | apply lookup_empty].
Defined.

(** X12. [solve] on an object whose first key has no variable, with a
    solver that reports a solution, raises KeyError with that key after
    it has replaced [self.solution]: the object is left with a solution
    that holds one section with one empty day. *)
Theorem solve_without_variables (g : TimetableGenerator) (solver : CpSolver)
  (s d c : string) (ss ds cs : list string) :
  sections g = s :: ss → days g = d :: ds → course_ids g = c :: cs →
  assign g !! (s, d, 1, c) = None →
  found (solver (model g)).1 = true →
  solve solver g =
  (inl (KeyError (KSlot (s, d, 1, c))),
   set_solution (Some {[ s := {[ d := ∅ ]} ]}) g).
Proof.
intros Hs Hd Hc Hnone Hfound. unfold solve. rewrite bind_run.
unfold gets at 1. destruct (solver (model g)) as [st v]. cbn [fst] in Hfound.
replace (bool_decide (st = OPTIMAL) || bool_decide (st = FEASIBLE)) with true
  by (by destruct st).
rewrite bind_modify, bind_gets.
change (sections (set_solution (Some ∅) g)) with (sections g).
rewrite Hs, bind_run, for_cons, bind_run.
unfold extract_section at 1. rewrite bind_run.
unfold solution_new_section at 1.
cbn [solution set_solution]. rewrite bind_gets.
cbn [days set_solution]. rewrite Hd, for_cons, bind_run.
unfold extract_day at 1. rewrite bind_run.
unfold solution_new_day at 1. cbn [solution set_solution].
rewrite lookup_insert_eq.
change (range 1 8) with (1 :: range 2 8). rewrite for_cons, bind_run.
unfold extract_slot at 1. rewrite bind_gets. unfold compose.
cbn [courses set_solution]. fold (course_ids g). rewrite Hc.
rewrite for_cons, bind_run. unfold extract_course at 1.
rewrite bind_run. unfold eval, getitem. cbn [assign set_solution].
rewrite Hnone. by rewrite insert_insert_eq, !insert_empty.
Qed.

Lemma solve_without_variables_witness :
  solve (careless all_true) (init true) =
  (inl (KeyError (KSlot ("A", "Mon", 1, "PAS"))),
   set_solution (Some {[ "A" := {[ "Mon" := ∅ ]} ]}) (init true)).
Proof.
apply (solve_without_variables (init true) (careless all_true)
         "A" "Mon" "PAS" ["B"] ["Tue"; "Wed"; "Thu"; "Fri"; "Sat"]
         (tail (course_ids (init true))));
  [reflexivity | reflexivity | by_evaluation | apply lookup_empty
  | reflexivity].
Defined.

(** ** What the solution holds *)

(** When [add_constraints] returns, every key of the grid has a
    variable: rule 1 has read each of them. *)
Lemma returns_present g g' k :
  add_constraints g = (inr tt, g') → k ∈ slot_keys g →
  is_Some (assign g !! k).
Proof.
rewrite add_constraints_script. intros Hrun Hk.
destruct k as [[[s d] p] c].
apply elem_of_slot_keys in Hk as (Hs & Hd & Hp & Hc).
apply script_adds_ok in Hrun as (cs & Hcs & _);
  [|apply constraint_stmts_adds].
assert (∃ mk : LinearExpr → Constraint,
          SAdd (e ← sum_ (slot_vars g s d p); mret (mk e))
          ∈ constraint_stmts g) as [mk Hin].
{ destruct (include_free_periods g) eqn:Hfree.
  - exists (λ e, SumLe e 1). apply slot_coverage_sub.
    unfold slot_coverage_stmts. in_bind s. in_bind d. in_bind p.
    rewrite Hfree. in_here.
  - exists (λ e, SumEq e 1). apply slot_coverage_sub.
    unfold slot_coverage_stmts. in_bind s. in_bind d. in_bind p.
    rewrite Hfree. in_here. }
apply list_elem_of_lookup in Hin as [i Hi].
destruct (Forall2_lookup_l _ _ _ _ _ Hcs Hi) as (c' & _ & Hc').
simpl in Hc'. unfold mbind, Expr_bind in Hc'.
destruct (sum_ (slot_vars g s d p) (assign g)) as [|xs] eqn:Hsum; [done|].
apply sum_ok in Hsum.
assert ((s, d, p, c) ∈ slot_vars g s d p) as Hk.
{ apply list_elem_of_fmap. by exists c. }
apply list_elem_of_lookup in Hk as [j Hj].
destruct (Forall2_lookup_l _ _ _ _ _ Hsum Hj) as (x & _ & Hx).
by exists x.
Qed.

Section solved.

Variables (g g' : TimetableGenerator) (v : valuation).
Hypothesis Hrun : add_constraints g = (inr tt, g').
Hypothesis Hsat : satisfies v (model g').

Variables (s d : string) (p : nat).
Hypothesis Hs : s ∈ sections g.
Hypothesis Hd : d ∈ days g.
Hypothesis Hp : 1 ≤ p ≤ 7.

Lemma extracted_some c t :
  extracted g' v s d p = Some (c, t) ↔
  c ∈ course_ids g' ∧ is_true g' v (s, d, p, c) = true ∧
  ∃ info, dict_get c (courses g') = Some info ∧ teacher info = t.
Proof.
pose proof (at_most_one_true g g' v Hrun Hsat s d p Hs Hd Hp) as Hone.
unfold extracted.
assert (∀ c1, c1 ∈ true_courses g' v s d p ↔
              c1 ∈ course_ids g' ∧ is_true g' v (s, d, p, c1) = true)
  as Hmem
  by (intros c1;
      apply (elem_of_List_filter (λ c, is_true g' v (s, d, p, c)))).
destruct (true_courses g' v s d p) as [|c1 [|c2 l]] eqn:Hl.
- split; [done|]. intros (Hc & Htrue & _).
  assert (c ∈ @nil string) as Hin by (by apply Hmem).
  by apply elem_of_nil in Hin.
- cbn [last mbind option_bind]. unfold entry_of.
  destruct (Hmem c1) as [Hc1 _].
  destruct Hc1 as [Hc1 Htrue1]; [by left|]. split.
  + destruct (dict_get c1 (courses g')) as [info|] eqn:Hinfo; [|done].
    cbn [mbind option_bind]. intros [= <- <-]. eauto.
  + intros (Hc & Htrue & info & Hinfo & <-).
    assert (c ∈ [c1]) as Hin by (by apply Hmem).
    apply list_elem_of_singleton in Hin as ->. by rewrite Hinfo.
- simpl in Hone. lia.
Qed.

Lemma extracted_none :
  extracted g' v s d p = None ↔
  ∀ c, c ∈ course_ids g' → is_true g' v (s, d, p, c) = false.
Proof.
split.
- intros Hnone c Hc.
  destruct (is_true g' v (s, d, p, c)) eqn:Htrue; [|done].
  destruct (dict_get_keys _ _ Hc) as [info Hinfo].
  assert (extracted g' v s d p = Some (c, teacher info)) as Hsome
    by (apply extracted_some; eauto).
  congruence.
- intros Hall. destruct (extracted g' v s d p) as [[c t]|] eqn:Hex; [|done].
  apply extracted_some in Hex as (Hc & Htrue & _).
  rewrite (Hall c Hc) in Htrue. done.
Qed.

Lemma extracted_total :
  include_free_periods g = false → is_Some (extracted g' v s d p).
Proof.
intros Hfree.
assert (length (true_courses g' v s d p) = 1) as Hone.
{ rewrite <-(true_count_slot_vars g g' v Hrun Hsat).
  apply (whole_model slot_coverage_eq); auto using slot_coverage_sub. }
destruct (extracted g' v s d p) as [e|] eqn:Hex; [by eexists|].
assert (∃ c, c ∈ true_courses g' v s d p) as [c Hc].
{ destruct (true_courses g' v s d p) as [|c l]; [done|]. exists c. by left. }
apply (elem_of_List_filter (λ c, is_true g' v (s, d, p, c))) in Hc
  as [Hc Htrue].
pose proof (proj1 extracted_none Hex c Hc). congruence.
Qed.

End solved.

(** X13. What [solve] stores for a model that [add_constraints] built:
    when the solver returns a valuation that satisfies the model, the
    entry of a slot of the grid is a course with its teacher exactly
    when that course's variable is true; the slot has no entry exactly
    when no variable of the slot is true; and without free periods
    every slot of the grid has an entry. *)
Theorem solution_reads_valuation (g g' : TimetableGenerator)
  (solver : CpSolver) (v : valuation) (s d : string) (p : nat) :
  add_constraints g = (inr tt, g') →
  (solver (model g')).2 = v → found (solver (model g')).1 = true →
  satisfies v (model g') →
  s ∈ sections g → d ∈ days g → 1 ≤ p ≤ 7 →
  (∀ c t, solution_at (solve solver g').2 s d p = Some (c, t) ↔
          c ∈ course_ids g ∧ is_true g v (s, d, p, c) = true ∧
          ∃ info, dict_get c (courses g) = Some info ∧ teacher info = t) ∧
  (solution_at (solve solver g').2 s d p = None ↔
   ∀ c, c ∈ course_ids g → is_true g v (s, d, p, c) = false) ∧
  (include_free_periods g = false →
   is_Some (solution_at (solve solver g').2 s d p)).
Proof.
intros Hrun Hv Hfound Hsat Hs Hd Hp.
pose proof (model_assign g g' v Hrun Hsat) as Ha.
pose proof (model_config g g' v Hrun Hsat) as Hcfg.
pose proof (model_course_ids g g' v Hrun Hsat) as Hids.
assert (courses g' = courses g) as Hcs by (by destruct Hcfg as (_&_&_&->&_)).
assert (∀ k, is_true g' v k = is_true g v k) as Htrue
  by (intros k; unfold is_true; by rewrite Ha).
assert (∀ k, k ∈ slot_keys g' → is_Some (assign g' !! k)) as Hkeys.
{ intros k Hk. rewrite Ha. apply (returns_present g g' k Hrun).
  by rewrite <-(slot_keys_config _ _ Hcfg). }
rewrite (solve_status g' solver Hkeys), Hfound, Hv. cbn [snd].
assert (s ∈ sections g') as Hs' by (by destruct Hcfg as (_&_&->&_)).
assert (d ∈ days g') as Hd' by (by destruct Hcfg as (->&_)).
rewrite (solution_at_fill g' v s d p Hs' Hd' Hp).
split_and!.
- intros c t.
  rewrite (extracted_some g g' v Hrun Hsat s d p Hs Hd Hp c t).
  by rewrite Hids, Htrue, Hcs.
- rewrite (extracted_none g g' v Hrun Hsat s d p Hs Hd Hp), Hids.
  by setoid_rewrite Htrue.
- apply (extracted_total g g' v Hrun Hsat s d p Hs Hd Hp).
Qed.

Lemma solution_reads_valuation_witness :
  (∀ c t,
     solution_at (solve (careless week_valuation) (constrained (init true))).2
                 "A" "Mon" 1 = Some (c, t) ↔
     c ∈ course_ids (built (init true)) ∧
     is_true (built (init true)) week_valuation ("A", "Mon", 1, c) = true ∧
     ∃ info, dict_get c (courses (built (init true))) = Some info ∧
             teacher info = t) ∧
  (solution_at (solve (careless week_valuation) (constrained (init true))).2
               "A" "Mon" 1 = None ↔
   ∀ c, c ∈ course_ids (built (init true)) →
        is_true (built (init true)) week_valuation ("A", "Mon", 1, c) = false) ∧
  (include_free_periods (built (init true)) = false →
   is_Some
     (solution_at (solve (careless week_valuation) (constrained (init true))).2
                  "A" "Mon" 1)).
Proof.
apply (solution_reads_valuation (built (init true)) (constrained (init true))
         (careless week_valuation) week_valuation "A" "Mon" 1).
- apply constrained_run, init_fixed_known.
- reflexivity.
- reflexivity.
- apply week_satisfies.
- fresh_fields. by_evaluation.
- fresh_fields. by_evaluation.
- lia.
Defined.

(** ** [run] *)

(** X14. [run] on an object whose fixed slots are keys of the grid:
    [generate_variables], [add_constraints] and [solve] raise nothing,
    and the result is [True] exactly when the solver's status on the
    model of [add_constraints] is OPTIMAL or FEASIBLE; the object is the
    one [solve] leaves on that model. *)
Theorem run_answers_status (g0 : TimetableGenerator) (solver : CpSolver) :
  (∀ k, k ∈ fixed_slots g0 → k ∈ slot_keys g0) →
  run solver g0 =
  (inr (found (solver (model (constrained g0))).1),
   (solve solver (constrained g0)).2).
Proof.
intros Hfixed. unfold run.
rewrite bind_run, (built_run g0), bind_run, (constrained_run g0 Hfixed).
rewrite bind_run.
rewrite (solve_status (constrained g0) solver (constrained_present g0)).
cbn [snd]. by destruct (found (solver (model (constrained g0))).1).
Qed.

Lemma run_answers_status_witness :
  run never_finds (init true) =
  (inr (found (never_finds (model (constrained (init true)))).1),
   (solve never_finds (constrained (init true))).2).
Proof.
apply (run_answers_status (init true) never_finds), init_fixed_known.
Defined.

(** ** The statistics *)

Section statistics_facts.

Lemma fold_pure {A S} (xs : list A) (body : S → A → exn + S)
  (f : S → A → S) st :
  (∀ st x, x ∈ xs → body st x = inr (f st x)) →
  fold_ xs body st = inr (foldl f st xs).
Proof.
revert st. induction xs as [|x xs IH]; intros st H; [done|].
unfold fold_ in *. cbn [foldl]. rewrite H by (by left).
apply IH. intros. apply H. by right.
Qed.

Lemma foldl_bind {A B S} (F : S → B → S) (h : A → list B) l m :
  foldl F m (l ≫= h) = foldl (λ m x, foldl F m (h x)) m l.
Proof.
revert m. induction l as [|x l IH]; intros m; [done|].
rewrite bind_cons, foldl_app, IH. done.
Qed.

Lemma foldl_week_slots {S} (F : S → string * nat → S) g m :
  foldl (λ m d, foldl (λ m p, F m (d, p)) m (range 1 8)) m (days g) =
  foldl F m (week_slots g).
Proof.
unfold week_slots. rewrite foldl_bind. revert m.
induction (days g) as [|d ds IH]; intros m; [done|].
cbn [foldl]. rewrite IH. f_equal; by rewrite foldl_bind.
Qed.

Lemma count_up_lookup k k' m :
  count_up k' m !! k =
  if decide (k' = k) then Some (default 0 (m !! k) + 1) else m !! k.
Proof.
unfold count_up. destruct (decide (k' = k)) as [->|Hne].
- by rewrite lookup_insert_eq.
- by rewrite lookup_insert_ne.
Qed.

(** The counts after a run of slots. *)
Lemma tally_lookup {A} (h : A → option string) (l : list A)
  (m : gmap string nat) k :
  default 0 (foldl (λ m x, tally (h x) m) m l !! k) =
  default 0 (m !! k) + occurrences h k l ∧
  (foldl (λ m x, tally (h x) m) m l !! k = None ↔
   m !! k = None ∧ occurrences h k l = 0).
Proof.
revert m. induction l as [|x l IH]; intros m.
- unfold occurrences. cbn [foldl List.filter length]. split; [lia|tauto].
- cbn [foldl]. destruct (IH (tally (h x) m)) as [IH1 IH2].
  rewrite IH1, IH2. unfold occurrences. cbn [List.filter].
  destruct (h x) as [k'|] eqn:Hx; cbn [tally].
  + rewrite count_up_lookup. destruct (decide (k' = k)) as [->|Hne].
    * rewrite bool_decide_eq_true_2 by done. cbn [length default].
      unfold id. split; [lia|]. split; [by intros [? _] | intros [_ ?]; lia].
    * rewrite bool_decide_eq_false_2 by congruence. done.
  + rewrite bool_decide_eq_false_2 by done. done.
Qed.

Variables (g : TimetableGenerator) (v : valuation).

Lemma solution_day_fill s d :
  s ∈ sections g → d ∈ days g →
  solution_day (fill_all g v (sections g) ∅) s d =
  inr (fill_day g v s d (range 1 8) ∅).
Proof.
intros Hs Hd. unfold solution_day, fill_all.
rewrite (foldl_insert_lookup _ _ _ _ Hs). unfold fill_section.
by rewrite (foldl_insert_lookup _ _ _ _ Hd).
Qed.

Lemma count_slot_fill field s d counts p :
  s ∈ sections g → d ∈ days g → p ∈ range 1 8 →
  count_slot field (fill_all g v (sections g) ∅) s d counts p =
  inr (tally (field <$> extracted g v s d p) counts).
Proof.
intros Hs Hd Hp. unfold count_slot.
rewrite (solution_day_fill s d Hs Hd).
rewrite (fill_day_lookup g v s d (range 1 8) ∅ p (range_NoDup 1 8) Hp
           (lookup_empty p)).
by destruct (extracted g v s d p).
Qed.

Lemma count_section_fill field s counts :
  s ∈ sections g →
  fold_ (days g)
        (λ counts d,
           fold_ (range 1 8)
                 (count_slot field (fill_all g v (sections g) ∅) s d) counts)
        counts =
  inr (foldl (λ m dp, tally (field <$> extracted g v s dp.1 dp.2) m)
             counts (week_slots g)).
Proof.
intros Hs.
rewrite <-(foldl_week_slots
             (λ m dp, tally (field <$> extracted g v s dp.1 dp.2) m)).
apply fold_pure. intros m d Hd. apply fold_pure. intros m' p Hp.
by apply count_slot_fill.
Qed.

End statistics_facts.

Section solved_statistics.

Variables (g g' : TimetableGenerator) (v : valuation).
Hypothesis Hrun : add_constraints g = (inr tt, g').
Hypothesis Hsat : satisfies v (model g').

Variable s : string.
Hypothesis Hs : s ∈ sections g.

Lemma filter_none {A} (P : A → bool) (l : list A) :
  (∀ x, x ∈ l → P x = false) → List.filter P l = [].
Proof.
induction l as [|x l IH]; intros H; [done|].
cbn [List.filter]. rewrite H by (by left). apply IH. intros. apply H. by right.
Qed.

Lemma model_week_slots : week_slots g' = week_slots g.
Proof.
unfold week_slots.
by destruct (model_config g g' v Hrun Hsat) as (-> & _).
Qed.

(** The entries of a course in a section are as many as rule 2 asks. *)
Lemma course_occurrences c info :
  dict_get c (courses g) = Some info →
  occurrences (λ dp, fst <$> extracted g' v s dp.1 dp.2) c (week_slots g')
  = weekly_count info.
Proof.
intros Hinfo.
rewrite <-((whole_model course_count_eq) s c info (course_count_sub g) Hs
             (dict_get_elem _ _ _ Hinfo)).
rewrite week_vars_slots, model_week_slots. unfold true_count, occurrences.
rewrite length_filter_fmap. f_equal. apply filter_ext_in.
intros [d p] Hin. apply list_elem_of_In, elem_of_week_slots in Hin as [Hd Hp].
unfold compose. cbn [fst snd].
assert (courses g' = courses g) as Hcs
  by (by destruct (model_config g g' v Hrun Hsat) as (_&_&_&->&_)).
destruct (is_true g' v (s, d, p, c)) eqn:Htrue.
- apply bool_decide_eq_true_2.
  rewrite (proj2 (extracted_some g g' v Hrun Hsat s d p Hs Hd Hp
                    c (teacher info))); [done|].
  split_and!; [|done|exists info; by rewrite Hcs].
  rewrite (model_course_ids g g' v Hrun Hsat).
  apply list_elem_of_fmap. exists (c, info).
  split; [done | by apply dict_get_elem].
- apply bool_decide_eq_false_2. intros Hex.
  destruct (extracted g' v s d p) as [[c' t]|] eqn:He; [|done].
  injection Hex as ->.
  apply (extracted_some g g' v Hrun Hsat s d p Hs Hd Hp) in He
    as (_ & Htrue' & _).
  congruence.
Qed.

(** Only courses of the catalog have entries. *)
Lemma other_occurrences c :
  dict_get c (courses g) = None →
  occurrences (λ dp, fst <$> extracted g' v s dp.1 dp.2) c (week_slots g')
  = 0.
Proof.
intros Hnone. unfold occurrences. rewrite filter_none; [done|].
intros [d p] Hin. rewrite model_week_slots in Hin.
apply elem_of_week_slots in Hin as [Hd Hp]. cbn [fst snd].
apply bool_decide_eq_false_2. intros Hex.
destruct (extracted g' v s d p) as [[c' t]|] eqn:He; [|done].
injection Hex as ->.
apply (extracted_some g g' v Hrun Hsat s d p Hs Hd Hp) in He
  as (_ & _ & info & Hinfo & _).
assert (courses g' = courses g) as Hcs
  by (by destruct (model_config g g' v Hrun Hsat) as (_&_&_&->&_)).
congruence.
Qed.

End solved_statistics.

(** X15. The subject distribution that [print_timetable] and
    [generate_html] compute after a successful [solve], for a valuation
    that satisfies the model of [add_constraints]: the loops raise
    nothing, a subject is listed exactly when it is a course of the
    catalog with a weekly count above 0, and the count listed for it
    equals its required count. *)
Theorem subject_counts_match (g g' : TimetableGenerator) (solver : CpSolver)
  (v : valuation) (s : string) :
  add_constraints g = (inr tt, g') →
  (solver (model g')).2 = v → found (solver (model g')).1 = true →
  satisfies v (model g') →
  s ∈ sections g →
  ∃ sol counts,
    solution (solve solver g').2 = Some sol ∧
    subject_counts (solve solver g').2 sol s = inr counts ∧
    ∀ subject n,
      counts !! subject = Some n ↔
      0 < n ∧ required (solve solver g').2 subject = inr n.
Proof.
intros Hrun Hv Hfound Hsat Hs.
pose proof (model_assign g g' v Hrun Hsat) as Ha.
pose proof (model_config g g' v Hrun Hsat) as Hcfg.
assert (courses g' = courses g) as Hcs by (by destruct Hcfg as (_&_&_&->&_)).
assert (s ∈ sections g') as Hs' by (by destruct Hcfg as (_&_&->&_)).
assert (∀ k, k ∈ slot_keys g' → is_Some (assign g' !! k)) as Hkeys.
{ intros k Hk. rewrite Ha. apply (returns_present g g' k Hrun).
  by rewrite <-(slot_keys_config _ _ Hcfg). }
rewrite (solve_status g' solver Hkeys), Hfound, Hv. cbn [snd].
exists (fill_all g' v (sections g') ∅).
eexists. split; [done|]. split.
- unfold subject_counts. cbn [days set_solution].
  apply (count_section_fill g' v fst s ∅ Hs').
- intros c n. unfold required. cbn [courses set_solution]. rewrite Hcs.
  destruct (tally_lookup (λ dp, fst <$> extracted g' v s dp.1 dp.2)
              (week_slots g') ∅ c) as [Hn Hnone].
  rewrite lookup_empty in Hn, Hnone. cbn [default] in Hn.
  destruct (dict_get c (courses g)) as [info|] eqn:Hinfo.
  + rewrite (course_occurrences g g' v Hrun Hsat s Hs c info Hinfo)
      in Hn, Hnone.
    destruct (foldl _ _ _ !! c) as [n'|] eqn:Hc; cbn [default] in Hn;
      unfold id in Hn.
    * split.
      -- intros [= <-]. split; [|by rewrite Hn].
         destruct (weekly_count info); [|lia].
         destruct Hnone as [_ Hnone]. by specialize (Hnone (conj eq_refl eq_refl)).
      -- intros [_ [= <-]]. by rewrite Hn.
    * split; [done|]. intros [Hpos [= <-]].
      destruct Hnone as [Hnone _]. destruct (Hnone eq_refl) as [_ H0]. lia.
  + rewrite (other_occurrences g g' v Hrun Hsat s Hs c Hinfo) in Hnone.
    destruct Hnone as [_ Hnone]. rewrite (Hnone (conj eq_refl eq_refl)).
    split; [done | by intros [_ ?]].
Qed.

Lemma subject_counts_match_witness :
  ∃ sol counts,
    solution (solve (careless week_valuation) (constrained (init true))).2
    = Some sol ∧
    subject_counts (solve (careless week_valuation) (constrained (init true))).2
                   sol "A" = inr counts ∧
    ∀ subject n,
      counts !! subject = Some n ↔
      0 < n ∧
      required (solve (careless week_valuation) (constrained (init true))).2
               subject = inr n.
Proof.
apply (subject_counts_match (built (init true)) (constrained (init true))
         (careless week_valuation) week_valuation "A").
- apply constrained_run, init_fixed_known.
- reflexivity.
- reflexivity.
- apply week_satisfies.
- fresh_fields. by_evaluation.
Defined.

(** X16. The guard of [print_timetable] and [generate_html] after a
    successful [solve]: [not self.solution] holds exactly when the
    object has no section, in which case [solve] has returned [True]
    and left an empty solution that both methods treat as none. *)
Theorem solved_guard (g : TimetableGenerator) (solver : CpSolver) :
  (∀ k, k ∈ slot_keys g → is_Some (assign g !! k)) →
  found (solver (model g)).1 = true →
  (solve solver g).1 = inr true ∧
  (not_solution (solve solver g).2 = true ↔ sections g = []).
Proof.
intros Hkeys Hfound. rewrite (solve_status g solver Hkeys), Hfound.
cbn [fst snd]. split; [done|].
unfold not_solution. cbn [solution set_solution]. unfold fill_all.
destruct (sections g) as [|s ss]; [done|]. split; [|done].
intros Hempty. apply bool_decide_eq_true in Hempty.
assert (s ∈ s :: ss) as Hs by (by left).
apply (f_equal (λ sol : Solution, sol !! s)) in Hempty.
rewrite (foldl_insert_lookup _ _ _ _ Hs), lookup_empty in Hempty. done.
Qed.

Lemma solved_guard_witness :
  (solve (careless all_true) (built (init true))).1 = inr true ∧
  (not_solution (solve (careless all_true) (built (init true))).2 = true ↔
   sections (built (init true)) = []).
Proof.
apply (solved_guard (built (init true)) (careless all_true)).
- apply built_present.
- reflexivity.
Defined.

(** ** The cells of the HTML page *)

Lemma cell_class_lab c p :
  str_contains "LAB" c = true →
  cell_class c p =
  if (p =? 4) || (p =? 6) then "lab lab-start"
  else if (p =? 5) || (p =? 7) then "lab lab-end"
  else "lab".
Proof.
intros H. unfold cell_class.
destruct (String.eqb_spec c "FREE") as [->|_]; [by vm_compute in H|].
destruct (str_in c ["PD"; "LIB"; "ACT"]) eqn:Hin.
{ apply str_in_spec in Hin.
  repeat (apply elem_of_cons in Hin as [->|Hin]; [by vm_compute in H|]).
  by apply elem_of_nil in Hin. }
cbn [existsb]. by rewrite H.
Qed.

Lemma html_cell_class_fill g v s d p :
  s ∈ sections g → d ∈ days g → 1 ≤ p ≤ 7 →
  html_cell_class (fill_all g v (sections g) ∅) s d p =
  inr (match extracted g v s d p with
       | Some e => cell_class e.1 p
       | None => "free"
       end).
Proof.
intros Hs Hd Hp. unfold html_cell_class.
rewrite (solution_day_fill g v s d Hs Hd).
rewrite (fill_day_lookup g v s d (range 1 8) ∅ p (range_NoDup 1 8));
  [by destruct (extracted g v s d p) | apply elem_of_range; lia
  | apply lookup_empty].
Qed.

Section lab_cells.

Variables (g g' : TimetableGenerator) (v : valuation).
Hypothesis Hrun : add_constraints g = (inr tt, g').
Hypothesis Hsat : satisfies v (model g').

Variables (s d c : string) (info : CourseInfo).
Hypothesis Hs : s ∈ sections g.
Hypothesis Hd : d ∈ days g.
Hypothesis Hinfo : dict_get c (courses g) = Some info.
Hypothesis Hlab : is_lab info = true.

Lemma lab_in_block p t :
  1 ≤ p ≤ 7 → extracted g' v s d p = Some (c, t) → p ∈ [4; 5; 6; 7].
Proof.
intros Hp Hex.
apply (extracted_some g g' v Hrun Hsat s d p Hs Hd Hp) in Hex
  as (_ & Htrue & _).
destruct (decide (p ∈ [4; 5; 6; 7])) as [|Hout]; [done|].
rewrite ((whole_model lab_outside) s d c p (lab_block_sub g) Hs Hd
           (elem_of_lab_courses g c info (dict_get_elem _ _ _ Hinfo) Hlab)
           Hp Hout) in Htrue.
done.
Qed.

Lemma lab_partner p1 p2 t :
  (p1, p2) ∈ [(4, 5); (6, 7)] →
  extracted g' v s d p1 = Some (c, t) ↔ extracted g' v s d p2 = Some (c, t).
Proof.
intros Hpair.
assert (1 ≤ p1 ≤ 7 ∧ 1 ≤ p2 ≤ 7) as [Hp1 Hp2].
{ repeat (apply elem_of_cons in Hpair as [[= -> ->]|Hpair]; [lia|]).
  by apply elem_of_nil in Hpair. }
rewrite (extracted_some g g' v Hrun Hsat s d p1 Hs Hd Hp1 c t).
rewrite (extracted_some g g' v Hrun Hsat s d p2 Hs Hd Hp2 c t).
rewrite ((whole_model lab_pair) s d c p1 p2 (lab_block_sub g) Hs Hd
           (elem_of_lab_courses g c info (dict_get_elem _ _ _ Hinfo) Hlab)
           Hpair).
done.
Qed.

End lab_cells.

(** X17. The lab cells of the HTML page, for a valuation that satisfies
    the model: a cell that holds a lab course whose identifier contains
    LAB is the start or the end of a double period, never a lone lab
    cell; a start at period 4 or 6 is followed by the end of the same
    course with the same teacher, and an end at period 5 or 7 follows
    such a start. *)
Theorem lab_cells_paired (g g' : TimetableGenerator) (solver : CpSolver)
  (v : valuation) (s d c t : string) (info : CourseInfo) (p : nat) :
  add_constraints g = (inr tt, g') →
  (solver (model g')).2 = v → found (solver (model g')).1 = true →
  satisfies v (model g') →
  s ∈ sections g → d ∈ days g → 1 ≤ p ≤ 7 →
  dict_get c (courses g) = Some info → is_lab info = true →
  str_contains "LAB" c = true →
  solution_at (solve solver g').2 s d p = Some (c, t) →
  ∃ sol q,
    solution (solve solver g').2 = Some sol ∧
    solution_at (solve solver g').2 s d q = Some (c, t) ∧
    ((p, q) ∈ [(4, 5); (6, 7)] ∧
     html_cell_class sol s d p = inr "lab lab-start" ∧
     html_cell_class sol s d q = inr "lab lab-end"
     ∨
     (q, p) ∈ [(4, 5); (6, 7)] ∧
     html_cell_class sol s d q = inr "lab lab-start" ∧
     html_cell_class sol s d p = inr "lab lab-end").
Proof.
intros Hrun Hv Hfound Hsat Hs Hd Hp Hinfo Hlab Hname.
pose proof (model_assign g g' v Hrun Hsat) as Ha.
pose proof (model_config g g' v Hrun Hsat) as Hcfg.
assert (s ∈ sections g') as Hs' by (by destruct Hcfg as (_&_&->&_)).
assert (d ∈ days g') as Hd' by (by destruct Hcfg as (->&_)).
assert (∀ k, k ∈ slot_keys g' → is_Some (assign g' !! k)) as Hkeys.
{ intros k Hk. rewrite Ha. apply (returns_present g g' k Hrun).
  by rewrite <-(slot_keys_config _ _ Hcfg). }
rewrite (solve_status g' solver Hkeys), Hfound, Hv. cbn [snd].
rewrite (solution_at_fill g' v s d p Hs' Hd' Hp). intros Hex.
exists (fill_all g' v (sections g') ∅).
pose proof (lab_in_block g g' v Hrun Hsat s d c info Hs Hd Hinfo Hlab p t
              Hp Hex) as Hin.
pose proof (lab_partner g g' v Hrun Hsat s d c info Hs Hd Hinfo Hlab)
  as Hpartner.
assert (∀ p1 p2, (p1, p2) ∈ [(4, 5); (6, 7)] →
          extracted g' v s d p1 = Some (c, t) →
          solution_at (set_solution (Some (fill_all g' v (sections g') ∅)) g')
                      s d p1 = Some (c, t) ∧
          solution_at (set_solution (Some (fill_all g' v (sections g') ∅)) g')
                      s d p2 = Some (c, t) ∧
          html_cell_class (fill_all g' v (sections g') ∅) s d p1
          = inr "lab lab-start" ∧
          html_cell_class (fill_all g' v (sections g') ∅) s d p2
          = inr "lab lab-end") as Hcells.
{ intros p1 p2 Hpair Hex1.
  pose proof (proj1 (Hpartner p1 p2 t Hpair) Hex1) as Hex2.
  assert (1 ≤ p1 ≤ 7 ∧ 1 ≤ p2 ≤ 7 ∧
          ((p1 =? 4) || (p1 =? 6) = true) ∧
          ((p2 =? 4) || (p2 =? 6) = false) ∧
          ((p2 =? 5) || (p2 =? 7) = true)) as (Hp1 & Hp2 & E1 & E2 & E3).
  { repeat (apply elem_of_cons in Hpair as [[= -> ->]|Hpair];
            [by split_and!; try lia|]).
    by apply elem_of_nil in Hpair. }
  rewrite (solution_at_fill g' v s d p1 Hs' Hd' Hp1).
  rewrite (solution_at_fill g' v s d p2 Hs' Hd' Hp2).
  rewrite (html_cell_class_fill g' v s d p1 Hs' Hd' Hp1), Hex1.
  rewrite (html_cell_class_fill g' v s d p2 Hs' Hd' Hp2), Hex2.
  cbn [fst]. rewrite !(cell_class_lab c _ Hname), E1, E2, E3. done. }
assert ((4, 5) ∈ [(4, 5); (6, 7)]) as H45 by (by left).
assert ((6, 7) ∈ [(4, 5); (6, 7)]) as H67 by (right; by left).
repeat (apply elem_of_cons in Hin as [->|Hin]).
- exists 5. destruct (Hcells 4 5 H45 Hex) as (_ & H2 & H3 & H4).
  split_and!; [done | done |]. left. by split_and!.
- exists 4.
  destruct (Hcells 4 5 H45 (proj2 (Hpartner 4 5 t H45) Hex))
    as (H1 & _ & H3 & H4).
  split_and!; [done | done |]. right. by split_and!.
- exists 7. destruct (Hcells 6 7 H67 Hex) as (_ & H2 & H3 & H4).
  split_and!; [done | done |]. left. by split_and!.
- exists 6.
  destruct (Hcells 6 7 H67 (proj2 (Hpartner 6 7 t H67) Hex))
    as (H1 & _ & H3 & H4).
  split_and!; [done | done |]. right. by split_and!.
- by apply elem_of_nil in Hin.
Qed.

Lemma lab_cells_paired_witness :
  ∃ sol q,
    solution (solve (careless week_valuation) (constrained (init true))).2
    = Some sol ∧
    solution_at (solve (careless week_valuation) (constrained (init true))).2
                "A" "Mon" q = Some ("FDSA_LAB", "Ms. Deepika") ∧
    ((4, q) ∈ [(4, 5); (6, 7)] ∧
     html_cell_class sol "A" "Mon" 4 = inr "lab lab-start" ∧
     html_cell_class sol "A" "Mon" q = inr "lab lab-end"
     ∨
     (q, 4) ∈ [(4, 5); (6, 7)] ∧
     html_cell_class sol "A" "Mon" q = inr "lab lab-start" ∧
     html_cell_class sol "A" "Mon" 4 = inr "lab lab-end").
Proof.
apply (lab_cells_paired (built (init true)) (constrained (init true))
         (careless week_valuation) week_valuation
         "A" "Mon" "FDSA_LAB" "Ms. Deepika" (2, true, "Ms. Deepika") 4).
- apply constrained_run, init_fixed_known.
- reflexivity.
- reflexivity.
- apply week_satisfies.
- fresh_fields. by_evaluation.
- fresh_fields. by_evaluation.
- lia.
- fresh_fields. reflexivity.
- reflexivity.
- reflexivity.
- by_evaluation.
Defined.

(** ** The workload of a teacher *)

Lemma count_one {A} (P : A → bool) (l : list A) x :
  NoDup l → x ∈ l → P x = true → (∀ y, y ∈ l → P y = true → y = x) →
  length (List.filter P l) = 1.
Proof.
induction l as [|y l IH]; intros Hnd Hx HPx Huniq.
- by apply elem_of_nil in Hx.
- apply NoDup_cons in Hnd as [Hy Hnd]. cbn [List.filter].
  destruct (P y) eqn:HPy.
  + assert (y = x) as -> by (apply Huniq; [by left | done]).
    rewrite filter_none; [done|]. intros z Hz.
    destruct (P z) eqn:HPz; [|done].
    assert (z = x) as -> by (apply Huniq; [by right | done]). done.
  + apply elem_of_cons in Hx as [->|Hx]; [congruence|].
    apply IH; try done. intros z Hz. apply Huniq. by right.
Qed.

Lemma NoDup_List_filter {A} (P : A → bool) (l : list A) :
  NoDup l → NoDup (List.filter P l).
Proof.
induction l as [|x l IH]; intros Hnd; [done|].
apply NoDup_cons in Hnd as [Hx Hnd]. cbn [List.filter].
destruct (P x); [|by apply IH].
apply NoDup_cons. split; [|by apply IH].
intros Hin. by apply elem_of_List_filter in Hin as [? _].
Qed.

Lemma occurrences_bind {A B} (h : B → option string) (k : A → list B) t l :
  occurrences h t (l ≫= k) = sum_list ((λ x, occurrences h t (k x)) <$> l).
Proof.
unfold occurrences. induction l as [|x l IH]; [done|].
rewrite bind_cons, List.filter_app, length_app, IH. done.
Qed.

Section workload.

Variables (g g' : TimetableGenerator) (v : valuation).
Hypothesis Hrun : add_constraints g = (inr tt, g').
Hypothesis Hsat : satisfies v (model g').
Hypothesis Hnd : NoDup (course_ids g).

Variable s : string.
Hypothesis Hs : s ∈ sections g.

(** At a slot, the courses of a teacher that are true are one when the
    entry of the slot has that teacher, and none otherwise. *)
Lemma teacher_slot d p t :
  d ∈ days g → 1 ≤ p ≤ 7 →
  length (List.filter (λ item, is_true g' v (s, d, p, item.1))
                      (courses_of g t)) =
  if bool_decide (snd <$> extracted g' v s d p = Some t) then 1 else 0.
Proof.
intros Hd Hp.
assert (courses g' = courses g) as Hcs
  by (by destruct (model_config g g' v Hrun Hsat) as (_&_&_&->&_)).
pose proof (model_course_ids g g' v Hrun Hsat) as Hids.
assert (∀ item, item ∈ courses_of g t →
          item ∈ courses g ∧ teacher item.2 = t) as HF.
{ intros item Hitem. apply elem_of_List_filter in Hitem as [Hin Ht].
  split; [done | by apply bool_decide_eq_true in Ht]. }
destruct (extracted g' v s d p) as [[c1 t1]|] eqn:Hex.
- pose proof Hex as Hex'.
  apply (extracted_some g g' v Hrun Hsat s d p Hs Hd Hp) in Hex'
    as (Hc1 & Htrue1 & info1 & Hinfo1 & Ht1).
  rewrite Hcs in Hinfo1.
  assert (∀ item, item ∈ courses g →
            is_true g' v (s, d, p, item.1) = true → item = (c1, info1))
    as Huniq.
  { intros [c info] Hitem Htrue. cbn [fst] in Htrue.
    pose proof (dict_get_nodup _ _ _ Hnd Hitem) as Hget.
    assert (extracted g' v s d p = Some (c, teacher info)) as Hex2.
    { apply (extracted_some g g' v Hrun Hsat s d p Hs Hd Hp).
      split_and!; [|done|exists info; by rewrite Hcs].
      rewrite Hids. apply list_elem_of_fmap. by exists (c, info). }
    rewrite Hex in Hex2. injection Hex2 as <- _. congruence. }
  cbn [fmap option_fmap option_map snd].
  destruct (decide (t1 = t)) as [Heq|Hne].
  + rewrite bool_decide_eq_true_2 by congruence.
    apply (count_one _ _ (c1, info1)).
    * apply NoDup_List_filter. by apply (NoDup_fmap_1 fst).
    * apply elem_of_List_filter. split; [by apply dict_get_elem|].
      apply bool_decide_eq_true_2. cbn [snd]. congruence.
    * done.
    * intros item Hitem. apply Huniq. by apply HF.
  + rewrite bool_decide_eq_false_2 by congruence.
    rewrite filter_none; [done|]. intros item Hitem.
    destruct (HF item Hitem) as [Hin Ht].
    destruct (is_true g' v (s, d, p, item.1)) eqn:Htrue; [|done].
    rewrite (Huniq item Hin Htrue) in Ht. cbn [snd] in Ht. congruence.
- rewrite bool_decide_eq_false_2 by done.
  rewrite filter_none; [done|]. intros [c info] Hitem.
  destruct (HF _ Hitem) as [Hin _]. cbn [fst].
  apply (proj1 (extracted_none g g' v Hrun Hsat s d p Hs Hd Hp) Hex).
  rewrite Hids. apply list_elem_of_fmap. by exists (c, info).
Qed.

(** The entries of a teacher in a section are as many as the weekly
    counts of the teacher's courses. *)
Lemma teacher_occurrences t :
  occurrences (λ dp, snd <$> extracted g' v s dp.1 dp.2) t (week_slots g')
  = teaching_load g t.
Proof.
unfold teaching_load, occurrences.
rewrite (model_week_slots g g' v Hrun Hsat).
rewrite (sum_list_fmap_ext _
           (λ item, length (List.filter
                              (λ dp, is_true g' v (s, dp.1, dp.2, item.1))
                              (week_slots g)))).
- rewrite (count_exchange
             (λ item dp, is_true g' v (s, dp.1, dp.2, item.1))).
  rewrite length_filter_sum. apply sum_list_fmap_ext.
  intros [d p] Hdp. apply elem_of_week_slots in Hdp as [Hd Hp].
  cbn [fst snd]. symmetry. by apply teacher_slot.
- intros [c info] Hitem. apply elem_of_List_filter in Hitem as [Hin _].
  cbn [snd fst].
  rewrite <-((whole_model course_count_eq) s c info (course_count_sub g)
               Hs Hin).
  rewrite week_vars_slots. unfold true_count.
  by rewrite length_filter_fmap.
Qed.

End workload.

(** X18. The teacher workload that [print_timetable] and
    [generate_html] compute after a successful [solve], for a valuation
    that satisfies the model of [add_constraints] and a catalog without
    repeated identifiers: the loops raise nothing, and a teacher is
    listed with the number of sections times the weekly counts of the
    teacher's courses, exactly when that number is above 0. *)
Theorem teacher_workload_match (g g' : TimetableGenerator) (solver : CpSolver)
  (v : valuation) :
  add_constraints g = (inr tt, g') →
  (solver (model g')).2 = v → found (solver (model g')).1 = true →
  satisfies v (model g') →
  NoDup (course_ids g) →
  ∃ sol counts,
    solution (solve solver g').2 = Some sol ∧
    teacher_workload (solve solver g').2 sol = inr counts ∧
    ∀ t n,
      counts !! t = Some n ↔
      0 < n ∧ n = length (sections g) * teaching_load g t.
Proof.
intros Hrun Hv Hfound Hsat Hnd.
pose proof (model_assign g g' v Hrun Hsat) as Ha.
pose proof (model_config g g' v Hrun Hsat) as Hcfg.
assert (sections g' = sections g) as Hss by (by destruct Hcfg as (_&_&->&_)).
assert (∀ k, k ∈ slot_keys g' → is_Some (assign g' !! k)) as Hkeys.
{ intros k Hk. rewrite Ha. apply (returns_present g g' k Hrun).
  by rewrite <-(slot_keys_config _ _ Hcfg). }
rewrite (solve_status g' solver Hkeys), Hfound, Hv. cbn [snd].
exists (fill_all g' v (sections g') ∅).
exists (foldl (λ m x, tally (snd <$> extracted g' v x.1 x.2.1 x.2.2) m) ∅
          (sections g' ≫= λ s, (λ dp, (s, dp)) <$> week_slots g')).
split; [done|]. split.
- unfold teacher_workload. cbn [sections days set_solution].
  rewrite foldl_bind.
  apply fold_pure. intros m s Hs. rewrite foldl_fmap.
  apply (count_section_fill g' v snd s m Hs).
- intros t n.
  destruct (tally_lookup (λ x, snd <$> extracted g' v x.1 x.2.1 x.2.2)
              (sections g' ≫= λ s, (λ dp, (s, dp)) <$> week_slots g') ∅ t)
    as [Hn Hnone].
  rewrite lookup_empty in Hn, Hnone. cbn [default] in Hn.
  assert (occurrences (λ x, snd <$> extracted g' v x.1 x.2.1 x.2.2) t
            (sections g' ≫= λ s, (λ dp, (s, dp)) <$> week_slots g')
          = length (sections g) * teaching_load g t) as Hocc.
  { rewrite occurrences_bind, Hss. apply sum_list_fmap_const.
    intros s Hs. unfold occurrences. rewrite length_filter_fmap.
    apply (teacher_occurrences g g' v Hrun Hsat Hnd s Hs t). }
  rewrite Hocc in Hn, Hnone.
  destruct (foldl _ _ _ !! t) as [n'|] eqn:Ht; cbn [default] in Hn;
    unfold id in Hn.
  + split.
    * intros [= <-]. split; [|done].
      destruct (length (sections g) * teaching_load g t); [|lia].
      destruct Hnone as [_ Hnone].
      by specialize (Hnone (conj eq_refl eq_refl)).
    * intros [_ ->]. by rewrite Hn.
  + split; [done|]. intros [Hpos ->].
    destruct Hnone as [Hnone _]. destruct (Hnone eq_refl) as [_ H0]. lia.
Qed.

Lemma teacher_workload_match_witness :
  ∃ sol counts,
    solution (solve (careless week_valuation) (constrained (init true))).2
    = Some sol ∧
    teacher_workload (solve (careless week_valuation) (constrained (init true))).2
                     sol = inr counts ∧
    ∀ t n,
      counts !! t = Some n ↔
      0 < n ∧
      n = length (sections (built (init true))) *
          teaching_load (built (init true)) t.
Proof.
apply (teacher_workload_match (built (init true)) (constrained (init true))
         (careless week_valuation) week_valuation).
- apply constrained_run, init_fixed_known.
- reflexivity.
- reflexivity.
- apply week_satisfies.
- fresh_fields. by_evaluation.
Defined.

(** ** The cells of the printed table *)

Lemma str_contains_dot_cons a s :
  str_contains "." (String a s) = Ascii.eqb a dot || str_contains "." s.
Proof.
cbn [str_contains String.prefix].
destruct (Ascii.eqb_spec a dot) as [->|Hne].
- destruct (Ascii.ascii_dec _ dot) as [_|Hne]; [by destruct s | by destruct Hne].
- destruct (Ascii.ascii_dec _ a) as [Heq|_]; [|done].
  destruct Hne. symmetry. exact Heq.
Qed.

(** The list of [split]: one word when there is no separator, and
    otherwise a last word without separator after the last one. *)
Lemma split_dot_spec s :
  ∃ w ws,
    split dot s = w :: ws ∧
    (ws = [] → w = s ∧ str_contains "." s = false) ∧
    (ws ≠ [] →
     str_contains "." s = true ∧
     ∃ pre l, last ws = Some l ∧ s = pre +:+ "." +:+ l ∧
              str_contains "." l = false).
Proof.
induction s as [|a s IH].
- exists "", []. by split_and!.
- destruct IH as (w & ws & Hsplit & Hone & Hmore).
  rewrite str_contains_dot_cons. cbn [split]. rewrite Hsplit.
  destruct (Ascii.eqb_spec a dot) as [->|Hne].
  + exists "", (w :: ws). split_and!; [done | done |].
    intros _. split; [done|].
    destruct ws as [|w' ws'].
    * destruct (Hone eq_refl) as [-> Hno]. by exists "", s.
    * destruct Hmore as (_ & pre & l & Hlast & -> & Hno); [done|].
      exists (String dot pre), l. by split_and!.
  + exists (String a w), ws. split_and!; [done | |].
    * intros ->. destruct (Hone eq_refl) as [-> Hno]. by rewrite Hno.
    * intros Hws. destruct (Hmore Hws) as (Hdot & pre & l & Hlast & -> & Hno).
      split; [by rewrite Hdot|]. exists (String a pre), l. by split_and!.
Qed.

(** X19. The teacher's name in a cell of the printed table: the short
    name contains no '.', and the teacher's name is the short name
    itself when it has no '.', and otherwise ends with a '.' followed
    by the short name. *)
Theorem teacher_short_after_last_dot (teacher : string) :
  str_contains "." (teacher_short teacher) = false ∧
  (str_contains "." teacher = false → teacher_short teacher = teacher) ∧
  (str_contains "." teacher = true →
   ∃ pre, teacher = pre +:+ "." +:+ teacher_short teacher).
Proof.
unfold teacher_short.
destruct (split_dot_spec teacher) as (w & ws & Hsplit & Hone & Hmore).
destruct (str_contains "." teacher) eqn:Hdot.
- destruct ws as [|w' ws'].
  { destruct (Hone eq_refl) as [_ Hno]. congruence. }
  destruct Hmore as (_ & pre & l & Hlast & Heq & Hno); [done|].
  rewrite Hsplit. change (last (w :: w' :: ws')) with (last (w' :: ws')).
  rewrite Hlast. cbn [default]. split_and!; [done | done |].
  intros _. by exists pre.
- split_and!; [done | done | done].
Qed.
